(** * Fluttery: session manager and ReWOO orchestrator

    A shallow embedding of
      - [server/src/services/sessionManager.ts]        (module [SessionManager]),
      - the route in front of [updateSessionCode]      (module [SessionRoutes]),
      - [server/src/agents/MasterOrchestratorAgent.ts] and the bus of
        [agents/shared/AgentCommunication.ts]          (module [Orchestrator]),
      - [services/multiAgentService.ts] and the route in front of it
                                                       (modules [MultiAgentService],
                                                        [MultiAgentRoutes]),
    followed by the vocabulary of the properties, a few concrete scenarios, and
    the properties themselves ([SessionManagerSpec], [OrchestratorSpec], and
    the modules after them).

    Conventions of the embedding.
      - A JS [Map<string, V>] is a [gmap string V], a [Set<number>] a [gset Z];
        a JS [number] holding an integer (ports, millisecond time stamps) is a [Z].
      - An object that is shared and mutated is kept in one place and referred
        to by a key: a session by its id in [sessions], a child process by its
        index in [procs], a plan by its index in [plans].
      - A [Promise] that settles is a function returning [Result]: [Ok v] for a
        fulfilled promise, [Err e] for a rejected one (a thrown [Error]).
      - Everything the code obtains from outside (the uuid, the clock, the child
        process' output, the AI answer, the file system's verdict) is an explicit
        argument of the function that consumes it.
      - Each public operation runs to completion before the next one starts:
        the operations on one session are serialized by the caller. The states
        in which [createSession] waits are listed by [suspended]. *)

From stdpp Require Import gmap strings list fin_maps pretty.
From Stdlib Require Import ZArith Lia.

Inductive Result (E A : Type) : Type :=
  | Ok (a : A)
  | Err (e : E).
Arguments Ok {E A} a.
Arguments Err {E A} e.

(** [String.prototype.includes]. *)
Definition includes (s sub : string) : bool :=
  match String.index 0 sub s with Some _ => true | None => false end.

(** [String.prototype.replace] with a string pattern: the first occurrence only. *)
Definition replace (s pat new : string) : string :=
  match String.index 0 pat s with
  | Some i =>
      String.substring 0 i s +:+ new
        +:+ String.substring (i + String.length pat)
              (String.length s - (i + String.length pat)) s
  | None => s
  end.

(** [path.join] on segments that are already normalised. *)
Fixpoint path_join (segments : list string) : string :=
  match segments with
  | [] => "."
  | [s] => s
  | s :: rest => s +:+ "/" +:+ path_join rest
  end.

(* ================================================================== *)
(** * The session manager *)
(* ================================================================== *)

Module SessionManager.

(** The errors [sessionManager.ts] throws, by the message of each. *)
Inductive Error : Type :=
  | MaxSessionsReached             (* 'Maximum number of sessions reached' *)
  | NoAvailablePorts               (* 'No available ports for Flutter session' *)
  | ServerTimeout (sessionId : string)   (* `Flutter server timeout for session ${sessionId}` *)
  | SessionNotFound (sessionId : string) (* `Session ${sessionId} not found` *)
  | NoActiveProcess (sessionId : string) (* `... not found or no active Flutter process` *)
  | External (message : string).   (* an error raised by a collaborator *)

Inductive SessionStatus : Type := initializing | ready | error | terminated.

Inductive Signal : Type := SIGTERM | SIGKILL.

Global Instance SessionStatus_eq_dec : EqDecision SessionStatus.
Proof. solve_decision. Defined.
Global Instance Signal_eq_dec : EqDecision Signal.
Proof. solve_decision. Defined.

(** Node's [ChildProcess], as far as the manager uses it.
      - [running]: the operating-system process exists (the object still has its
        handle);
      - [killed]: Node's flag, "true after [subprocess.kill()] is used to
        successfully send a signal to the child process"; it does not say that
        the process has exited;
      - [signals]: the signals delivered to the process, oldest first;
      - [stdin]: what was written to its standard input. *)
Record ChildProcess : Type := {
  running : bool;
  killed : bool;
  signals : list Signal;
  stdin : list string
}.

(** [interface FlutterSession]. [flutterProcess] is a reference: an index into
    the manager's table of child processes. Dates are milliseconds ([getTime]). *)
Record FlutterSession : Type := {
  id : string;
  userId : option string;
  projectPath : string;
  port : Z;
  flutterProcess : option nat;
  createdAt : Z;
  lastActive : Z;
  status : SessionStatus;
  previewUrl : string
}.

Definition set_status (v : SessionStatus) (s : FlutterSession) : FlutterSession :=
  {| id := id s; userId := userId s; projectPath := projectPath s; port := port s;
     flutterProcess := flutterProcess s; createdAt := createdAt s;
     lastActive := lastActive s; status := v; previewUrl := previewUrl s |}.

Definition set_lastActive (v : Z) (s : FlutterSession) : FlutterSession :=
  {| id := id s; userId := userId s; projectPath := projectPath s; port := port s;
     flutterProcess := flutterProcess s; createdAt := createdAt s;
     lastActive := v; status := status s; previewUrl := previewUrl s |}.

Definition set_flutterProcess (v : option nat) (s : FlutterSession) : FlutterSession :=
  {| id := id s; userId := userId s; projectPath := projectPath s; port := port s;
     flutterProcess := v; createdAt := createdAt s;
     lastActive := lastActive s; status := status s; previewUrl := previewUrl s |}.

(** A pending [setTimeout] callback of [terminateSession]: the delay and the
    child process the closure's [session.flutterProcess] refers to. *)
Record Timer : Type := { delay : Z; target : nat }.

(** [class SessionManager], together with the two pieces of the outside world
    its methods act on: the child processes and the files of the workspaces. *)
Record Manager : Type := {
  sessions : gmap string FlutterSession;
  usedPorts : gset Z;
  procs : list ChildProcess;
  timers : list Timer;
  files : gmap string string
}.

Definition basePort : Z := 8080.
Definition maxSessions : nat := 50.
Definition projectsDir : string := "temp/sessions".
Definition inactiveThreshold : Z := 60 * 60 * 1000.

Definition initial : Manager :=
  {| sessions := ∅; usedPorts := ∅; procs := []; timers := []; files := ∅ |}.

Definition with_sessions (m : gmap string FlutterSession) (st : Manager) : Manager :=
  {| sessions := m; usedPorts := usedPorts st; procs := procs st;
     timers := timers st; files := files st |}.
Definition with_usedPorts (u : gset Z) (st : Manager) : Manager :=
  {| sessions := sessions st; usedPorts := u; procs := procs st;
     timers := timers st; files := files st |}.
Definition with_procs (p : list ChildProcess) (st : Manager) : Manager :=
  {| sessions := sessions st; usedPorts := usedPorts st; procs := p;
     timers := timers st; files := files st |}.
Definition with_timers (t : list Timer) (st : Manager) : Manager :=
  {| sessions := sessions st; usedPorts := usedPorts st; procs := procs st;
     timers := t; files := files st |}.
Definition with_files (f : gmap string string) (st : Manager) : Manager :=
  {| sessions := sessions st; usedPorts := usedPorts st; procs := procs st;
     timers := timers st; files := f |}.

(** The loop of [getNextAvailablePort]: [n] ports are still to be tried,
    starting at [port]. *)
Fixpoint scanPorts (used : gset Z) (port : Z) (n : nat) : option Z :=
  match n with
  | O => None
  | S k => if decide (port ∈ used) then scanPorts used (port + 1)%Z k else Some port
  end.

Definition getNextAvailablePort (st : Manager) : Result Error Z :=
  match scanPorts (usedPorts st) basePort 1000 with
  | Some port => Ok port
  | None => Err NoAvailablePorts
  end.

(** [ChildProcess.kill(signal)]: the signal is delivered, and [killed] set, when
    the process still exists; otherwise nothing happens ([kill] returns false). *)
Definition kill (h : nat) (sig : Signal) (st : Manager) : Manager :=
  match procs st !! h with
  | Some p =>
      if running p
      then with_procs (<[h := {| running := running p; killed := true;
                                 signals := signals p ++ [sig];
                                 stdin := stdin p |}]> (procs st)) st
      else st
  | None => st
  end.

(** [fs.remove(dir)]: every file below [dir] disappears. *)
Definition below (dir path : string) : bool := String.prefix (dir +:+ "/") path.

Definition fs_remove (dir : string) (fs : gmap string string) : gmap string string :=
  filter (λ kv, below dir kv.1 = false) fs.

(** [terminateSession]. [removeOk] tells whether [fs.remove] succeeds; its
    failure is caught and logged. *)
Definition terminateSession (sessionId : string) (removeOk : bool) (st : Manager) : Manager :=
  match sessions st !! sessionId with
  | None => st
  | Some session =>
      let st1 :=
        match flutterProcess session with
        | Some h =>
            let st' := kill h SIGTERM st in
            with_timers (timers st' ++ [{| delay := 5000; target := h |}]) st'
        | None => st
        end in
      let st2 :=
        if removeOk then with_files (fs_remove (projectPath session) (files st1)) st1
        else st1 in
      let st3 := with_usedPorts (usedPorts st2 ∖ {[port session]}) st2 in
      with_sessions (delete sessionId (sessions st3)) st3
  end.

(** The callback [terminateSession] hands to [setTimeout]: the oldest pending
    timer fires. *)
Definition fireTimer (st : Manager) : Manager :=
  match timers st with
  | [] => st
  | t :: rest =>
      let st' := with_timers rest st in
      match procs st' !! target t with
      | Some p => if killed p then st' else kill (target t) SIGKILL st'
      | None => st'
      end
  end.

(** ** Collaborators *)

(** [CodeGenerationResponse] of the AI service. *)
Record GeneratedFile : Type := { path : string; content : string }.

Record CodeGenerationResponse : Type := {
  code : string;
  gen_dependencies : option (list string);
  gen_files : option (list GeneratedFile)
}.

(** What the child process does while [startFlutterServer] waits: the events
    Node delivers before the 120 second timer fires, in order. *)
Inductive ProcEvent : Type :=
  | Stdout (output : string)
  | Stderr (output : string)
  | Exit (exitCode : Z)
  | ProcError (message : string).

(** What the outside world answers during one [createSession]. *)
Record CreateEnv : Type := {
  uuid : string;                 (* uuidv4() *)
  now : Z;                       (* new Date() *)
  flutterCreate : Result string (gmap string string);
                                 (* `flutter create`: the files it writes, or its failure *)
  initialCode : Result string CodeGenerationResponse;
                                 (* aiService.generateFlutterCode for the initial prompt *)
  pubGet : bool;                 (* `flutter pub get` succeeds *)
  spawned : bool;                (* the operating system started the child *)
  events : list ProcEvent;       (* the child's events before the startup timer *)
  removeOk : bool                (* fs.remove succeeds, should the session be rolled back *)
}.

(** ** updatePubspec *)

(** The keys of [dependencyMap] proper (what a JavaScript object inherits from
    [Object.prototype] is left out). *)
Definition dependencyMap : list (string * string) :=
  [ ("http", "^1.1.0"); ("provider", "^6.1.1"); ("shared_preferences", "^2.2.2");
    ("firebase_core", "^2.24.0"); ("firebase_auth", "^4.15.0");
    ("cloud_firestore", "^4.13.3") ].

Fixpoint assoc (k : string) (l : list (string * string)) : option string :=
  match l with
  | [] => None
  | (k', v) :: rest => if decide (k' = k) then Some v else assoc k rest
  end.

Definition addDependency (pubspecContent dep : string) : string :=
  match assoc dep dependencyMap with
  | Some version =>
      if includes pubspecContent dep then pubspecContent
      else replace pubspecContent "dependencies:"
             ("dependencies:" +:+ String (Ascii.ascii_of_nat 10) "  " +:+ dep +:+ ": " +:+ version)
  | None => pubspecContent
  end.

(** Fails when [pubspec.yaml] cannot be read. *)
Definition updatePubspec (projectPath : string) (dependencies : list string)
    (fs : gmap string string) : Result Error (gmap string string) :=
  let pubspecPath := path_join [projectPath; "pubspec.yaml"] in
  match fs !! pubspecPath with
  | None => Err (External "ENOENT")
  | Some pubspecContent =>
      Ok (<[pubspecPath := foldl addDependency pubspecContent dependencies]> fs)
  end.

(** "Update pubspec.yaml if dependencies are needed", as both
    [initializeFlutterProject] and [updateSessionCode] do it: [updatePubspec],
    then `flutter pub get`. The files are returned as they are when it ends,
    also when it fails. *)
Definition updateDependencies (projectPath : string) (deps : option (list string))
    (pubGetOk : bool) (fs : gmap string string) : Result Error unit * gmap string string :=
  match deps with
  | Some (d :: ds) =>
      match updatePubspec projectPath (d :: ds) fs with
      | Ok fs' => (if pubGetOk then Ok () else Err (External "flutter pub get"), fs')
      | Err e => (Err e, fs)
      end
  | _ => (Ok (), fs)
  end.

(** ** initializeFlutterProject *)

(** [if (initialPrompt)]: the prompt is there and is not the empty string. *)
Definition given (initialPrompt : option string) : bool :=
  match initialPrompt with
  | None | Some "" => false
  | Some _ => true
  end.

Definition initializeFlutterProject (session : FlutterSession) (initialPrompt : option string)
    (env : CreateEnv) (st : Manager) : Result Error unit * Manager :=
  match flutterCreate env with
  | Err e => (Err (External e), st)
  | Ok scaffold =>
      let st1 := with_files (scaffold ∪ files st) st in
      if negb (given initialPrompt) then (Ok (), st1)
      else
        (* try { ... } catch (aiError) { logger.warn(...) }: whatever was
           written before the failure stays written *)
        match initialCode env with
        | Err _ => (Ok (), st1)
        | Ok result =>
            let mainDartPath := path_join [projectPath session; "lib"; "main.dart"] in
            let st2 := with_files (<[mainDartPath := code result]> (files st1)) st1 in
            let '(_, fs3) := updateDependencies (projectPath session)
                               (gen_dependencies result) (pubGet env) (files st2) in
            (Ok (), with_files fs3 st2)
        end
  end.

(** ** startFlutterServer *)

Definition readyMarker (port : Z) : string :=
  "is being served at http://localhost:" +:+ pretty port.

(** The listeners of [startFlutterServer], run over the events that arrive while
    the promise is pending. The first chunk of standard output that contains the
    marker resolves it, the first ['error'] event rejects it, and when the events
    run out the startup timer rejects it. An ['exit'] event only marks the
    session as terminated. *)
Fixpoint awaitServer (sessionId : string) (port : Z) (h : nat) (evs : list ProcEvent)
    (st : Manager) : Result Error unit * Manager :=
  match evs with
  | [] => (Err (ServerTimeout sessionId), st)
  | Stdout output :: rest =>
      if includes output (readyMarker port) then (Ok (), st)
      else awaitServer sessionId port h rest st
  | Stderr _ :: rest => awaitServer sessionId port h rest st
  | Exit _ :: rest =>
      let ps := match procs st !! h with
                | Some p => <[h := {| running := false; killed := killed p;
                                      signals := signals p; stdin := stdin p |}]> (procs st)
                | None => procs st
                end in
      awaitServer sessionId port h rest
        (with_sessions (alter (set_status terminated) sessionId (sessions st))
           (with_procs ps st))
  | ProcError message :: _ => (Err (External message), st)
  end.

Definition startFlutterServer (session : FlutterSession) (env : CreateEnv) (st : Manager)
    : Result Error unit * Manager :=
  let h := length (procs st) in
  let child := {| running := spawned env; killed := false; signals := []; stdin := [] |} in
  let st1 := with_procs (procs st ++ [child]) st in
  let st2 := with_sessions
               (alter (set_flutterProcess (Some h)) (id session) (sessions st1)) st1 in
  awaitServer (id session) (port session) h (events env) st2.

(** ** createSession *)

(** The synchronous head of [createSession]: the capacity check, the port, the
    record, and its registration in [sessions] and [usedPorts]. *)
Definition register (userId : option string) (env : CreateEnv) (st : Manager)
    : Result Error (FlutterSession * Manager) :=
  if decide (maxSessions ≤ size (sessions st)) then Err MaxSessionsReached
  else
    match getNextAvailablePort st with
    | Err e => Err e
    | Ok port =>
        let sessionId := uuid env in
        let session :=
          {| id := sessionId; userId := userId;
             projectPath := path_join [projectsDir; sessionId];
             port := port; flutterProcess := None;
             createdAt := now env; lastActive := now env;
             status := initializing;
             previewUrl := "http://localhost:" +:+ pretty port |} in
        Ok (session,
            with_usedPorts ({[port]} ∪ usedPorts st)
              (with_sessions (<[sessionId := session]> (sessions st)) st))
    end.

(** The [try] block of [createSession]. *)
Definition bringUp (session : FlutterSession) (initialPrompt : option string)
    (env : CreateEnv) (st : Manager) : Result Error unit * Manager :=
  match initializeFlutterProject session initialPrompt env st with
  | (Err e, st1) => (Err e, st1)
  | (Ok _, st1) => startFlutterServer session env st1
  end.

Definition createSession (userId initialPrompt : option string) (env : CreateEnv)
    (st : Manager) : Result Error FlutterSession * Manager :=
  match register userId env st with
  | Err e => (Err e, st)
  | Ok (session, st1) =>
      match bringUp session initialPrompt env st1 with
      | (Ok _, st2) =>
          let st3 := with_sessions
                       (alter (set_status ready) (id session) (sessions st2)) st2 in
          match sessions st3 !! id session with
          | Some s => (Ok s, st3)
          | None => (Ok session, st3)
          end
      | (Err e, st2) =>
          let st3 := with_sessions
                       (alter (set_status error) (id session) (sessions st2)) st2 in
          (Err e, terminateSession (id session) (removeOk env) st3)
      end
  end.

(** ** hotReload, updateSessionCode *)

Definition hotReload (sessionId : string) (st : Manager) : Result Error unit * Manager :=
  match sessions st !! sessionId with
  | None => (Err (NoActiveProcess sessionId), st)
  | Some session =>
      match flutterProcess session with
      | None => (Err (NoActiveProcess sessionId), st)
      | Some h =>
          match procs st !! h with
          | Some p =>
              (Ok (), with_procs (<[h := {| running := running p; killed := killed p;
                                           signals := signals p;
                                           stdin := stdin p ++ ["r" +:+ String (Ascii.ascii_of_nat 10) ""] |}]>
                                    (procs st)) st)
          | None => (Ok (), st)
          end
      end
  end.

(** What the outside world answers during one [updateSessionCode]. *)
Record UpdateEnv : Type := {
  u_now : Z;                                         (* new Date() *)
  generated : Result string CodeGenerationResponse;  (* aiService.generateFlutterCode *)
  u_pubGet : bool                                    (* `flutter pub get` succeeds *)
}.

Definition writeFiles (projectPath : string) (fl : list GeneratedFile)
    (fs : gmap string string) : gmap string string :=
  foldl (λ fs file, <[path_join [projectPath; path file] := content file]> fs) fs fl.

Definition updateSessionCode (sessionId prompt : string) (env : UpdateEnv) (st : Manager)
    : Result Error (option (list GeneratedFile)) * Manager :=
  match sessions st !! sessionId with
  | None => (Err (SessionNotFound sessionId), st)
  | Some session =>
      let st1 := with_sessions
                   (<[sessionId := set_lastActive (u_now env) session]> (sessions st)) st in
      let mainDartPath := path_join [projectPath session; "lib"; "main.dart"] in
      match files st1 !! mainDartPath with
      | None => (Err (External "ENOENT"), st1)
      | Some currentCode =>
          match generated env with
          | Err e => (Err (External e), st1)
          | Ok result =>
              let fs2 :=
                match gen_files result with
                | Some (f :: fl) => writeFiles (projectPath session) (f :: fl) (files st1)
                | _ => <[mainDartPath := code result]> (files st1)
                end in
              match updateDependencies (projectPath session) (gen_dependencies result)
                      (u_pubGet env) fs2 with
              | (Err e, fs3) => (Err e, with_files fs3 st1)
              | (Ok _, fs3) =>
                  match hotReload sessionId (with_files fs3 st1) with
                  | (Err e, st4) => (Err e, st4)
                  | (Ok _, st4) => (Ok (gen_files result), st4)
                  end
              end
          end
      end
  end.

(** ** getSession *)

Definition getSession (sessionId : string) (now : Z) (st : Manager)
    : option FlutterSession * Manager :=
  match sessions st !! sessionId with
  | Some session =>
      let session' := set_lastActive now session in
      (Some session', with_sessions (<[sessionId := session']> (sessions st)) st)
  | None => (None, st)
  end.

(** ** The cleanup timer *)

(** The body of the [setInterval] callback of [startCleanupTimer], run at time
    [now]; [rm] tells for which sessions [fs.remove] succeeds. The entries are
    visited in the order of [map_to_list], which need not be the insertion
    order of the JavaScript [Map]; the terminations of distinct sessions touch
    distinct records, ports and children, so that only the order in which
    their timers are queued depends on it. *)
Definition idle (now : Z) (session : FlutterSession) : bool :=
  bool_decide (now - lastActive session > inactiveThreshold)%Z.

Definition cleanup (now : Z) (rm : string → bool) (st : Manager) : Manager :=
  foldl (λ st entry,
           if idle now entry.2 then terminateSession entry.1 (rm entry.1) st else st)
        st (map_to_list (sessions st)).

(** ** shutdown *)

(** [terminateSession] in the two parts between which it waits for
    [fs.remove]. The first part runs when the method is called: the lookup,
    the signal and the timer; it hands on the session it found. *)
Definition terminateBegin (sessionId : string) (st : Manager)
    : option FlutterSession * Manager :=
  match sessions st !! sessionId with
  | None => (None, st)
  | Some session =>
      (Some session,
       match flutterProcess session with
       | Some h =>
           let st' := kill h SIGTERM st in
           with_timers (timers st' ++ [{| delay := 5000; target := h |}]) st'
       | None => st
       end)
  end.

(** The second part runs when [fs.remove] has settled. *)
Definition terminateEnd (sessionId : string) (session : FlutterSession) (removeOk : bool)
    (st : Manager) : Manager :=
  let st2 :=
    if removeOk then with_files (fs_remove (projectPath session) (files st)) st
    else st in
  let st3 := with_usedPorts (usedPorts st2 ∖ {[port session]}) st2 in
  with_sessions (delete sessionId (sessions st3)) st3.

(** [shutdown]: [terminateSession] is called for every key in turn, each call
    running up to its [await]; the calls then finish in the order in which the
    removals settle, which [settle] picks. ([Array.from(this.sessions.keys())]
    is taken in the order of [map_to_list], as in [cleanup].) *)
Definition shutdown (rm : string → bool)
    (settle : list (string * FlutterSession) → list (string * FlutterSession))
    (st : Manager) : Manager :=
  let started :=
    foldl (λ acc sessionId,
             match terminateBegin sessionId acc.2 with
             | (Some session, st') => (acc.1 ++ [(sessionId, session)], st')
             | (None, st') => (acc.1, st')
             end)
          ([], st) (map_to_list (sessions st)).*1 in
  foldl (λ st entry, terminateEnd entry.1 entry.2 (rm entry.1) st)
        started.2 (settle started.1).

(** The ['exit'] listener installed by [startFlutterServer], when child [h]
    exits after startup has settled: the process is gone, and the session the
    listener closed over (the one whose [flutterProcess] is [h]) is marked. *)
Definition onExit (h : nat) (st : Manager) : Manager :=
  let ps := match procs st !! h with
            | Some p => <[h := {| running := false; killed := killed p;
                                  signals := signals p; stdin := stdin p |}]> (procs st)
            | None => procs st
            end in
  with_sessions
    ((λ s, if decide (flutterProcess s = Some h) then set_status terminated s else s)
       <$> sessions st)
    (with_procs ps st).


(** ** Sequences of operations *)

Inductive Op : Type :=
  | CreateSession (userId initialPrompt : option string) (env : CreateEnv)
  | TerminateSession (sessionId : string) (removeOk : bool)
  | GetSession (sessionId : string) (now : Z)
  | UpdateSessionCode (sessionId prompt : string) (env : UpdateEnv)
  | Cleanup (now : Z) (rm : string → bool)
  | FireTimer
  | ChildExit (h : nat).

Definition step (st : Manager) (op : Op) : Manager :=
  match op with
  | CreateSession userId initialPrompt env => (createSession userId initialPrompt env st).2
  | TerminateSession sessionId removeOk => terminateSession sessionId removeOk st
  | GetSession sessionId now => (getSession sessionId now st).2
  | UpdateSessionCode sessionId prompt env => (updateSessionCode sessionId prompt env st).2
  | Cleanup now rm => cleanup now rm st
  | FireTimer => fireTimer st
  | ChildExit h => onExit h st
  end.

Definition run (ops : list Op) (st : Manager) : Manager := foldl step st ops.

End SessionManager.

(* ================================================================== *)
(** * The route in front of updateSessionCode *)
(* ================================================================== *)

(** [router.post('/:sessionId/code', ...)] of the sessions router, in the
    version that forwards to [sessionManager.updateSessionCode]. *)
Module SessionRoutes.
Import SessionManager.

Inductive Response : Type :=
  | BadRequest                                   (* 400 'Invalid request data' *)
  | NotFound (sessionId : string)                (* 404 'Session not found' *)
  | NotReady (status : SessionStatus)            (* 400 'Session not ready' *)
  | CodeUpdated (files : option (list GeneratedFile)) (previewUrl : string)
  | ServerError (e : Error).                     (* 500 'Failed to update code' *)

(** [updateCodeSchema]: [Joi.string().min(5).max(2000).required()]. *)
Definition validPrompt (prompt : string) : bool :=
  (5 <=? String.length prompt) && (String.length prompt <=? 2000).

(** [now] is the clock as [getSession] reads it. *)
Definition postCode (sessionId prompt : string) (now : Z) (env : UpdateEnv)
    (st : Manager) : Response * Manager :=
  if negb (validPrompt prompt) then (BadRequest, st)
  else
    match getSession sessionId now st with
    | (None, st1) => (NotFound sessionId, st1)
    | (Some session, st1) =>
        if decide (status session ≠ ready) then (NotReady (status session), st1)
        else
          match updateSessionCode sessionId prompt env st1 with
          | (Ok files, st2) => (CodeUpdated files (previewUrl session), st2)
          | (Err e, st2) => (ServerError e, st2)
          end
    end.

End SessionRoutes.

(* ================================================================== *)
(** * The master orchestrator *)
(* ================================================================== *)

Module Orchestrator.

Inductive PlanType : Type := design | code | test | integrate.
Inductive PlanStatus : Type := pending | in_progress | completed | failed.
Inductive Phase : Type := planning | execution | integration | completion.

Global Instance PlanType_eq_dec : EqDecision PlanType.
Proof. solve_decision. Defined.
Global Instance PlanStatus_eq_dec : EqDecision PlanStatus.
Proof. solve_decision. Defined.
Global Instance Phase_eq_dec : EqDecision Phase.
Proof. solve_decision. Defined.

(** A payload of type [any]: opaque to the orchestrator. *)
Definition Data : Type := string.

(** [interface ReWOOPlan]. *)
Record ReWOOPlan : Type := {
  id : string;
  type : PlanType;
  agentId : string;
  dependencies : list string;
  status : PlanStatus;
  result : option Data;
  error : option string
}.

Definition set_status (v : PlanStatus) (p : ReWOOPlan) : ReWOOPlan :=
  {| id := id p; type := type p; agentId := agentId p; dependencies := dependencies p;
     status := v; result := result p; error := error p |}.
Definition set_result (v : option Data) (p : ReWOOPlan) : ReWOOPlan :=
  {| id := id p; type := type p; agentId := agentId p; dependencies := dependencies p;
     status := status p; result := v; error := error p |}.
Definition set_error (v : option string) (p : ReWOOPlan) : ReWOOPlan :=
  {| id := id p; type := type p; agentId := agentId p; dependencies := dependencies p;
     status := status p; result := result p; error := v |}.

(** [interface AgentResult]; [confidence] in hundredths. *)
Record AgentResult (A : Type) : Type := {
  success : bool;
  data : option A;
  res_error : option string;
  confidence : Z
}.
Arguments success {A} _.
Arguments data {A} _.
Arguments res_error {A} _.
Arguments confidence {A} _.

Definition failure {A} (message : string) : AgentResult A :=
  {| success := false; data := None; res_error := Some message; confidence := 0 |}.

(** An entry of the local array [results] of [executeReWOOPlan]. *)
Record PlanResult : Type := {
  planId : string;
  r_agentId : string;
  r_type : PlanType;
  r_result : option Data
}.

(** The final artifact built by [integrateResults] (the generated project name
    and the time stamp are left out). *)
Record Artifact : Type := {
  description : string;
  a_design : option Data;
  a_code : option Data;
  a_tests : option Data;
  agentsUsed : list string;
  totalPlans : nat;
  successfulPlans : nat
}.

(** What a call of the orchestrator hands back in [AgentResult.data]. *)
Inductive Payload : Type :=
  | PlanningData (plans : list ReWOOPlan)
  | ExecutionData (results : list PlanResult)
  | IntegrationData (artifact : Artifact).

(** The message [executeReWOOPlan] sends to a specialised agent (the time stamp
    is left out). *)
Record AgentMessage : Type := {
  m_id : string;
  m_agentId : string;
  action : string;
  m_userPrompt : option string;
  m_design : option Data;
  m_codebase : option Data
}.

(** An entry of [AgentCommunicationBus.messageHistory]. *)
Inductive BusEntry : Type :=
  | Request (message : AgentMessage)
  | Response (messageId : string) (response : AgentResult Data)
  | ErrorEntry (messageId : string) (message : string).

(** [interface OrchestratorState], and with it the message history of the bus
    the orchestrator talks through. [context] is [None] while it is still [{}]. *)
Record OrchestratorState : Type := {
  currentPhase : Phase;
  plans : list ReWOOPlan;
  context : option string;          (* context.userPrompt *)
  finalResult : option Artifact;
  messageHistory : list BusEntry
}.

Definition with_phase (v : Phase) (st : OrchestratorState) : OrchestratorState :=
  {| currentPhase := v; plans := plans st; context := context st;
     finalResult := finalResult st; messageHistory := messageHistory st |}.
Definition with_plans (v : list ReWOOPlan) (st : OrchestratorState) : OrchestratorState :=
  {| currentPhase := currentPhase st; plans := v; context := context st;
     finalResult := finalResult st; messageHistory := messageHistory st |}.
Definition with_context (v : option string) (st : OrchestratorState) : OrchestratorState :=
  {| currentPhase := currentPhase st; plans := plans st; context := v;
     finalResult := finalResult st; messageHistory := messageHistory st |}.
Definition with_finalResult (v : option Artifact) (st : OrchestratorState) : OrchestratorState :=
  {| currentPhase := currentPhase st; plans := plans st; context := context st;
     finalResult := v; messageHistory := messageHistory st |}.
Definition with_history (v : list BusEntry) (st : OrchestratorState) : OrchestratorState :=
  {| currentPhase := currentPhase st; plans := plans st; context := context st;
     finalResult := finalResult st; messageHistory := v |}.

(** The state the constructor and [resetState] set up. *)
Definition fresh : OrchestratorState :=
  {| currentPhase := planning; plans := []; context := None;
     finalResult := None; messageHistory := [] |}.

(** ** sortPlansByDependencies *)

(** A loop whose body may fail to return. *)
Fixpoint foldM {S A : Type} (f : S → A → option S) (l : list A) (s : S) : option S :=
  match l with
  | [] => Some s
  | a :: l' => match f s a with
               | Some s' => foldM f l' s'
               | None => None
               end
  end.

(** The two variables [addPlan] closes over. A plan object is referred to by
    its index in [plans]: [sorted] holds references, not copies. *)
Record SortState : Type := { sorted : list nat; processed : gset string }.

(** [plans.find(p => p.id === depId)], as a reference. *)
Definition findPlan (plans : list ReWOOPlan) (depId : string) : option nat :=
  fst <$> list_find (λ p, id p = depId) plans.

(** The closure [addPlan]. [depth] bounds the nesting of its calls, as the call
    stack of the JavaScript engine does: [None] is the engine's
    "Maximum call stack size exceeded". *)
Fixpoint addPlan (depth : nat) (plans : list ReWOOPlan) (i : nat) (acc : SortState)
    : option SortState :=
  match depth with
  | O => None
  | S depth' =>
      match plans !! i with
      | None => Some acc
      | Some plan =>
          if decide (id plan ∈ processed acc) then Some acc
          else
            match foldM (λ acc depId,
                           match findPlan plans depId with
                           | Some j =>
                               if decide (depId ∈ processed acc) then Some acc
                               else addPlan depth' plans j acc
                           | None => Some acc
                           end)
                        (dependencies plan) acc with
            | Some acc' =>
                Some {| sorted := sorted acc' ++ [i];
                        processed := {[id plan]} ∪ processed acc' |}
            | None => None
            end
      end
  end.

Definition sortPlansByDependencies (depth : nat) (plans : list ReWOOPlan)
    : option (list nat) :=
  sorted <$> foldM (λ acc i, addPlan depth plans i acc)
                   (seq 0 (length plans))
                   {| sorted := []; processed := ∅ |}.

(** ** The agent bus *)

(** The agents the constructor registers on the bus. *)
Definition registered : list string := ["design-agent"; "code-agent"; "testing-agent"].

(** How the specialised agents answer: [processMessage] of the target agent, as
    a function of everything the bus has seen so far and of the message. [Err]
    is an exception thrown by the agent. *)
Definition Agents : Type := list BusEntry → AgentMessage → Result string (AgentResult Data).

(** [AgentCommunicationBus.sendMessage]. *)
Definition sendMessage (respond : Agents) (message : AgentMessage) (st : OrchestratorState)
    : Result string (AgentResult Data) * OrchestratorState :=
  let st1 := with_history (messageHistory st ++ [Request message]) st in
  if decide (m_agentId message ∈ registered) then
    match respond (messageHistory st1) message with
    | Ok response =>
        (Ok response,
         with_history (messageHistory st1 ++ [Response (m_id message) response]) st1)
    | Err e =>
        (Err e, with_history (messageHistory st1 ++ [ErrorEntry (m_id message) e]) st1)
    end
  else (Err ("Agent " +:+ m_agentId message +:+ " not found"), st1).

(** ** executeReWOOPlan *)

Definition getAgentAction (planType : PlanType) : string :=
  match planType with
  | design => "create_design"
  | code => "generate_code"
  | test => "generate_tests"
  | _ => "process"
  end.

Definition resultOfType (ty : PlanType) (rs : list PlanResult) : option Data :=
  match list_find (λ r, r_type r = ty) rs with
  | Some (_, r) => r_result r
  | None => None
  end.

(** The message for [plan], with the payload [buildAgentPayload] derives from
    the results of the plans it depends on. *)
Definition buildAgentMessage (st : OrchestratorState) (plan : ReWOOPlan)
    (previousResults : list PlanResult) : AgentMessage :=
  let dependencyResults :=
    filter (λ r, planId r ∈ dependencies plan) previousResults in
  {| m_id := id plan;
     m_agentId := agentId plan;
     action := getAgentAction (type plan);
     m_userPrompt := context st;
     m_design := match type plan with
                 | code => resultOfType design dependencyResults
                 | _ => None
                 end;
     m_codebase := match type plan with
                   | test => resultOfType code dependencyResults
                   | _ => None
                   end |}.

(** The [for (const plan of sortedPlans)] loop; [order] holds the references
    still to be visited, [results] the local array. Assigning to a field of
    [plan] updates the object in [state.plans]. *)
Fixpoint executePlans (respond : Agents) (order : list nat) (results : list PlanResult)
    (st : OrchestratorState) : AgentResult Payload * OrchestratorState :=
  match order with
  | [] =>
      ({| success := true; data := Some (ExecutionData results);
          res_error := None; confidence := 85 |}, st)
  | i :: rest =>
      match plans st !! i with
      | None => executePlans respond rest results st
      | Some plan =>
          let st1 := with_plans (<[i := set_status in_progress plan]> (plans st)) st in
          let message := buildAgentMessage st1 plan results in
          match sendMessage respond message st1 with
          | (Ok agentResult, st2) =>
              if success agentResult then
                let plan' := set_result (data agentResult) (set_status completed plan) in
                executePlans respond rest
                  (results ++ [{| planId := id plan; r_agentId := agentId plan;
                                  r_type := type plan; r_result := data agentResult |}])
                  (with_plans (<[i := plan']> (plans st2)) st2)
              else
                let plan' := set_error (res_error agentResult) (set_status failed plan) in
                (failure ("Agent " +:+ agentId plan +:+ " failed: "
                            +:+ default "undefined" (res_error agentResult)),
                 with_plans (<[i := plan']> (plans st2)) st2)
          | (Err e, st2) =>
              let plan' := set_error (Some e) (set_status failed plan) in
              (failure ("Plan execution failed: " +:+ e),
               with_plans (<[i := plan']> (plans st2)) st2)
          end
      end
  end.

(** [depth] is the call-stack depth available to [sortPlansByDependencies];
    its exhaustion is an exception that [executeReWOOPlan] does not catch. *)
Definition executeReWOOPlan (depth : nat) (respond : Agents) (st : OrchestratorState)
    : Result string (AgentResult Payload) * OrchestratorState :=
  match sortPlansByDependencies depth (plans st) with
  | None => (Err "Maximum call stack size exceeded", st)
  | Some sortedPlans =>
      let '(r, st') := executePlans respond sortedPlans [] st in (Ok r, st')
  end.

(** ** createExecutionPlan *)

(** What [callGemini] hands back for the planning prompt: an exception, or the
    parsed answer, of which the code reads the field [plans] only ([None] when
    the answer has no such field). *)
Definition PlanningResponse : Type := Result string (option (list ReWOOPlan)).

Definition createExecutionPlan (userPrompt : string) (planningResponse : PlanningResponse)
    (st : OrchestratorState) : AgentResult Payload * OrchestratorState :=
  match planningResponse with
  | Ok (Some ps) =>
      let st1 := with_context (Some userPrompt)
                   (with_plans (set_status pending <$> ps) st) in
      ({| success := true; data := Some (PlanningData (plans st1));
          res_error := None; confidence := 90 |}, st1)
  | _ => (failure "Failed to create execution plan", st)
  end.

(** ** integrateResults *)

Definition getResultByType (st : OrchestratorState) (ty : PlanType) : option ReWOOPlan :=
  snd <$> list_find (λ p, type p = ty ∧ status p = completed) (plans st).

(** Without a context ([{}]) the project name cannot be derived from the
    prompt, and the method throws. *)
Definition integrateResults (st : OrchestratorState)
    : Result string (AgentResult Payload) * OrchestratorState :=
  match context st with
  | None => (Err "TypeError", st)
  | Some userPrompt =>
      let integratedResult :=
        {| description := userPrompt;
           a_design := getResultByType st design ≫= result;
           a_code := getResultByType st code ≫= result;
           a_tests := getResultByType st test ≫= result;
           agentsUsed := agentId <$> plans st;
           totalPlans := length (plans st);
           successfulPlans := length (filter (λ p, status p = completed) (plans st)) |} in
      (Ok {| success := true; data := Some (IntegrationData integratedResult);
             res_error := None; confidence := 90 |},
       with_phase completion (with_finalResult (Some integratedResult) st))
  end.

(** ** buildApplication, continueExecution, processMessage *)

Definition buildApplication (depth : nat) (userPrompt : string)
    (planningResponse : PlanningResponse) (respond : Agents) (st : OrchestratorState)
    : Result string (AgentResult Payload) * OrchestratorState :=
  let st0 := with_phase planning st in
  let '(planningResult, st1) := createExecutionPlan userPrompt planningResponse st0 in
  if negb (success planningResult) then (Ok planningResult, st1)
  else
    let st2 := with_phase execution st1 in
    match executeReWOOPlan depth respond st2 with
    | (Err e, st3) => (Err e, st3)
    | (Ok executionResult, st3) =>
        if negb (success executionResult) then (Ok executionResult, st3)
        else integrateResults (with_phase integration st3)
    end.

Definition continueExecution (depth : nat) (respond : Agents) (st : OrchestratorState)
    : Result string (AgentResult Payload) * OrchestratorState :=
  match currentPhase st with
  | execution => executeReWOOPlan depth respond st
  | integration => integrateResults st
  | _ => (Ok (failure "No continuation available for current phase"), st)
  end.

Inductive Action : Type :=
  | build_app (userPrompt : string) (planningResponse : PlanningResponse)
  | continue_execution
  | unknown (name : string).

(** [processMessage]: every exception becomes an unsuccessful result. *)
Definition processMessage (depth : nat) (act : Action) (respond : Agents)
    (st : OrchestratorState) : AgentResult Payload * OrchestratorState :=
  let '(r, st') :=
    match act with
    | build_app userPrompt planningResponse =>
        buildApplication depth userPrompt planningResponse respond st
    | continue_execution => continueExecution depth respond st
    | unknown name => (Err ("Unknown action: " +:+ name), st)
    end in
  match r with
  | Ok res => (res, st')
  | Err e => (failure e, st')
  end.

End Orchestrator.


(* ================================================================== *)
(** * The multi-agent service and its route *)
(* ================================================================== *)

(** [services/multiAgentService.ts]: one orchestrator per session. *)
Module MultiAgentService.
Import Orchestrator.

(** [MultiAgentSession.status]. *)
Inductive Status : Type :=
  | Initializing | Planning | Executing | Integrating | Completed | Failed.

Global Instance Status_eq_dec : EqDecision Status.
Proof. solve_decision. Defined.

(** [progress.currentPhase], a string: ['initialization'], or the name of a
    phase of the orchestrator. *)
Inductive ProgressPhase : Type :=
  | initialization
  | phase (p : Phase).

Record Progress : Type := {
  currentPhase : ProgressPhase;
  completedPlans : nat;
  totalPlans : nat;
  currentAgent : option string
}.

(** [interface MultiAgentSession]. The [context] is left out: the service only
    hands it on to the orchestrator, where it feeds the prompts of the planner
    and of the agents, whose answers are given. The [messageHistory] of the
    stored orchestrator is the bus as that orchestrator last left it. *)
Record MultiAgentSession : Type := {
  sessionId : string;
  orchestrator : OrchestratorState;
  status : Status;
  startTime : Z;
  lastActivity : Z;
  progress : Progress
}.

Definition set_status (v : Status) (s : MultiAgentSession) : MultiAgentSession :=
  {| sessionId := sessionId s; orchestrator := orchestrator s; status := v;
     startTime := startTime s; lastActivity := lastActivity s; progress := progress s |}.
Definition set_lastActivity (v : Z) (s : MultiAgentSession) : MultiAgentSession :=
  {| sessionId := sessionId s; orchestrator := orchestrator s; status := status s;
     startTime := startTime s; lastActivity := v; progress := progress s |}.
Definition set_progress (v : Progress) (s : MultiAgentSession) : MultiAgentSession :=
  {| sessionId := sessionId s; orchestrator := orchestrator s; status := status s;
     startTime := startTime s; lastActivity := lastActivity s; progress := v |}.
Definition set_orchestrator (v : OrchestratorState) (s : MultiAgentSession)
    : MultiAgentSession :=
  {| sessionId := sessionId s; orchestrator := v; status := status s;
     startTime := startTime s; lastActivity := lastActivity s; progress := progress s |}.

Definition set_currentPhase (v : ProgressPhase) (p : Progress) : Progress :=
  {| currentPhase := v; completedPlans := completedPlans p;
     totalPlans := totalPlans p; currentAgent := currentAgent p |}.
Definition set_totalPlans (v : nat) (p : Progress) : Progress :=
  {| currentPhase := currentPhase p; completedPlans := completedPlans p;
     totalPlans := v; currentAgent := currentAgent p |}.

(** [class MultiAgentService], together with the message history of the one
    [agentBus] all orchestrators talk through. *)
Record Service : Type := {
  sessions : gmap string MultiAgentSession;
  bus : list BusEntry
}.

Definition initial : Service := {| sessions := ∅; bus := [] |}.

(** What the service answers (the [sessionId] it echoes and the [nextSteps] it
    passes on are left out). *)
Record Reply : Type := {
  r_success : bool;
  r_error : option string;
  r_data : option Payload;
  r_status : Status;
  r_progress : option Progress;
  flutterProjectGenerated : bool
}.

Definition failed_reply (e : option string) : Reply :=
  {| r_success := false; r_error := e; r_data := None; r_status := Failed;
     r_progress := None; flutterProjectGenerated := false |}.

(** What the outside world answers during one call of the service. *)
Record CallEnv : Type := {
  now : Z;                               (* new Date() *)
  planner : PlanningResponse;            (* callGemini for the planning prompt,
                                            or the exception it ends in *)
  agents : Agents;                       (* the specialised agents *)
  stack : nat;                           (* the call-stack depth available *)
  projectFiles : Result string unit      (* generateFlutterProject settles or throws *)
}.

(** [createSession]: a new orchestrator, in a new record that replaces the one
    the id may have had. (The copy of the context that goes to the bus is left
    out with the context.) *)
Definition createSession (id : string) (userPrompt : string) (env : CallEnv)
    (svc : Service) : MultiAgentSession * Service :=
  let session :=
    {| sessionId := id; orchestrator := fresh; status := Initializing;
       startTime := now env; lastActivity := now env;
       progress := {| currentPhase := initialization; completedPlans := 0;
                      totalPlans := 0; currentAgent := None |} |} in
  (session, {| sessions := <[id := session]> (sessions svc); bus := bus svc |}).

Definition getSession (id : string) (svc : Service) : option MultiAgentSession :=
  sessions svc !! id.

(** [session.orchestrator.processMessage(message)]: the orchestrator of the
    session runs on the shared bus. *)
Definition callOrchestrator (act : Action) (env : CallEnv) (session : MultiAgentSession)
    (svc : Service) : AgentResult Payload * MultiAgentSession * Service :=
  let '(result, st') :=
    processMessage (stack env) act (agents env)
      (with_history (bus svc) (orchestrator session)) in
  (result, set_orchestrator st' session,
   {| sessions := sessions svc; bus := messageHistory st' |}).

(** [plans.find(p => p.status === 'in_progress')?.agentId || null]. *)
Definition agentInProgress (ps : list ReWOOPlan) : option string :=
  match list_find (λ p, Orchestrator.status p = in_progress) ps with
  | Some (_, p) => if decide (agentId p = "") then None else Some (agentId p)
  | None => None
  end.

(** [continueExecution]; [Err] is the exception for an unknown session. *)
Definition continueExecution (id : string) (env : CallEnv) (svc : Service)
    : Result string Reply * Service :=
  match sessions svc !! id with
  | None => (Err ("Session " +:+ id +:+ " not found"), svc)
  | Some session =>
      let session1 := set_lastActivity (now env) session in
      let '(result, session2, svc2) := callOrchestrator continue_execution env session1 svc in
      let store s := {| sessions := <[id := s]> (sessions svc2); bus := bus svc2 |} in
      match success result, data result with
      | true, Some d =>
          let st := orchestrator session2 in
          let progress' :=
            {| currentPhase := phase (Orchestrator.currentPhase st);
               completedPlans :=
                 length (filter (λ p, Orchestrator.status p = completed) (plans st));
               totalPlans := length (plans st);
               currentAgent := agentInProgress (plans st) |} in
          let session3 := set_progress progress' session2 in
          match decide (Orchestrator.currentPhase st = completion), finalResult st with
          | left _, Some artifact =>
              match projectFiles env with
              | Ok _ =>
                  (Ok {| r_success := true; r_error := None;
                         r_data := Some (IntegrationData artifact);
                         r_status := Completed; r_progress := Some progress';
                         flutterProjectGenerated := true |},
                   store (set_status Completed session3))
              | Err e =>
                  (Ok (failed_reply (Some e)), store (set_status Failed session3))
              end
          | _, _ =>
              (Ok {| r_success := true; r_error := None; r_data := Some d;
                     r_status := Executing; r_progress := Some progress';
                     flutterProjectGenerated := false |},
               store (set_status Executing session3))
          end
      | _, _ =>
          (Ok (failed_reply (res_error result)), store (set_status Failed session2))
      end
  end.

(** [processUserPrompt]. The call of [continueExecution] at its end reads the
    clock and the agents again ([env2]); an exception of that call is caught
    and becomes an unsuccessful reply. *)
Definition processUserPrompt (id : string) (userPrompt : string) (env env2 : CallEnv)
    (svc : Service) : Result string Reply * Service :=
  match sessions svc !! id with
  | None => (Err ("Session " +:+ id +:+ " not found"), svc)
  | Some session =>
      let session1 :=
        set_progress (set_currentPhase (phase planning) (progress session))
          (set_lastActivity (now env) (set_status Planning session)) in
      let '(result, session2, svc2) :=
        callOrchestrator (build_app userPrompt (planner env)) env session1 svc in
      let store s := {| sessions := <[id := s]> (sessions svc2); bus := bus svc2 |} in
      if success result then
        let progress3 :=
          match data result with
          | Some (PlanningData ps) =>
              set_totalPlans (length ps)
                (set_currentPhase (phase execution) (progress session2))
          | _ => set_currentPhase (phase execution) (progress session2)
          end in
        match continueExecution id env2
                (store (set_progress progress3 (set_status Executing session2))) with
        | (Ok reply, svc3) => (Ok reply, svc3)
        | (Err e, svc3) =>
            (Ok (failed_reply (Some e)),
             {| sessions := alter (set_status Failed) id (sessions svc3); bus := bus svc3 |})
        end
      else
        (Ok (failed_reply (res_error result)), store (set_status Failed session2))
  end.

(** [cleanupSession]: the orchestrator is reset and the record removed. *)
Definition cleanupSession (id : string) (svc : Service) : Service :=
  {| sessions := delete id (sessions svc); bus := bus svc |}.

(** [getActiveSessions], [getSessionStats]. The values of the map are taken in
    the order of [map_to_list]. *)
Definition active (s : MultiAgentSession) : Prop :=
  status s ≠ Completed ∧ status s ≠ Failed.

Definition getActiveSessions (svc : Service) : list MultiAgentSession :=
  filter active (map_to_list (sessions svc)).*2.

Record Stats : Type := {
  total : nat;
  n_active : nat;
  n_completed : nat;
  n_failed : nat;
  byStatus : Status → nat
}.

Definition getSessionStats (svc : Service) : Stats :=
  let sessions := (map_to_list (sessions svc)).*2 in
  {| total := length sessions;
     n_active := length (filter active sessions);
     n_completed := length (filter (λ s, status s = Completed) sessions);
     n_failed := length (filter (λ s, status s = Failed) sessions);
     byStatus := λ v, length (filter (λ s, status s = v) sessions) |}.

(** ** Sequences of calls *)

Inductive Call : Type :=
  | CreateSession (id userPrompt : string) (env : CallEnv)
  | ProcessUserPrompt (id userPrompt : string) (env env2 : CallEnv)
  | ContinueExecution (id : string) (env : CallEnv)
  | CleanupSession (id : string).

Definition step (svc : Service) (c : Call) : Service :=
  match c with
  | CreateSession id userPrompt env => (createSession id userPrompt env svc).2
  | ProcessUserPrompt id userPrompt env env2 => (processUserPrompt id userPrompt env env2 svc).2
  | ContinueExecution id env => (continueExecution id env svc).2
  | CleanupSession id => cleanupSession id svc
  end.

Definition run (calls : list Call) (svc : Service) : Service := foldl step svc calls.

End MultiAgentService.

(** [router.post('/:sessionId/code', ...)] of the sessions router, in the
    version that forwards to the multi-agent service. *)
Module MultiAgentRoutes.
Import MultiAgentService.

Inductive Response : Type :=
  | BadRequest                                    (* 400 'Invalid request data' *)
  | NotFound (sessionId : string)                 (* 404 'Session not found' *)
  | Processed (reply : Reply) (previewUrl : string)
                                                  (* 200 'Multi-agent processing completed' *)
  | Rejected (reply : Reply)                      (* 400 { success: false, error, status } *)
  | ServerError (message : string).               (* 500 'Failed to process multi-agent request' *)

(** [now] is the clock as [sessionManager.getSession] reads it; [env0] is read
    by [createSession], [env] and [env2] by [processUserPrompt]. *)
Definition postCode (sessionId prompt : string) (now : Z) (env0 env env2 : CallEnv)
    (mgr : SessionManager.Manager) (svc : Service)
    : Response * SessionManager.Manager * Service :=
  if negb (SessionRoutes.validPrompt prompt) then (BadRequest, mgr, svc)
  else
    match SessionManager.getSession sessionId now mgr with
    | (None, mgr1) => (NotFound sessionId, mgr1, svc)
    | (Some session, mgr1) =>
        let svc1 :=
          match getSession sessionId svc with
          | Some _ => svc
          | None => (createSession sessionId prompt env0 svc).2
          end in
        match processUserPrompt sessionId prompt env env2 svc1 with
        | (Ok reply, svc2) =>
            if r_success reply
            then (Processed reply (SessionManager.previewUrl session), mgr1, svc2)
            else (Rejected reply, mgr1, svc2)
        | (Err e, svc2) => (ServerError e, mgr1, svc2)
        end
    end.

End MultiAgentRoutes.

(* ================================================================== *)
(** * The vocabulary of the properties *)
(* ================================================================== *)

Module SessionManagerProps.
Import SessionManager.




(** [p] is the lowest port of the range that [st] does not hold. *)
Definition lowest_free (st : Manager) (p : Z) : Prop :=
  (basePort ≤ p < basePort + 1000)%Z ∧ (p ∉ usedPorts st) ∧
  (∀ q, (basePort ≤ q < p)%Z → q ∈ usedPorts st).

(** [st'] has the sessions of [st] on the same ports, and the same used ports. *)
Definition same_ports (st st' : Manager) : Prop :=
  usedPorts st' = usedPorts st ∧
  ∀ sessionId, port <$> sessions st' !! sessionId = port <$> sessions st !! sessionId.

(** The child emits neither the readiness marker for [p] nor an ['error'] event. *)
Definition quiet (p : Z) (ev : ProcEvent) : bool :=
  match ev with
  | Stdout output => negb (includes output (readyMarker p))
  | ProcError _ => false
  | _ => true
  end.

(** What [awaitServer] leaves alone, for the session [sessionId] whose child
    is [h]. *)
Definition server_frame (sessionId : string) (h : nat) (st st' : Manager) : Prop :=
  usedPorts st' = usedPorts st ∧ timers st' = timers st ∧ files st' = files st ∧
  (∀ k, k ≠ sessionId → sessions st' !! k = sessions st !! k) ∧
  (∀ s, sessions st !! sessionId = Some s →
     ∃ s', sessions st' !! sessionId = Some s' ∧
           flutterProcess s' = flutterProcess s ∧ port s' = port s ∧
           projectPath s' = projectPath s) ∧
  (∀ c, procs st !! h = Some c →
     ∃ c', procs st' !! h = Some c' ∧ killed c' = killed c ∧ signals c' = signals c ∧
           (running c' = running c ∨ running c' = false)).

(** The loop of the cleanup callback over any list of entries. *)
Definition sweep (now : Z) (rm : string → bool) (l : list (string * FlutterSession))
    (st : Manager) : Manager :=
  foldl (λ st entry,
           if idle now entry.2 then terminateSession entry.1 (rm entry.1) st else st)
        st l.

(** [p'] is [p] later on: the same signals and flag, and not running again. *)
Definition ages (p p' : ChildProcess) : Prop :=
  signals p' = signals p ∧ killed p' = killed p ∧ (running p' = true → running p = true).

(** Every reference of a session of [st'] to a child is one that session had in [st]. *)
Definition refs_from (st st' : Manager) : Prop :=
  ∀ sessionId s' h, sessions st' !! sessionId = Some s' → flutterProcess s' = Some h →
    ∃ s, sessions st !! sessionId = Some s ∧ flutterProcess s = Some h.

(** A step that spawns nothing, signals nothing and sets no timer. *)
Definition calm (st st' : Manager) : Prop :=
  refs_from st st' ∧ Forall2 ages (procs st) (procs st') ∧ timers st' = timers st.

(** The children and the timers fit together: every reference and every timer
    points to a child, a child with a timer pending is either gone or flagged
    as killed, and no child has been sent SIGKILL. *)
Definition sound (st : Manager) : Prop :=
  (∀ sessionId s h, sessions st !! sessionId = Some s → flutterProcess s = Some h →
     h < length (procs st)) ∧
  (∀ t, t ∈ timers st → target t < length (procs st)) ∧
  (∀ t p, t ∈ timers st → procs st !! target t = Some p →
     running p = true → killed p = true) ∧
  (∀ h p, procs st !! h = Some p → SIGKILL ∉ signals p).

(** Every port marked as used is the port of a live session. *)
Definition ports_owned (st : Manager) : Prop :=
  ∀ p, p ∈ usedPorts st →
       ∃ sessionId s, sessions st !! sessionId = Some s ∧ port s = p.

(** Every live session sits on one of the first [maxSessions] ports. *)
Definition ports_low (st : Manager) : Prop :=
  ∀ sessionId s, sessions st !! sessionId = Some s →
                 (basePort ≤ port s < basePort + Z.of_nat maxSessions)%Z.

(** No [createSession] of the sequence draws the id of a session that is live
    when it starts. *)
Fixpoint fresh_ids (ops : list Op) (st : Manager) : Prop :=
  match ops with
  | [] => True
  | op :: ops' =>
      match op with
      | CreateSession _ _ env => sessions st !! uuid env = None
      | _ => True
      end ∧ fresh_ids ops' (step st op)
  end.

(** What the port bookkeeping keeps whenever ids are fresh. *)
Definition tidy (st : Manager) : Prop :=
  size (sessions st) ≤ maxSessions ∧ ports_owned st ∧ ports_low st.

(** [env] with another answer of the AI service and of `flutter pub get`. *)
Definition with_ai (ai : Result string CodeGenerationResponse) (pg : bool)
    (env : CreateEnv) : CreateEnv :=
  {| uuid := uuid env; now := now env; flutterCreate := flutterCreate env;
     initialCode := ai; pubGet := pg; spawned := spawned env;
     events := events env; removeOk := removeOk env |}.

(** The two states differ in the files of the workspaces at most. *)
Definition same_but_files (st st' : Manager) : Prop :=
  sessions st' = sessions st ∧ usedPorts st' = usedPorts st ∧
  procs st' = procs st ∧ timers st' = timers st.

(** A child that has been sent SIGTERM, if it was there to receive it. *)
Definition stopped (c : ChildProcess) : Prop :=
  running c = true → killed c = true ∧ SIGTERM ∈ signals c.

(** The child does not exit while the server is awaited. *)
Definition lingers (ev : ProcEvent) : bool :=
  match ev with
  | Exit _ => false
  | _ => true
  end.

End SessionManagerProps.

Module OrchestratorProps.
Import Orchestrator.

(** Task [a] depends on task [b]: the plan the id [a] denotes lists [b]. *)
Definition depends_on (plans : list ReWOOPlan) (a b : string) : Prop :=
  ∃ i p, findPlan plans a = Some i ∧ plans !! i = Some p ∧ b ∈ dependencies p.

Definition has_cycle (plans : list ReWOOPlan) : Prop :=
  ∃ a, tc (depends_on plans) a a.

(** A set of ids each of which denotes a plan that depends on a member of
    the set. *)
Definition closed_under_dependencies (plans : list ReWOOPlan) (C : string → Prop) : Prop :=
  ∀ c, C c → ∃ d, depends_on plans c d ∧ C d.

(** No id of [C] has been marked as processed. *)
Definition untouched (C : string → Prop) (acc : SortState) : Prop :=
  ∀ c, C c → c ∉ processed acc.

(** The plan at index [i], if its id is in [C], is the one that id denotes. *)
Definition denoted (plans : list ReWOOPlan) (C : string → Prop) (i : nat) : Prop :=
  ∀ p, plans !! i = Some p → C (id p) → findPlan plans (id p) = Some i.

(** If [addPlan] came back from the plan at [i], that plan is not in [C], and
    [C] is still untouched. *)
Definition returns_outside (plans : list ReWOOPlan) (C : string → Prop) (i : nat)
    (r : option SortState) : Prop :=
  match r with
  | None => True
  | Some acc' => untouched C acc' ∧ ∀ p, plans !! i = Some p → ¬ C (id p)
  end.

(** [rank] orders the plans so that every dependency that denotes a plan has a
    smaller rank than the plan that lists it. *)
Definition ranked (plans : list ReWOOPlan) (rank : string → nat) : Prop :=
  ∀ p d q, p ∈ plans → d ∈ dependencies p → q ∈ plans → id q = d →
           rank d < rank (id p).

(** The ids of the plans for which a request went over the bus, oldest first. *)
Definition requests (h : list BusEntry) : list string :=
  omap (λ e, match e with Request m => Some (m_id m) | _ => None end) h.

(** The ids of the plans the references [order] point to. *)
Definition ids_of (plans : list ReWOOPlan) (order : list nat) : list string :=
  omap (λ j, id <$> plans !! j) order.

(** The references of [order] respect the dependencies: every dependency of a
    plan that denotes a plan has its id among the plans placed before it. *)
Definition dependencies_first (plans : list ReWOOPlan) (order : list nat) : Prop :=
  ∀ k i p d, order !! k = Some i → plans !! i = Some p → d ∈ dependencies p →
             is_Some (findPlan plans d) → d ∈ ids_of plans (take k order).

(** Every reference of [order] points to the plan its id denotes: the first
    plan of the list that carries the id. *)
Definition refers_to_denoted (plans : list ReWOOPlan) (order : list nat) : Prop :=
  ∀ i, i ∈ order → ∃ p, plans !! i = Some p ∧ findPlan plans (id p) = Some i.

(** What [sorted] and [processed] keep while [addPlan] runs on plans without
    a cycle. *)
Definition well_sorted (plans : list ReWOOPlan) (acc : SortState) : Prop :=
  (∀ c, c ∈ processed acc ↔ c ∈ ids_of plans (sorted acc)) ∧
  NoDup (ids_of plans (sorted acc)) ∧
  refers_to_denoted plans (sorted acc) ∧
  dependencies_first plans (sorted acc).

(** From [acc] to [acc'] the processed ids have grown, by ids of rank [r] at most. *)
Definition grown (rank : string → nat) (r : nat) (acc acc' : SortState) : Prop :=
  (∀ c, c ∈ processed acc → c ∈ processed acc') ∧
  (∀ c, c ∈ processed acc' → c ∈ processed acc ∨ rank c ≤ r).

(** The list is already in dependency order: every dependency that denotes a
    plan denotes one that stands earlier in the list. *)
Definition in_dependency_order (plans : list ReWOOPlan) : Prop :=
  ∀ i p d j, plans !! i = Some p → d ∈ dependencies p → findPlan plans d = Some j → j < i.

(** The state of the ordering after the first [k] plans were placed in the
    order of the list. *)
Definition placed (plans : list ReWOOPlan) (k : nat) : SortState :=
  {| sorted := seq 0 k; processed := list_to_set (id <$> take k plans) |}.

End OrchestratorProps.

Module MultiAgentServiceProps.
Import Orchestrator MultiAgentService.

(** No session is ['completed'], and no orchestrator rests in the phase
    ['integration']. *)
Definition unfinished (svc : Service) : Prop :=
  ∀ id s, sessions svc !! id = Some s →
          status s ≠ Completed ∧ Orchestrator.currentPhase (orchestrator s) ≠ integration.

End MultiAgentServiceProps.

(* ================================================================== *)
(** * Scenarios *)
(* ================================================================== *)

(** Concrete managers, children, plans and agents, on which the properties
    below are also run. *)
Module Scenarios.

Import SessionManager.

(** The files `flutter create` leaves in the workspace of [sessionId]. *)
Definition scaffold (sessionId : string) : gmap string string :=
  {[ path_join [projectsDir; sessionId; "lib"; "main.dart"] := "void main() {}";
     path_join [projectsDir; sessionId; "pubspec.yaml"] := "dependencies:" ]}.

(** A child that reports that it serves on port [p]. *)
Definition serving (sessionId : string) (t p : Z) : CreateEnv :=
  {| uuid := sessionId; now := t; flutterCreate := Ok (scaffold sessionId);
     initialCode := Err "no prompt"; pubGet := true; spawned := true;
     events := [ Stderr "Waiting for connection from debug service";
                 Stdout ("lib/main.dart is being served at http://localhost:" +:+ pretty p) ];
     removeOk := true |}.

(** A child that starts but never prints the readiness marker. *)
Definition mute (sessionId : string) (t : Z) : CreateEnv :=
  {| uuid := sessionId; now := t; flutterCreate := Ok (scaffold sessionId);
     initialCode := Err "no prompt"; pubGet := true; spawned := true;
     events := [ Stdout "Launching lib/main.dart on Web Server in debug mode..." ];
     removeOk := true |}.

(** [n] sessions, named "0", "1", ..., each created in turn. *)
Definition creates (n : nat) : list Op :=
  (λ i, CreateSession None None
          (serving (pretty i) (Z.of_nat i) (8080 + Z.of_nat i))) <$> seq 0 n.

Definition one : Manager := run (creates 1) initial.
Definition two : Manager := run (creates 2) initial.
Definition full : Manager := run (creates 50) initial.

(** One session whose child has exited: its status is ['terminated']. *)
Definition exited : Manager :=
  run [CreateSession None None (serving "s" 0 8080); ChildExit 0] initial.

(** The session "0" of [one] and [two], and its child. *)
Definition session0 : FlutterSession :=
  {| id := "0"; userId := None; projectPath := "temp/sessions/0"; port := 8080;
     flutterProcess := Some 0; createdAt := 0; lastActive := 0; status := ready;
     previewUrl := "http://localhost:8080" |}.

Definition child0 : ChildProcess :=
  {| running := true; killed := false; signals := []; stdin := [] |}.

(** The session "s" of [exited]. *)
Definition sessionS : FlutterSession :=
  {| id := "s"; userId := None; projectPath := "temp/sessions/s"; port := 8080;
     flutterProcess := Some 0; createdAt := 0; lastActive := 0; status := terminated;
     previewUrl := "http://localhost:8080" |}.

Definition rewrite_main : UpdateEnv :=
  {| u_now := 99;
     generated := Ok {| code := "void main() => runApp(App());";
                        gen_dependencies := None; gen_files := None |};
     u_pubGet := true |}.

Import Orchestrator.

Definition task (i : string) (t : PlanType) (a : string) (deps : list string) : ReWOOPlan :=
  {| Orchestrator.id := i; type := t; agentId := a; dependencies := deps;
     Orchestrator.status := pending; result := None; error := None |}.

(** Task A depends on B and B depends on A. *)
Definition twoCycle : list ReWOOPlan :=
  [ task "A" design "design-agent" ["B"]; task "B" code "code-agent" ["A"] ].

(** Design, then code, then tests. *)
Definition threeTasks : list ReWOOPlan :=
  [ task "d" design "design-agent" [];
    task "c" code "code-agent" ["d"];
    task "t" test "testing-agent" ["c"] ].

(** Every agent succeeds, except the code agent. *)
Definition codeFails : Agents :=
  λ _ message,
    if decide (m_agentId message = "code-agent")
    then Ok (failure "no code generated")
    else Ok {| success := true; data := Some "done"; res_error := None; confidence := 80 |}.

(** Three sessions, of which the second is terminated before a fourth is
    created. *)
Definition churn : list Op :=
  creates 3 ++ [TerminateSession "1" true; CreateSession None None (serving "x" 9 8081)].

(** An answer of the AI service that asks for the package http, at a time
    when `flutter pub get` fails. *)
Definition needs_http : UpdateEnv :=
  {| u_now := 99;
     generated := Ok {| SessionManager.code := "import 'package:http/http.dart' as http;";
                        gen_dependencies := Some ["http"]; gen_files := None |};
     u_pubGet := false |}.

(** Every agent succeeds. *)
Definition allSucceed : Agents :=
  λ _ _, Ok {| success := true; data := Some "done"; res_error := None; confidence := 80 |}.

(** Where the run of the three tasks rests after the code agent has failed. *)
Definition stalled : OrchestratorState :=
  (buildApplication 8 "a todo app" (Ok (Some threeTasks)) codeFails fresh).2.

(** A call of the multi-agent service during which the planner answers with
    the three tasks and every agent succeeds. *)
Definition planned : MultiAgentService.CallEnv :=
  {| MultiAgentService.now := 5;
     MultiAgentService.planner := Ok (Some threeTasks);
     MultiAgentService.agents := allSucceed;
     MultiAgentService.stack := 8;
     MultiAgentService.projectFiles := Ok () |}.

(** The multi-agent service with one session, "0". *)
Definition chatting : MultiAgentService.Service :=
  (MultiAgentService.createSession "0" "a todo app" planned MultiAgentService.initial).2.

End Scenarios.

(* ================================================================== *)
(** * Properties of the session manager *)
(* ================================================================== *)

Module SessionManagerSpec.
Import SessionManager SessionManagerProps.

(** ** Invariants *)

Lemma same_ports_refl st : same_ports st st.
Proof. by split. Qed.

Lemma same_ports_trans st1 st2 st3 :
  same_ports st1 st2 → same_ports st2 st3 → same_ports st1 st3.
Proof.
  intros [Hu1 Hs1] [Hu2 Hs2]. split; [congruence|].
  intros sid. by rewrite Hs2, Hs1.
Qed.


(** Updating one session by a function that keeps its port. *)
Lemma same_ports_alter st f sessionId :
  (∀ s, port (f s) = port s) →
  same_ports st (with_sessions (alter f sessionId (sessions st)) st).
Proof.
  intros Hf. split; [done|]. intros sid. simpl.
  rewrite lookup_alter. case_decide; subst; [|done].
  destruct (sessions st !! sid); simpl; [by rewrite Hf | done].
Qed.

Lemma same_ports_insert st s s' sessionId :
  sessions st !! sessionId = Some s → port s' = port s →
  same_ports st (with_sessions (<[sessionId := s']> (sessions st)) st).
Proof.
  intros Hs Hp. split; [done|]. intros sid. simpl.
  destruct (decide (sessionId = sid)) as [->|Hne].
  - rewrite lookup_insert_eq, Hs. simpl. by rewrite Hp.
  - by rewrite lookup_insert_ne.
Qed.

Lemma same_ports_fmap st f :
  (∀ s, port (f s) = port s) →
  same_ports st (with_sessions (f <$> sessions st) st).
Proof.
  intros Hf. split; [done|]. intros sid. simpl.
  rewrite lookup_fmap. destruct (sessions st !! sid); simpl; [by rewrite Hf | done].
Qed.

Lemma same_ports_with_procs st ps : same_ports st (with_procs ps st).
Proof. by split. Qed.
Lemma same_ports_with_timers st ts : same_ports st (with_timers ts st).
Proof. by split. Qed.
Lemma same_ports_with_files st fs : same_ports st (with_files fs st).
Proof. by split. Qed.

Lemma same_ports_kill st h sig : same_ports st (kill h sig st).
Proof. unfold kill. repeat case_match; by split. Qed.

(** ** getNextAvailablePort *)

Lemma scanPorts_Some used p n q :
  scanPorts used p n = Some q →
  (p ≤ q < p + Z.of_nat n)%Z ∧ (q ∉ used) ∧ (∀ r, (p ≤ r < q)%Z → r ∈ used).
Proof.
  revert p. induction n as [|n IH]; intros p; simpl; [done|].
  case_decide as Hin.
  - intros [Hq [Hfree Hlow]]%IH. split; [lia|]. split; [done|].
    intros r Hr. destruct (decide (r = p)) as [->|]; [done|]. apply Hlow. lia.
  - intros [= <-]. split; [lia|]. split; [done|]. intros; lia.
Qed.

Lemma scanPorts_None used p n :
  scanPorts used p n = None → ∀ r, (p ≤ r < p + Z.of_nat n)%Z → r ∈ used.
Proof.
  revert p. induction n as [|n IH]; intros p; simpl; [intros; lia|].
  case_decide as Hin; [|done].
  intros Hn r Hr. destruct (decide (r = p)) as [->|]; [done|]. apply (IH _ Hn). lia.
Qed.

Lemma getNextAvailablePort_Ok st p :
  getNextAvailablePort st = Ok p → lowest_free st p.
Proof.
  unfold getNextAvailablePort. destruct (scanPorts _ _ _) eqn:E; [|done].
  intros [= <-]. apply scanPorts_Some in E. unfold lowest_free. naive_solver.
Qed.

(** ** terminateSession *)

Lemma kill_sessions st h sig : sessions (kill h sig st) = sessions st.
Proof. unfold kill. by repeat case_match. Qed.
Lemma kill_usedPorts st h sig : usedPorts (kill h sig st) = usedPorts st.
Proof. unfold kill. by repeat case_match. Qed.
Lemma kill_files st h sig : files (kill h sig st) = files st.
Proof. unfold kill. by repeat case_match. Qed.
Lemma kill_timers st h sig : timers (kill h sig st) = timers st.
Proof. unfold kill. by repeat case_match. Qed.

Lemma terminateSession_None st sessionId rm :
  sessions st !! sessionId = None → terminateSession sessionId rm st = st.
Proof. unfold terminateSession. by intros ->. Qed.

Lemma terminateSession_Some st sessionId rm s :
  sessions st !! sessionId = Some s →
  sessions (terminateSession sessionId rm st) = delete sessionId (sessions st) ∧
  usedPorts (terminateSession sessionId rm st) = usedPorts st ∖ {[port s]}.
Proof.
  unfold terminateSession. intros ->.
  destruct (flutterProcess s), rm; simpl;
    rewrite ?kill_sessions, ?kill_usedPorts; done.
Qed.


(** ** createSession *)

Lemma register_Ok st userId env session st1 :
  register userId env st = Ok (session, st1) →
  size (sessions st) < maxSessions ∧
  lowest_free st (port session) ∧
  id session = uuid env ∧
  sessions st1 = <[uuid env := session]> (sessions st) ∧
  usedPorts st1 = {[port session]} ∪ usedPorts st ∧
  procs st1 = procs st ∧ timers st1 = timers st ∧ files st1 = files st.
Proof.
  unfold register. case_decide as Hcap; [done|].
  destruct (getNextAvailablePort st) as [p|] eqn:Hp; [|done].
  intros [= <- <-]. simpl. apply getNextAvailablePort_Ok in Hp.
  split; [lia|]. done.
Qed.


Lemma initializeFlutterProject_same_ports session prompt env st r st' :
  initializeFlutterProject session prompt env st = (r, st') → same_ports st st'.
Proof.
  unfold initializeFlutterProject. intros H.
  repeat case_match; simplify_eq; by split.
Qed.

Lemma awaitServer_same_ports sessionId p h evs st r st' :
  awaitServer sessionId p h evs st = (r, st') → same_ports st st'.
Proof.
  revert st. induction evs as [|ev evs IH]; intros st; simpl.
  - intros [= <- <-]. apply same_ports_refl.
  - destruct ev; [case_match| | |]; try (intros [= <- <-]; apply same_ports_refl); eauto.
    intros H%IH. eapply same_ports_trans; [|exact H].
    eapply same_ports_trans; [apply same_ports_with_procs|].
    apply (same_ports_alter (with_procs _ st)). done.
Qed.

Lemma startFlutterServer_same_ports session env st r st' :
  startFlutterServer session env st = (r, st') → same_ports st st'.
Proof.
  unfold startFlutterServer. intros H%awaitServer_same_ports.
  eapply same_ports_trans; [|exact H].
  eapply same_ports_trans; [apply same_ports_with_procs|].
  apply (same_ports_alter (with_procs _ st)). done.
Qed.

Lemma bringUp_same_ports session prompt env st r st' :
  bringUp session prompt env st = (r, st') → same_ports st st'.
Proof.
  unfold bringUp.
  destruct (initializeFlutterProject session prompt env st) as [[u|e] st1] eqn:Hi.
  - intros Hs%startFlutterServer_same_ports.
    apply initializeFlutterProject_same_ports in Hi. by eapply same_ports_trans.
  - intros [= <- <-]. by apply initializeFlutterProject_same_ports in Hi.
Qed.


(** ** The other operations *)

Lemma hotReload_same_ports sessionId st r st' :
  hotReload sessionId st = (r, st') → same_ports st st'.
Proof. unfold hotReload. intros H. repeat case_match; simplify_eq; by split. Qed.

Lemma updateSessionCode_same_ports sessionId prompt env st :
  same_ports st (updateSessionCode sessionId prompt env st).2.
Proof.
  unfold updateSessionCode.
  destruct (sessions st !! sessionId) as [session|] eqn:Hs; [|apply same_ports_refl].
  pose proof (same_ports_insert st session (set_lastActive (u_now env) session)
                sessionId Hs eq_refl) as H1.
  repeat case_match; simpl; try exact H1;
    try (eapply same_ports_trans; [exact H1|]; by split).
  all: match goal with
       | H : hotReload _ _ = _ |- _ => apply hotReload_same_ports in H
       end.
  all: eapply same_ports_trans; [exact H1|];
       (eapply same_ports_trans; [|eassumption]); by split.
Qed.

Lemma getSession_same_ports sessionId now st :
  same_ports st (getSession sessionId now st).2.
Proof.
  unfold getSession. destruct (sessions st !! sessionId) eqn:Hs; simpl.
  - by eapply same_ports_insert.
  - apply same_ports_refl.
Qed.

Lemma onExit_same_ports h st : same_ports st (onExit h st).
Proof.
  unfold onExit. eapply same_ports_trans; [apply same_ports_with_procs|].
  apply (same_ports_fmap (with_procs _ st)). intros s. by case_decide.
Qed.

Lemma fireTimer_same_ports st : same_ports st (fireTimer st).
Proof.
  unfold fireTimer. destruct (timers st) as [|t rest]; [apply same_ports_refl|].
  repeat case_match; try by split.
  eapply same_ports_trans; [apply same_ports_with_timers|]. apply same_ports_kill.
Qed.





(** ** Port exclusivity *)



(** ** Idempotent termination *)


(** ** Capacity *)

(** C5. Capacity bound. With [maxSessions] = 50 sessions live, [createSession]
    is rejected with 'Maximum number of sessions reached' and the manager
    (session records, held ports, and everything else) is unchanged. *)
Theorem capacity_bound st userId prompt env :
  maxSessions ≤ size (sessions st) →
  maxSessions = 50 ∧
  createSession userId prompt env st = (Err MaxSessionsReached, st).
Proof.
  intros Hfull. split; [done|].
  unfold createSession, register. by rewrite decide_True.
Qed.

(** ** Rollback of a failed createSession *)

Lemma server_frame_refl sessionId h st : server_frame sessionId h st st.
Proof. unfold server_frame. split_and!; eauto 10. Qed.

Lemma server_frame_trans sessionId h st1 st2 st3 :
  server_frame sessionId h st1 st2 → server_frame sessionId h st2 st3 →
  server_frame sessionId h st1 st3.
Proof.
  intros (U1 & T1 & F1 & O1 & S1 & P1) (U2 & T2 & F2 & O2 & S2 & P2).
  unfold server_frame. split_and!; try congruence.
  - intros k Hk. rewrite O2, O1; done.
  - intros s Hs. destruct (S1 s Hs) as (s' & Hs' & ? & ? & ?).
    destruct (S2 s' Hs') as (s'' & Hs'' & ? & ? & ?).
    exists s''. split_and!; congruence.
  - intros c Hc. destruct (P1 c Hc) as (c' & Hc' & ? & ? & R1).
    destruct (P2 c' Hc') as (c'' & Hc'' & ? & ? & R2).
    exists c''. split_and!; try congruence.
    destruct R1, R2; [left|right|right|right]; congruence.
Qed.

Lemma awaitServer_frame sessionId p h evs st r st' :
  awaitServer sessionId p h evs st = (r, st') → server_frame sessionId h st st'.
Proof.
  revert st. induction evs as [|ev evs IH]; intros st; simpl.
  - intros [= <- <-]. apply server_frame_refl.
  - destruct ev; [case_match| | |];
      try (intros [= <- <-]; apply server_frame_refl); eauto.
    intros H%IH. eapply server_frame_trans; [|exact H]. clear H IH.
    unfold server_frame; simpl. split_and!; try done.
    + intros k Hk. by rewrite lookup_alter_ne.
    + intros s Hs. exists (set_status terminated s).
      by rewrite lookup_alter, decide_True, Hs.
    + intros c Hc. rewrite Hc.
      eexists. rewrite list_lookup_insert_eq by (by eapply lookup_lt_Some).
      split; [done|]. simpl. eauto.
Qed.

Lemma awaitServer_quiet sessionId p h evs st :
  forallb (quiet p) evs = true →
  (awaitServer sessionId p h evs st).1 = Err (ServerTimeout sessionId).
Proof.
  revert st. induction evs as [|ev evs IH]; intros st; simpl; [done|].
  intros [Hq Hrest]%andb_prop. destruct ev; simpl in Hq; try done; eauto.
  apply negb_true_iff in Hq. rewrite Hq. eauto.
Qed.

Lemma startFlutterServer_frame session env st r st' :
  startFlutterServer session env st = (r, st') →
  usedPorts st' = usedPorts st ∧ timers st' = timers st ∧ files st' = files st ∧
  (∀ k, k ≠ id session → sessions st' !! k = sessions st !! k) ∧
  (∀ s, sessions st !! id session = Some s →
     ∃ s', sessions st' !! id session = Some s' ∧
           flutterProcess s' = Some (length (procs st)) ∧ port s' = port s ∧
           projectPath s' = projectPath s) ∧
  (∃ c, procs st' !! length (procs st) = Some c ∧ killed c = false ∧ signals c = [] ∧
        (running c = spawned env ∨ running c = false)).
Proof.
  unfold startFlutterServer. intros (U & T & F & O & S & P)%awaitServer_frame.
  simpl in *. split_and!; try done.
  - intros k Hk. rewrite O by done. by rewrite lookup_alter_ne.
  - intros s Hs.
    destruct (S (set_flutterProcess (Some (length (procs st))) s))
      as (s' & Hs' & ? & ? & ?); [by rewrite lookup_alter, decide_True, Hs|].
    exists s'. done.
  - destruct (P {| running := spawned env; killed := false; signals := []; stdin := [] |})
      as (c & Hc & ? & ? & ?).
    { rewrite lookup_app_r by done. by rewrite Nat.sub_diag. }
    exists c. done.
Qed.

Lemma initializeFlutterProject_frame session prompt env st r st' :
  initializeFlutterProject session prompt env st = (r, st') →
  sessions st' = sessions st ∧ usedPorts st' = usedPorts st ∧
  procs st' = procs st ∧ timers st' = timers st.
Proof.
  unfold initializeFlutterProject. intros H.
  repeat case_match; simplify_eq; done.
Qed.

Lemma terminateSession_procs st sessionId rm s h :
  sessions st !! sessionId = Some s → flutterProcess s = Some h →
  procs (terminateSession sessionId rm st) = procs (kill h SIGTERM st) ∧
  timers (terminateSession sessionId rm st) = timers st ++ [{| delay := 5000; target := h |}].
Proof.
  unfold terminateSession. intros -> ->. destruct rm; simpl; by rewrite kill_timers.
Qed.

Lemma kill_lookup st h sig c :
  procs st !! h = Some c →
  procs (kill h sig st) !! h =
    Some (if running c
          then {| running := true; killed := true; signals := signals c ++ [sig];
                  stdin := stdin c |}
          else c).
Proof.
  intros Hc. unfold kill. rewrite Hc. destruct (running c) eqn:Hr; [|done].
  simpl. rewrite list_lookup_insert_eq by (by eapply lookup_lt_Some). done.
Qed.

(** ** The allocation of a port *)




(** ** What the rollback does to the child *)

Lemma awaitServer_lingers sessionId p h evs st :
  forallb lingers evs = true → procs (awaitServer sessionId p h evs st).2 = procs st.
Proof.
  revert st. induction evs as [|[output|output|c|message] evs IH]; intros st; simpl; try done.
  - intros H. case_match; [done|by apply IH].
  - apply IH.
Qed.

(** C2, as the code has it. When the child process fails to start during
    [createSession] (an ['error'] event, or no readiness marker before the
    120 second timer, which yields the timeout error), [createSession] fails
    with that error; no record of the session remains, so [getSession] on its
    id finds nothing; the port it had been given is free again and the set of
    held ports is what it was; the other sessions are untouched. The child
    that was spawned is not killed, though: it is sent SIGTERM and nothing
    else. A child that was spawned and has not exited is still running after
    the rollback, flagged as [killed]; the 5 second timer the rollback leaves
    behind finds that flag and sends no SIGKILL, so the child is as it was
    when the timer has fired. *)
Theorem rollback_signals_but_does_not_kill st userId prompt env session st1 st2 :
  register userId env st = Ok (session, st1) →
  initializeFlutterProject session prompt env st1 = (Ok (), st2) →
  (startFlutterServer session env st2).1 ≠ Ok () →
  ∃ e st' c,
    createSession userId prompt env st = (Err e, st') ∧
    (forallb (quiet (port session)) (events env) = true → e = ServerTimeout (uuid env)) ∧
    sessions st' !! uuid env = None ∧
    (∀ t, (getSession (uuid env) t st').1 = None) ∧
    (port session ∉ usedPorts st') ∧
    usedPorts st' = usedPorts st ∧
    (∀ k, k ≠ uuid env → sessions st' !! k = sessions st !! k) ∧
    procs st' !! length (procs st) = Some c ∧
    (running c = false ∨ (running c = true ∧ killed c = true ∧ signals c = [SIGTERM])) ∧
    (spawned env = true → forallb lingers (events env) = true → running c = true) ∧
    timers st' = timers st ++ [{| delay := 5000; target := length (procs st) |}] ∧
    (timers st = [] →
       procs (fireTimer st') !! length (procs st) = Some c ∧ timers (fireTimer st') = []).
Proof.
  intros Hreg Hinit Hfail.
  pose proof (register_Ok _ _ _ _ _ Hreg)
    as (_ & (_ & Hfree & _) & Hid & Es1 & Eu1 & Ep1 & Et1 & _).
  pose proof (initializeFlutterProject_frame _ _ _ _ _ _ Hinit) as (Es2 & Eu2 & Ep2 & Et2).
  destruct (startFlutterServer session env st2) as [[[]|e] st3] eqn:Hstart; [done|].
  pose proof (startFlutterServer_frame _ _ _ _ _ Hstart) as (Eu3 & Et3 & _ & Ho3 & Hs3 & Hc3).
  destruct (Hs3 session) as (s3 & Hs3' & Hproc & Hport & _).
  { by rewrite Es2, Es1, Hid, lookup_insert_eq. }
  assert (spawned env = true → forallb lingers (events env) = true →
          ∀ c, procs st3 !! length (procs st2) = Some c → running c = true) as Halive.
  { intros Hsp Hl c. unfold startFlutterServer in Hstart.
    pose proof (awaitServer_lingers (id session) (port session) (length (procs st2))
                  (events env)
                  (with_sessions
                     (alter (set_flutterProcess (Some (length (procs st2)))) (id session)
                        (sessions (with_procs (procs st2 ++ [{| running := spawned env; killed := false; signals := []; stdin := [] |}]) st2)))
                     (with_procs (procs st2 ++ [{| running := spawned env; killed := false; signals := []; stdin := [] |}]) st2))
                  Hl) as Hp.
    rewrite Hstart in Hp. simpl in Hp. rewrite Hp.
    rewrite lookup_app_r, Nat.sub_diag by done. simpl. intros [= <-]. done. }
  rewrite Ep2, Ep1 in Hproc, Hc3, Halive.
  set (st4 := with_sessions (alter (set_status error) (id session) (sessions st3)) st3).
  assert (sessions st4 !! id session = Some (set_status error s3)) as Hs4.
  { unfold st4. simpl. by rewrite lookup_alter, decide_True, Hs3'. }
  destruct (terminateSession_Some st4 (id session) (removeOk env) _ Hs4) as [Es5 Eu5].
  destruct (terminateSession_procs st4 (id session) (removeOk env) _ _ Hs4 Hproc)
    as [Ep5 Et5].
  assert (sessions (terminateSession (id session) (removeOk env) st4) !! uuid env = None)
    as Hgone by (by rewrite Es5, <- Hid, lookup_delete_eq).
  assert (usedPorts (terminateSession (id session) (removeOk env) st4) = usedPorts st)
    as Hports.
  { rewrite Eu5. simpl. rewrite Eu3, Eu2, Eu1, Hport.
    apply set_eq. intros q. rewrite elem_of_difference, elem_of_union, elem_of_singleton.
    split; [intros [[->|?] ?]; done | intros ?; split; [by right | congruence]]. }
  destruct Hc3 as (c & Hc & Hk & Hsig & _).
  pose proof (kill_lookup st4 _ SIGTERM c Hc) as Hkill. rewrite <- Ep5 in Hkill.
  set (st5 := terminateSession (id session) (removeOk env) st4) in *.
  assert (timers st5 = timers st ++ [{| delay := 5000; target := length (procs st) |}])
    as Htimers.
  { rewrite Et5. unfold st4. simpl. by rewrite Et3, Et2, Et1. }
  eexists e, st5, _. split_and!.
  - unfold createSession, bringUp. by rewrite Hreg, Hinit, Hstart.
  - intros Hq. unfold startFlutterServer in Hstart.
    pose proof (awaitServer_quiet (id session) (port session) (length (procs st2))
                  (events env)
                  (with_sessions
                     (alter (set_flutterProcess (Some (length (procs st2)))) (id session)
                        (sessions (with_procs (procs st2 ++ [{| running := spawned env; killed := false; signals := []; stdin := [] |}]) st2)))
                     (with_procs (procs st2 ++ [{| running := spawned env; killed := false; signals := []; stdin := [] |}]) st2))
                  Hq) as Ht.
    rewrite Hstart in Ht. simpl in Ht. congruence.
  - done.
  - intros t. unfold getSession. by rewrite Hgone.
  - by rewrite Hports.
  - done.
  - intros k Hk'. rewrite <- Hid in Hk'. rewrite Es5, lookup_delete_ne by done.
    unfold st4. simpl. rewrite lookup_alter_ne by done.
    rewrite Ho3 by done. rewrite Es2, Es1. rewrite Hid in Hk'. by rewrite lookup_insert_ne.
  - exact Hkill.
  - destruct (running c) eqn:Hr; [right|left]; simpl; [|done]. by rewrite Hsig.
  - intros Hsp Hl. rewrite (Halive Hsp Hl c Hc). done.
  - done.
  - intros Hnone. rewrite Hnone in Htimers. simpl in Htimers.
    unfold fireTimer. rewrite Htimers. simpl. rewrite Hkill.
    destruct (running c) eqn:Hr; simpl.
    + done.
    + destruct (killed c) eqn:Hkc; [done|].
      unfold kill. simpl. rewrite Hkill, Hr. simpl. by rewrite Hkill.
Qed.

(** ** updateSessionCode *)

Lemma hotReload_sessions sessionId st :
  sessions (hotReload sessionId st).2 = sessions st.
Proof. unfold hotReload. by repeat case_match. Qed.

Lemma updateSessionCode_sessions st sessionId prompt env s :
  sessions st !! sessionId = Some s →
  sessions (updateSessionCode sessionId prompt env st).2
  = <[sessionId := set_lastActive (u_now env) s]> (sessions st).
Proof.
  unfold updateSessionCode. intros ->.
  repeat case_match; simpl; try done.
  all: match goal with
       | H : hotReload ?i ?x = _ |- _ =>
           pose proof (hotReload_sessions i x) as E; rewrite H in E; simpl in E;
           by rewrite E
       end.
Qed.

(** C8, as the code has it. [updateSessionCode] rejects an unknown id with
    'Session ... not found' and without any effect. For a known session it makes
    no readiness check: whatever the status, the session's [lastActive] becomes
    the time of the request, and the call goes on to the files and the AI
    service. The readiness check is the route's: it answers 'Session not found'
    without any effect, and 'Session not ready' for a session that is not
    ['ready'], in which case nothing but that session's [lastActive] has
    changed: the route looks the session up with [getSession]. *)
Theorem updateSessionCode_rejects_unknown_only st sessionId prompt env :
  (sessions st !! sessionId = None →
     updateSessionCode sessionId prompt env st = (Err (SessionNotFound sessionId), st) ∧
     ∀ t, SessionRoutes.validPrompt prompt = true →
          SessionRoutes.postCode sessionId prompt t env st
          = (SessionRoutes.NotFound sessionId, st)) ∧
  (∀ s, sessions st !! sessionId = Some s →
     (updateSessionCode sessionId prompt env st).1 ≠ Err (SessionNotFound sessionId) ∧
     sessions (updateSessionCode sessionId prompt env st).2 !! sessionId
     = Some (set_lastActive (u_now env) s) ∧
     ∀ t, SessionRoutes.validPrompt prompt = true → status s ≠ ready →
          SessionRoutes.postCode sessionId prompt t env st
          = (SessionRoutes.NotReady (status s),
             with_sessions (<[sessionId := set_lastActive t s]> (sessions st)) st)).
Proof.
  split.
  - intros Hs. split.
    + unfold updateSessionCode. by rewrite Hs.
    + intros t Hv. unfold SessionRoutes.postCode, getSession. by rewrite Hv, Hs.
  - intros s Hs. split_and!.
    + unfold updateSessionCode. rewrite Hs.
      unfold updateDependencies, updatePubspec, hotReload. simpl.
      rewrite lookup_insert_eq.
      repeat case_match; simplify_eq; simpl; done.
    + rewrite (updateSessionCode_sessions _ _ _ _ _ Hs). apply lookup_insert_eq.
    + intros t Hv Hnot. unfold SessionRoutes.postCode, getSession.
      rewrite Hv, Hs. simpl. by rewrite decide_True.
Qed.

(** ** getSession and the cleanup timer *)

Lemma terminateSession_lookup_ne st sessionId rm k :
  k ≠ sessionId →
  sessions (terminateSession sessionId rm st) !! k = sessions st !! k.
Proof.
  intros Hne. destruct (sessions st !! sessionId) as [t|] eqn:Ht.
  - destruct (terminateSession_Some st sessionId rm t Ht) as [-> _].
    by rewrite lookup_delete_ne.
  - by rewrite terminateSession_None.
Qed.

Lemma terminateSession_lookup_None st sessionId rm k :
  sessions st !! k = None → sessions (terminateSession sessionId rm st) !! k = None.
Proof.
  intros Hk. destruct (decide (k = sessionId)) as [->|Hne].
  - by rewrite terminateSession_None.
  - by rewrite terminateSession_lookup_ne.
Qed.

Lemma terminateSession_lookup_eq st sessionId rm :
  sessions (terminateSession sessionId rm st) !! sessionId = None.
Proof.
  destruct (sessions st !! sessionId) as [s|] eqn:Hs.
  - destruct (terminateSession_Some st sessionId rm s Hs) as [-> _].
    apply lookup_delete_eq.
  - by rewrite terminateSession_None.
Qed.

Lemma sweep_keeps now rm l st sessionId s :
  sessions st !! sessionId = Some s → idle now s = false →
  (∀ v, (sessionId, v) ∈ l → v = s) →
  sessions (sweep now rm l st) !! sessionId = Some s.
Proof.
  revert st. induction l as [|[k v] l IH]; intros st Hs Hidle Hl; simpl; [done|].
  apply IH; [|done|].
  - destruct (idle now v) eqn:Hv; [|done].
    rewrite terminateSession_lookup_ne; [done|].
    intros ->. rewrite (Hl v) in Hv by (by left). congruence.
  - intros w Hw. apply Hl. by right.
Qed.

Lemma sweep_reclaims now rm l st sessionId :
  (∀ v, (sessionId, v) ∈ l → idle now v = true) →
  sessions st !! sessionId = None ∨ (∃ v, (sessionId, v) ∈ l) →
  sessions (sweep now rm l st) !! sessionId = None.
Proof.
  revert st. induction l as [|[k v] l IH]; intros st Hidle Hcase; simpl.
  - destruct Hcase as [|[v Hv]]; [done|]. by apply elem_of_nil in Hv.
  - apply IH; [intros w Hw; apply Hidle; by right|].
    destruct Hcase as [Hnone|[w Hw]].
    + left. case_match; [by apply terminateSession_lookup_None | done].
    + apply elem_of_cons in Hw as [[= <- <-]|Hw]; [|right; eauto].
      left. rewrite (Hidle w) by (by left). apply terminateSession_lookup_eq.
Qed.

(** C10. [getSession] is not a pure read: on an existing id it sets the
    session's [lastActive] to the current time. A cleanup pass that runs no
    more than an hour after the read therefore keeps the session, whereas the
    same session, not read and with its last activity more than an hour back,
    is reclaimed by that pass. *)
Theorem getSession_touches st sessionId s t :
  sessions st !! sessionId = Some s →
  getSession sessionId t st
  = (Some (set_lastActive t s),
     with_sessions (<[sessionId := set_lastActive t s]> (sessions st)) st) ∧
  (∀ t' rm, (t' - t ≤ inactiveThreshold)%Z →
     sessions (cleanup t' rm (getSession sessionId t st).2) !! sessionId
     = Some (set_lastActive t s)) ∧
  (∀ t' rm, (t' - lastActive s > inactiveThreshold)%Z →
     sessions (cleanup t' rm st) !! sessionId = None).
Proof.
  intros Hs.
  assert (getSession sessionId t st
          = (Some (set_lastActive t s),
             with_sessions (<[sessionId := set_lastActive t s]> (sessions st)) st)) as Hget.
  { unfold getSession. by rewrite Hs. }
  split_and!; [done | |].
  - intros t' rm Ht'. rewrite Hget. simpl.
    apply (sweep_keeps t' rm).
    + simpl. apply lookup_insert_eq.
    + unfold idle. simpl. apply bool_decide_eq_false. lia.
    + intros v Hv%elem_of_map_to_list. simpl in Hv.
      rewrite lookup_insert_eq in Hv. congruence.
  - intros t' rm Ht'. apply (sweep_reclaims t' rm).
    + intros v Hv%elem_of_map_to_list. rewrite Hs in Hv. simplify_eq.
      unfold idle. by apply bool_decide_eq_true.
    + right. exists s. by apply elem_of_map_to_list.
Qed.

(** ** The grace period of terminateSession *)

(** C7, what the code does. A session's child is running and has no timer
    pending. [terminateSession] sends it SIGTERM, which sets the child's
    [killed] flag, and schedules the 5000 ms callback. When the child ignores
    SIGTERM and the callback runs, its guard [!killed] is false: the child
    is still running and SIGKILL has not been sent. *)
Theorem force_kill_is_never_sent st sessionId rm s h c :
  sessions st !! sessionId = Some s → flutterProcess s = Some h →
  procs st !! h = Some c → running c = true → timers st = [] →
  timers (terminateSession sessionId rm st) = [{| delay := 5000; target := h |}] ∧
  procs (terminateSession sessionId rm st) !! h
  = Some {| running := true; killed := true; signals := signals c ++ [SIGTERM];
            stdin := stdin c |} ∧
  procs (fireTimer (terminateSession sessionId rm st)) !! h
  = Some {| running := true; killed := true; signals := signals c ++ [SIGTERM];
            stdin := stdin c |} ∧
  timers (fireTimer (terminateSession sessionId rm st)) = [].
Proof.
  intros Hs Hh Hc Hrun Ht.
  destruct (terminateSession_procs st sessionId rm s h Hs Hh) as [Ep Et].
  rewrite Ht in Et. simpl in Et.
  pose proof (kill_lookup st h SIGTERM c Hc) as Hk. rewrite Hrun in Hk.
  rewrite <- Ep in Hk.
  split_and!; [done | done | |].
  - unfold fireTimer. rewrite Et. simpl. by rewrite Hk.
  - unfold fireTimer. rewrite Et. simpl. by rewrite Hk.
Qed.

(** ** Children, timers and signals over every run *)

Lemma ages_refl p : ages p p.
Proof. by split_and!. Qed.

Lemma ages_trans p1 p2 p3 : ages p1 p2 → ages p2 p3 → ages p1 p3.
Proof. intros (? & ? & ?) (? & ? & ?). split_and!; [congruence | congruence | auto]. Qed.

Lemma procs_age_refl (ps : list ChildProcess) : Forall2 ages ps ps.
Proof. apply Forall2_same_length_lookup. split; [done|]. intros i x y ? ?. simplify_eq. apply ages_refl. Qed.

Lemma procs_age_trans (ps1 ps2 ps3 : list ChildProcess) :
  Forall2 ages ps1 ps2 → Forall2 ages ps2 ps3 → Forall2 ages ps1 ps3.
Proof.
  intros H1 H2. apply Forall2_same_length_lookup. split.
  - rewrite (Forall2_length _ _ _ H1). by apply Forall2_length in H2.
  - intros i x z Hx Hz. destruct (Forall2_lookup_l _ _ _ _ _ H1 Hx) as (y & Hy & ?).
    pose proof (Forall2_lookup_lr _ _ _ _ _ _ H2 Hy Hz). by eapply ages_trans.
Qed.

Lemma procs_age_insert (ps : list ChildProcess) h p p' :
  ps !! h = Some p → ages p p' → Forall2 ages ps (<[h := p']> ps).
Proof.
  intros Hp Ha. rewrite <- (list_insert_id ps h p Hp) at 1.
  apply Forall2_insert; [apply procs_age_refl | done].
Qed.

Lemma calm_refl st : calm st st.
Proof. split_and!; [intros ? ? ? ? ?; eauto | apply procs_age_refl | done]. Qed.

Lemma calm_trans st1 st2 st3 : calm st1 st2 → calm st2 st3 → calm st1 st3.
Proof.
  intros (R1 & A1 & T1) (R2 & A2 & T2). split_and!.
  - intros sid s3 h H3 Hh. destruct (R2 _ _ _ H3 Hh) as (s2 & H2 & Hh2). eauto.
  - by eapply procs_age_trans.
  - congruence.
Qed.

Lemma calm_sound st st' : calm st st' → sound st → sound st'.
Proof.
  intros (R & A & T) (Hrefs & Hrange & Harmed & Hsig).
  pose proof (Forall2_length _ _ _ A) as Hlen.
  split_and!.
  - intros sid s' h Hs' Hh. destruct (R _ _ _ Hs' Hh) as (s & Hs & Hh'). rewrite <- Hlen. eauto.
  - intros t Ht. rewrite T in Ht. rewrite <- Hlen. eauto.
  - intros t p' Ht Hp' Hrun. rewrite T in Ht.
    destruct (Forall2_lookup_r _ _ _ _ _ A Hp') as (p & Hp & Hs & Hk & Hr).
    rewrite Hk. eauto.
  - intros h p' Hp'.
    destruct (Forall2_lookup_r _ _ _ _ _ A Hp') as (p & Hp & Hs & _).
    rewrite Hs. eauto.
Qed.

Lemma calm_with_sessions st m :
  (∀ sessionId s' h, m !! sessionId = Some s' → flutterProcess s' = Some h →
     ∃ s, sessions st !! sessionId = Some s ∧ flutterProcess s = Some h) →
  calm st (with_sessions m st).
Proof. intros H. split_and!; [exact H | apply procs_age_refl | done]. Qed.

Lemma calm_alter st f sessionId :
  (∀ s, flutterProcess (f s) = flutterProcess s) →
  calm st (with_sessions (alter f sessionId (sessions st)) st).
Proof.
  intros Hf. apply calm_with_sessions. intros sid s' h.
  rewrite lookup_alter. case_decide; subst; [|eauto].
  destruct (sessions st !! sid) as [s|] eqn:Hs; simpl; [|done].
  intros [= <-]. rewrite Hf. eauto.
Qed.

Lemma calm_insert st sessionId s' :
  (∀ h, flutterProcess s' = Some h →
     ∃ s, sessions st !! sessionId = Some s ∧ flutterProcess s = Some h) →
  calm st (with_sessions (<[sessionId := s']> (sessions st)) st).
Proof.
  intros Hs'. apply calm_with_sessions. intros sid t h.
  destruct (decide (sessionId = sid)) as [->|Hne].
  - rewrite lookup_insert_eq. intros [= <-]. apply Hs'.
  - rewrite lookup_insert_ne by done. eauto.
Qed.

Lemma calm_delete st sessionId :
  calm st (with_sessions (delete sessionId (sessions st)) st).
Proof.
  apply calm_with_sessions. intros sid s' h [_ Hs]%lookup_delete_Some. eauto.
Qed.

Lemma calm_fmap st f :
  (∀ s, flutterProcess (f s) = flutterProcess s) →
  calm st (with_sessions (f <$> sessions st) st).
Proof.
  intros Hf. apply calm_with_sessions. intros sid s' h.
  rewrite lookup_fmap. destruct (sessions st !! sid) as [s|]; simpl; [|done].
  intros [= <-]. rewrite Hf. eauto.
Qed.

Lemma calm_with_procs st h p p' :
  procs st !! h = Some p → ages p p' →
  calm st (with_procs (<[h := p']> (procs st)) st).
Proof.
  intros Hp Ha. split_and!; [intros ? ? ? ? ?; eauto | by eapply procs_age_insert | done].
Qed.

Lemma calm_with_files st fs : calm st (with_files fs st).
Proof. split_and!; [intros ? ? ? ? ?; eauto | apply procs_age_refl | done]. Qed.

Lemma calm_with_usedPorts st u : calm st (with_usedPorts u st).
Proof. split_and!; [intros ? ? ? ? ?; eauto | apply procs_age_refl | done]. Qed.

Lemma register_calm st userId env session st1 :
  register userId env st = Ok (session, st1) → calm st st1.
Proof.
  unfold register. case_decide; [done|].
  destruct (getNextAvailablePort st); [|done]. intros [= <- <-].
  eapply calm_trans; [|apply calm_with_usedPorts].
  apply calm_insert. done.
Qed.

Lemma initializeFlutterProject_calm session prompt env st r st' :
  initializeFlutterProject session prompt env st = (r, st') → calm st st'.
Proof.
  unfold initializeFlutterProject. intros H.
  repeat case_match; simplify_eq; try apply calm_refl; try apply calm_with_files.
  all: eapply calm_trans; [apply calm_with_files|].
  all: eapply calm_trans; apply calm_with_files.
Qed.

Lemma awaitServer_calm sessionId p h evs st r st' :
  awaitServer sessionId p h evs st = (r, st') → calm st st'.
Proof.
  revert st. induction evs as [|ev evs IH]; intros st; simpl.
  - intros [= <- <-]. apply calm_refl.
  - destruct ev; [case_match| | |]; try (intros [= <- <-]; apply calm_refl); eauto.
    intros H%IH. eapply calm_trans; [|exact H]. clear H IH.
    eapply calm_trans; [|apply (calm_alter (with_procs _ st)); done].
    destruct (procs st !! h) as [c|] eqn:Hc.
    + apply calm_with_procs with c; [done|]. by split_and!.
    + destruct st; apply calm_refl.
Qed.

Lemma hotReload_calm sessionId st r st' :
  hotReload sessionId st = (r, st') → calm st st'.
Proof.
  unfold hotReload. intros H. repeat case_match; simplify_eq; try apply calm_refl.
  eapply calm_with_procs; [done|]. by split_and!.
Qed.

Lemma updateSessionCode_calm sessionId prompt env st :
  calm st (updateSessionCode sessionId prompt env st).2.
Proof.
  unfold updateSessionCode.
  destruct (sessions st !! sessionId) as [session|] eqn:Hs; [|apply calm_refl].
  assert (calm st (with_sessions
            (<[sessionId := set_lastActive (u_now env) session]> (sessions st)) st)) as H1.
  { apply calm_insert. simpl. eauto. }
  repeat case_match; simpl; try exact H1;
    try (eapply calm_trans; [exact H1|]; apply calm_with_files).
  all: match goal with
       | H : hotReload _ _ = _ |- _ => apply hotReload_calm in H
       end.
  all: eapply calm_trans; [exact H1|];
       (eapply calm_trans; [|eassumption]); apply calm_with_files.
Qed.

Lemma getSession_calm sessionId now st : calm st (getSession sessionId now st).2.
Proof.
  unfold getSession. destruct (sessions st !! sessionId) eqn:Hs; simpl.
  - apply calm_insert. simpl. eauto.
  - apply calm_refl.
Qed.

Lemma onExit_calm h st : calm st (onExit h st).
Proof.
  unfold onExit.
  eapply calm_trans; [|apply (calm_fmap (with_procs _ st)); intros s; by case_decide].
  destruct (procs st !! h) as [c|] eqn:Hc.
  - apply calm_with_procs with c; [done|]. by split_and!.
  - destruct st; apply calm_refl.
Qed.

(** Spawning a child for a session. *)
Lemma spawn_sound st sessionId child :
  sound st → signals child = [] →
  sound (with_sessions
           (alter (set_flutterProcess (Some (length (procs st)))) sessionId (sessions st))
           (with_procs (procs st ++ [child]) st)).
Proof.
  intros (Hrefs & Hrange & Harmed & Hsig) Hchild. split_and!; simpl.
  - intros sid s h. rewrite lookup_alter, length_app. simpl. case_decide; subst.
    + destruct (sessions st !! sid); simpl; [|done]. intros [= <-] [= <-]. lia.
    + intros Hs Hh. specialize (Hrefs _ _ _ Hs Hh). lia.
  - intros t Ht. rewrite length_app. specialize (Hrange t Ht). lia.
  - intros t p Ht. rewrite lookup_app_l by eauto. eauto.
  - intros h p Hp. apply lookup_app_Some in Hp as [Hp|[_ Hp]]; [eauto|].
    apply list_lookup_singleton_Some in Hp as [_ <-]. rewrite Hchild. apply not_elem_of_nil.
Qed.

Lemma startFlutterServer_sound session env st r st' :
  startFlutterServer session env st = (r, st') → sound st → sound st'.
Proof.
  unfold startFlutterServer. intros H%awaitServer_calm Hs.
  eapply calm_sound; [exact H|].
  exact (spawn_sound st (id session)
           {| running := spawned env; killed := false; signals := []; stdin := [] |}
           Hs eq_refl).
Qed.

(** Sending SIGTERM to a child and arming its timer. *)
Lemma kill_length st h sig : length (procs (kill h sig st)) = length (procs st).
Proof. unfold kill. repeat case_match; simpl; by rewrite ?length_insert. Qed.

Lemma kill_lookup_ne st h sig k :
  k ≠ h → procs (kill h sig st) !! k = procs st !! k.
Proof.
  intros Hne. unfold kill. repeat case_match; simpl; try done.
  by rewrite list_lookup_insert_ne.
Qed.

Lemma sigterm_sound st h :
  sound st → h < length (procs st) →
  sound (with_timers (timers (kill h SIGTERM st) ++ [{| delay := 5000; target := h |}])
           (kill h SIGTERM st)).
Proof.
  intros (Hrefs & Hrange & Harmed & Hsig) Hh.
  destruct (lookup_lt_is_Some_2 _ _ Hh) as [c Hc].
  pose proof (kill_lookup st h SIGTERM c Hc) as Hk.
  split_and!; simpl; rewrite ?kill_sessions, ?kill_length, ?kill_timers.
  - eauto.
  - intros t [Ht|Ht%list_elem_of_singleton]%elem_of_app; [eauto | by subst].
  - intros t p Ht. destruct (decide (target t = h)) as [->|Hne].
    + rewrite Hk. intros [= <-]. destruct (running c) eqn:Hr; simpl; [done|].
      intros Hrun. congruence.
    + rewrite kill_lookup_ne by done.
      apply elem_of_app in Ht as [Ht|Ht%list_elem_of_singleton]; [eauto | by subst].
  - intros k p. destruct (decide (k = h)) as [->|Hne].
    + rewrite Hk. intros [= <-]. destruct (running c); [|eauto]. simpl.
      intros [?|[=]%list_elem_of_singleton]%elem_of_app. by eapply Hsig.
    + rewrite kill_lookup_ne by done. eauto.
Qed.

Lemma terminateSession_sound st sessionId rm :
  sound st → sound (terminateSession sessionId rm st).
Proof.
  intros Hs. unfold terminateSession.
  destruct (sessions st !! sessionId) as [session|] eqn:Hsess; [|done].
  set (st1 := match flutterProcess session with
              | Some h => with_timers (timers (kill h SIGTERM st)
                                        ++ [{| delay := 5000; target := h |}])
                            (kill h SIGTERM st)
              | None => st
              end).
  assert (sound st1) as Hs1.
  { unfold st1. destruct (flutterProcess session) as [h|] eqn:Hh; [|done].
    apply sigterm_sound; [done|]. destruct Hs as (Hrefs & _). eauto. }
  fold st1. clearbody st1.
  set (st2 := if rm then with_files (fs_remove (projectPath session) (files st1)) st1
              else st1).
  assert (sound st2) as Hs2.
  { unfold st2. destruct rm; [|done]. eapply calm_sound; [apply calm_with_files | done]. }
  clearbody st2.
  eapply calm_sound; [apply (calm_delete (with_usedPorts _ st2))|].
  eapply calm_sound; [apply calm_with_usedPorts | done].
Qed.

Lemma fireTimer_sound st : sound st → sound (fireTimer st).
Proof.
  intros Hs. pose proof Hs as (Hrefs & Hrange & Harmed & Hsig). unfold fireTimer.
  destruct (timers st) as [|t rest] eqn:Ht; [done|].
  assert (sound (with_timers rest st)) as Hrest.
  { split_and!; simpl; eauto.
    - intros t' Ht'. apply Hrange. by right.
    - intros t' p Ht'. apply Harmed. by right. }
  simpl. destruct (procs st !! target t) as [p|] eqn:Hp; [|done].
  destruct (killed p) eqn:Hk; [done|].
  unfold kill. simpl. rewrite Hp.
  destruct (running p) eqn:Hr; [|done].
  exfalso. assert (killed p = true); [|congruence].
  apply (Harmed t p); [by left | done | done].
Qed.

Lemma createSession_sound st userId prompt env :
  sound st → sound (createSession userId prompt env st).2.
Proof.
  intros Hs. unfold createSession.
  destruct (register userId env st) as [[session st1]|e] eqn:Hr; [|done].
  apply register_calm in Hr. pose proof (calm_sound _ _ Hr Hs) as Hs1.
  unfold bringUp.
  destruct (initializeFlutterProject session prompt env st1) as [[u|e] st2] eqn:Hi;
    apply initializeFlutterProject_calm in Hi; pose proof (calm_sound _ _ Hi Hs1) as Hs2.
  - destruct (startFlutterServer session env st2) as [[u'|e] st3] eqn:Hst;
      apply startFlutterServer_sound in Hst; [|done| |done].
    + assert (sound (with_sessions (alter (set_status ready) (id session) (sessions st3)) st3)).
      { eapply calm_sound; [apply calm_alter; done | done]. }
      by case_match.
    + simpl. apply terminateSession_sound.
      eapply calm_sound; [apply calm_alter; done | done].
  - simpl. apply terminateSession_sound.
    eapply calm_sound; [apply calm_alter; done | done].
Qed.

Lemma cleanup_sound now rm st : sound st → sound (cleanup now rm st).
Proof.
  unfold cleanup. generalize (map_to_list (sessions st)). intros l. revert st.
  induction l as [|entry l IH]; intros st Hs; simpl; [done|].
  apply IH. case_match; [by apply terminateSession_sound | done].
Qed.

Lemma step_sound st op : sound st → sound (step st op).
Proof.
  intros Hs. destruct op; simpl.
  - by apply createSession_sound.
  - by apply terminateSession_sound.
  - eapply calm_sound; [apply getSession_calm | done].
  - eapply calm_sound; [apply updateSessionCode_calm | done].
  - by apply cleanup_sound.
  - by apply fireTimer_sound.
  - eapply calm_sound; [apply onExit_calm | done].
Qed.

Lemma initial_sound : sound initial.
Proof.
  split_and!; simpl.
  - intros ? ? ? H. by rewrite lookup_empty in H.
  - intros t Ht. by apply elem_of_nil in Ht.
  - intros t p Ht. by apply elem_of_nil in Ht.
  - intros h p H. by rewrite lookup_nil in H.
Qed.

Lemma run_sound ops st : sound st → sound (run ops st).
Proof.
  unfold run. revert st. induction ops as [|op ops IH]; intros st Hs; simpl; [done|].
  apply IH. by apply step_sound.
Qed.

(** Whatever the operations, no child is ever sent SIGKILL: a child that was
    running when SIGTERM went out carries the [killed] flag when its timer
    fires, and a child that was not is gone. *)
Lemma sigkill_is_never_delivered ops h p :
  procs (run ops initial) !! h = Some p → SIGKILL ∉ signals p.
Proof.
  intros Hp. destruct (run_sound ops initial initial_sound) as (_ & _ & _ & Hsig). eauto.
Qed.

(** ** The properties on the scenarios *)

Import Scenarios.

Example two_sessions : sessions two !! "0" = Some session0.
Proof. vm_compute. reflexivity. Qed.

Example one_session :
  sessions one !! "0" = Some session0 ∧ procs one !! 0 = Some child0 ∧ timers one = [].
Proof. vm_compute. done. Qed.

Example exited_session : sessions exited !! "s" = Some sessionS.
Proof. vm_compute. reflexivity. Qed.

(** Three sessions take 8080, 8081 and 8082; once "1" is terminated, the next
    session is given 8081 again. *)
Example port_reuse :
  port <$> sessions (run (creates 3 ++ [TerminateSession "1" true;
                                       CreateSession None None (serving "x" 9 8081)])
                       initial) !! "x" = Some 8081%Z.
Proof. vm_compute. reflexivity. Qed.



Lemma capacity_bound_witness :
  maxSessions ≤ size (sessions full) ∧
  maxSessions = 50 ∧
  createSession None None (serving "late" 50 8130) full = (Err MaxSessionsReached, full).
Proof.
  assert (maxSessions ≤ size (sessions full)) as H by (vm_compute; lia).
  split; [exact H | exact (capacity_bound full None None _ H)].
Defined.

(** The startup timeout: a third session whose child never reports ready and
    does not exit. The rollback leaves it running with SIGTERM, and so does
    the timer. *)
Lemma rollback_signals_but_does_not_kill_witness :
  ∃ st',
    createSession None None (mute "x" 7) two = (Err (ServerTimeout "x"), st') ∧
    sessions st' !! "x" = None ∧
    (8082%Z ∉ usedPorts st') ∧
    usedPorts st' = usedPorts two ∧
    procs st' !! 2 = Some {| running := true; killed := true; signals := [SIGTERM];
                             stdin := [] |} ∧
    timers st' = [{| delay := 5000; target := 2 |}] ∧
    procs (fireTimer st') !! 2
    = Some {| running := true; killed := true; signals := [SIGTERM]; stdin := [] |} ∧
    timers (fireTimer st') = [].
Proof.
  destruct (register None (mute "x" 7) two) as [[session st1]|] eqn:Hreg;
    [|vm_compute in Hreg; discriminate].
  destruct (initializeFlutterProject session None (mute "x" 7) st1) as [[[]|] st2] eqn:Hinit.
  2:{ vm_compute in Hreg. injection Hreg as <- <-. vm_compute in Hinit. discriminate. }
  assert ((startFlutterServer session (mute "x" 7) st2).1 ≠ Ok ()) as Hfail.
  { vm_compute in Hreg. injection Hreg as <- <-.
    vm_compute in Hinit. injection Hinit as <-. vm_compute. discriminate. }
  destruct (rollback_signals_but_does_not_kill two None None (mute "x" 7) session st1 st2
              Hreg Hinit Hfail)
    as (e & st' & c & Hcreate & Htimeout & Hgone & _ & Hfree & Hports & _ & Hc & _ & _
        & Htimers & Hfire).
  assert (e = ServerTimeout "x") as ->.
  { apply Htimeout. vm_compute in Hreg. injection Hreg as <- <-. vm_compute. reflexivity. }
  destruct (Hfire eq_refl) as [Hstill Hempty].
  assert (c = {| running := true; killed := true; signals := [SIGTERM]; stdin := [] |}) as ->.
  { vm_compute in Hcreate. injection Hcreate as <-. vm_compute in Hc. by injection Hc as <-. }
  exists st'. split_and!; try done.
  vm_compute in Hreg. injection Hreg as <- <-. exact Hfree.
Defined.

(** A session whose child has exited is not ['ready'], and yet
    [updateSessionCode] updates its code: the call succeeds, the time stamp
    moves and the file is rewritten. The route does answer 'Session not ready',
    but the time stamp has moved all the same. *)
Lemma update_not_ready_counterexample :
  status <$> sessions exited !! "s" = Some terminated ∧
  (updateSessionCode "s" "add a button" rewrite_main exited).1 = Ok None ∧
  lastActive <$> sessions exited !! "s" = Some 0%Z ∧
  lastActive <$> sessions (updateSessionCode "s" "add a button" rewrite_main exited).2 !! "s"
  = Some 99%Z ∧
  files exited !! "temp/sessions/s/lib/main.dart" = Some "void main() {}" ∧
  files (updateSessionCode "s" "add a button" rewrite_main exited).2
    !! "temp/sessions/s/lib/main.dart" = Some "void main() => runApp(App());" ∧
  (SessionRoutes.postCode "s" "add a button" 55 rewrite_main exited).1
  = SessionRoutes.NotReady terminated ∧
  lastActive <$> sessions (SessionRoutes.postCode "s" "add a button" 55 rewrite_main exited).2
                   !! "s"
  = Some 55%Z.
Proof. vm_compute. done. Qed.

Lemma updateSessionCode_rejects_unknown_only_witness :
  updateSessionCode "nobody" "add a button" rewrite_main exited
  = (Err (SessionNotFound "nobody"), exited) ∧
  sessions (updateSessionCode "s" "add a button" rewrite_main exited).2 !! "s"
  = Some (set_lastActive 99 sessionS) ∧
  SessionRoutes.postCode "s" "add a button" 55 rewrite_main exited
  = (SessionRoutes.NotReady terminated,
     with_sessions (<["s" := set_lastActive 55 sessionS]> (sessions exited)) exited).
Proof.
  destruct (updateSessionCode_rejects_unknown_only exited "nobody" "add a button" rewrite_main)
    as [Hnone _].
  destruct (updateSessionCode_rejects_unknown_only exited "s" "add a button" rewrite_main)
    as [_ Hsome].
  assert (sessions exited !! "s" = Some sessionS) as Hs by (vm_compute; reflexivity).
  destruct (Hsome sessionS Hs) as (_ & Hactive & Hroute).
  split_and!.
  - apply Hnone. vm_compute. reflexivity.
  - exact Hactive.
  - apply Hroute; [reflexivity | discriminate].
Defined.

(** Session "0" was last active at 0; it is read at 3 000 000 ms, and the
    cleanup runs at 6 600 000 ms. *)
Lemma getSession_touches_witness :
  sessions two !! "0" = Some session0 ∧
  sessions (cleanup 6600000 (λ _, true) (getSession "0" 3000000 two).2) !! "0"
  = Some (set_lastActive 3000000 session0) ∧
  sessions (cleanup 6600000 (λ _, true) two) !! "0" = None.
Proof.
  assert (sessions two !! "0" = Some session0) as H by (vm_compute; reflexivity).
  destruct (getSession_touches two "0" session0 3000000 H) as (_ & Hkeep & Hreclaim).
  split; [exact H|]. split.
  - apply Hkeep. unfold inactiveThreshold. lia.
  - apply Hreclaim. unfold inactiveThreshold. simpl. lia.
Defined.

(** The child of session "0" ignores SIGTERM. *)
Lemma force_kill_is_never_sent_witness :
  procs (fireTimer (terminateSession "0" true one)) !! 0
  = Some {| running := true; killed := true; signals := [SIGTERM]; stdin := [] |}.
Proof.
  refine (proj1 (proj2 (proj2
            (force_kill_is_never_sent one "0" true session0 0 child0 _ _ _ _ _))));
    vm_compute; reflexivity.
Defined.

(** The other half of the two-phase stop holds: a child that exits within the
    grace period receives SIGTERM only. *)
Example exit_within_grace :
  procs (fireTimer (onExit 0 (terminateSession "0" true one))) !! 0
  = Some {| running := false; killed := true; signals := [SIGTERM]; stdin := [] |}.
Proof. vm_compute. reflexivity. Qed.

End SessionManagerSpec.

(* ================================================================== *)
(** * Properties of the orchestrator *)
(* ================================================================== *)

Module OrchestratorSpec.
Import Orchestrator OrchestratorProps.

(** ** Dependency cycles *)

Lemma findPlan_Some plans d i :
  findPlan plans d = Some i →
  ∃ p, plans !! i = Some p ∧ id p = d ∧
       ∀ j q, plans !! j = Some q → j < i → id q ≠ d.
Proof.
  unfold findPlan. destruct (list_find _ plans) as [[k p]|] eqn:Hf; [|done].
  simpl. intros [= ->]. apply list_find_Some in Hf as (Hp & Hid & Hmin).
  exists p. split_and!; [done | done |]. intros j q Hq Hj. by eapply Hmin.
Qed.

Lemma findPlan_None plans d :
  findPlan plans d = None → ∀ p, p ∈ plans → id p ≠ d.
Proof.
  unfold findPlan. destruct (list_find _ plans) as [[k p]|] eqn:Hf; [done|].
  intros _ q Hq. by eapply list_find_None, Forall_forall in Hf.
Qed.

Section Cycle.

Variable plans : list ReWOOPlan.
Variable C : string → Prop.
Hypothesis C_closed : closed_under_dependencies plans C.

Local Abbreviation untouched := (untouched C).
Local Abbreviation denoted := (denoted plans C).
Local Abbreviation returns_outside := (returns_outside plans C).

Lemma addPlan_deps depth (deps : list string) acc :
  (∀ i acc, untouched acc → denoted i → returns_outside i (addPlan depth plans i acc)) →
  untouched acc →
  match foldM (λ acc depId,
                 match findPlan plans depId with
                 | Some j =>
                     if decide (depId ∈ processed acc) then Some acc
                     else addPlan depth plans j acc
                 | None => Some acc
                 end) deps acc with
  | None => True
  | Some acc' => untouched acc' ∧ ∀ d, d ∈ deps → ¬ C d
  end.
Proof.
  intros IH. revert acc. induction deps as [|d deps IHd]; intros acc Hacc; simpl.
  - split; [done|]. by intros d ?%elem_of_nil.
  - destruct (findPlan plans d) as [j|] eqn:Hj.
    + destruct (findPlan_Some _ _ _ Hj) as (pj & Hpj & Hid & _).
      case_decide as Hin.
      * specialize (IHd acc Hacc). destruct (foldM _ deps acc); [|done].
        destruct IHd as [? Hrest]. split; [done|].
        intros d' [->|?]%elem_of_cons; [|by apply Hrest].
        intros Hc. by apply (Hacc _ Hc).
      * assert (denoted j) as Hden.
        { intros p Hp _. rewrite Hpj in Hp. simplify_eq. done. }
        specialize (IH j acc Hacc Hden).
        destruct (addPlan depth plans j acc) as [acc1|]; [|done].
        destruct IH as [Hacc1 Hout]. specialize (IHd acc1 Hacc1).
        destruct (foldM _ deps acc1); [|done].
        destruct IHd as [? Hrest]. split; [done|].
        intros d' [->|?]%elem_of_cons; [|by apply Hrest].
        rewrite <- Hid. by apply Hout.
    + specialize (IHd acc Hacc). destruct (foldM _ deps acc); [|done].
      destruct IHd as [? Hrest]. split; [done|].
      intros d' [->|?]%elem_of_cons; [|by apply Hrest].
      intros (d'' & (i & p & Hf & _) & _)%C_closed. congruence.
Qed.

Lemma addPlan_cycle depth i acc :
  untouched acc → denoted i → returns_outside i (addPlan depth plans i acc).
Proof.
  revert i acc. induction depth as [|depth IH]; intros i acc Hacc Hden; simpl; [done|].
  unfold returns_outside.
  destruct (plans !! i) as [plan|] eqn:Hplan; [|by split].
  case_decide as Hin.
  - split; [done|]. intros p [= <-] Hc. by apply (Hacc _ Hc).
  - pose proof (addPlan_deps depth (dependencies plan) acc IH Hacc) as Hloop.
    destruct (foldM _ (dependencies plan) acc) as [acc'|]; [|done].
    destruct Hloop as [Hacc' Hdeps]. simpl.
    assert (¬ C (id plan)) as Hout.
    { intros Hc. destruct (C_closed _ Hc) as (d & (i' & p' & Hf & Hp' & Hd) & Hcd).
      rewrite (Hden plan Hplan Hc) in Hf. simplify_eq. by apply (Hdeps d). }
    split.
    + intros c Hc [->%elem_of_singleton|?]%elem_of_union; [done|].
      by apply (Hacc' c).
    + by intros p [= <-].
Qed.

(** The outer loop, over the indices from [k] on. *)
Lemma sort_loop_cycle depth m k acc :
  untouched acc →
  (∀ j p, j < k → plans !! j = Some p → ¬ C (id p)) →
  match foldM (λ acc i, addPlan depth plans i acc) (seq k m) acc with
  | None => True
  | Some _ => ∀ j p, j < k + m → plans !! j = Some p → ¬ C (id p)
  end.
Proof.
  revert k acc. induction m as [|m IH]; intros k acc Hacc Hbefore; simpl.
  - intros j p Hj. apply Hbefore. lia.
  - assert (denoted k) as Hden.
    { intros p Hp Hc.
      destruct (C_closed _ Hc) as (d & (i & q & Hf & Hq & _) & _).
      destruct (findPlan_Some _ _ _ Hf) as (q' & Hq' & Hid & Hmin).
      rewrite Hf. f_equal.
      destruct (Nat.lt_trichotomy i k) as [Hlt|[->|Hgt]]; [|done|].
      - exfalso. apply (Hbefore i q' Hlt Hq'). by rewrite Hid.
      - exfalso. by apply (Hmin k p Hp Hgt). }
    pose proof (addPlan_cycle depth k acc Hacc Hden) as Hk.
    destruct (addPlan depth plans k acc) as [acc1|]; [|done].
    destruct Hk as [Hacc1 Hout].
    assert (∀ j p, j < S k → plans !! j = Some p → ¬ C (id p)) as Hbefore'.
    { intros j p Hj Hp. destruct (decide (j = k)) as [->|]; [by apply Hout|].
      apply (Hbefore j p); [lia | done]. }
    specialize (IH (S k) acc1 Hacc1 Hbefore').
    destruct (foldM _ (seq (S k) m) acc1); [|done].
    intros j p Hj Hp. apply (IH j p); [lia | done].
Qed.

Lemma sortPlansByDependencies_closed depth c :
  C c → sortPlansByDependencies depth plans = None.
Proof.
  intros Hc. unfold sortPlansByDependencies.
  pose proof (sort_loop_cycle depth (length plans) 0
                {| sorted := []; processed := ∅ |}) as H.
  destruct (foldM _ (seq 0 (length plans)) _); [|done].
  exfalso.
  destruct (C_closed _ Hc) as (d & (i & p & Hf & Hp & _) & _).
  destruct (findPlan_Some _ _ _ Hf) as (q & Hq & Hid & _).
  apply (H ltac:(intros ? ?; set_solver) ltac:(intros; lia) i q);
    [by eapply lookup_lt_Some | done | by rewrite Hid].
Qed.

End Cycle.

(** On a plan set with a dependency cycle the recursion of
    [sortPlansByDependencies] does not return, whatever depth it is given. *)
Lemma sortPlansByDependencies_cycle plans depth :
  has_cycle plans → sortPlansByDependencies depth plans = None.
Proof.
  intros [a Ha].
  apply (sortPlansByDependencies_closed plans
           (λ c, rtc (depends_on plans) a c ∧ tc (depends_on plans) c a)) with (c := a).
  - intros c [Hac Hca].
    inversion Hca as [? ? Hstep|? d ? Hstep Hrest]; subst.
    + exists a. split; [done|]. split; [apply rtc_refl | done].
    + exists d. split; [done|]. split; [by eapply rtc_r | done].
  - split; [apply rtc_refl | done].
Qed.

(** ** Plan sets without cycles *)

Lemma foldM_total {S A} (f : S → A → option S) (l : list A) (s : S) :
  (∀ s a, a ∈ l → is_Some (f s a)) → is_Some (foldM f l s).
Proof.
  revert s. induction l as [|a l IH]; intros s Hf; simpl; [by eexists|].
  destruct (Hf s a) as [s' ->]; [by left|].
  apply IH. intros s'' a' Ha'. apply Hf. by right.
Qed.

Lemma addPlan_ranked plans rank depth i acc p :
  ranked plans rank → plans !! i = Some p → rank (id p) < depth →
  is_Some (addPlan depth plans i acc).
Proof.
  intros Hrank. revert i acc p.
  induction depth as [|depth IH]; intros i acc p Hp Hlt; [lia|]. simpl.
  rewrite Hp. case_decide; [by eexists|].
  destruct (foldM_total
              (λ acc depId,
                 match findPlan plans depId with
                 | Some j => if decide (depId ∈ processed acc) then Some acc
                             else addPlan depth plans j acc
                 | None => Some acc
                 end) (dependencies p) acc) as [acc' ->]; [|by eexists].
  intros acc0 d Hd. destruct (findPlan plans d) as [j|] eqn:Hj; [|by eexists].
  case_decide; [by eexists|].
  destruct (findPlan_Some _ _ _ Hj) as (q & Hq & Hid & _).
  apply (IH j acc0 q Hq). rewrite Hid.
  assert (rank d < rank (id p)); [|lia].
  apply (Hrank p d q); [by eapply list_elem_of_lookup_2 | done
                        | by eapply list_elem_of_lookup_2 | done].
Qed.

(** With the call stack deeper than every rank, the ordering is computed. *)
Lemma sortPlansByDependencies_ranked plans rank depth :
  ranked plans rank → (∀ p, p ∈ plans → rank (id p) < depth) →
  is_Some (sortPlansByDependencies depth plans).
Proof.
  intros Hrank Hdepth. unfold sortPlansByDependencies.
  destruct (foldM_total (λ acc i, addPlan depth plans i acc) (seq 0 (length plans))
              {| sorted := []; processed := ∅ |}) as [acc ->]; [|by eexists].
  intros acc i [_ Hi]%elem_of_seq.
  destruct (lookup_lt_is_Some_2 plans i) as [p Hp]; [lia|].
  apply (addPlan_ranked plans rank depth i acc p Hrank Hp).
  apply Hdepth. by eapply list_elem_of_lookup_2.
Qed.

(** ** What a run dispatches *)

Lemma requests_app h1 h2 : requests (h1 ++ h2) = requests h1 ++ requests h2.
Proof. apply omap_app. Qed.

Lemma ids_of_ext plans plans' order :
  id <$> plans = id <$> plans' → ids_of plans order = ids_of plans' order.
Proof.
  intros E. unfold ids_of. induction order as [|j order IH]; [done|]. csimpl.
  by rewrite <- !list_lookup_fmap, E, IH.
Qed.

Lemma ids_insert (plans : list ReWOOPlan) i p p' :
  plans !! i = Some p → id p' = id p → id <$> <[i := p']> plans = id <$> plans.
Proof.
  intros Hp Hid. rewrite list_fmap_insert, Hid.
  apply list_insert_id. by rewrite list_lookup_fmap, Hp.
Qed.

Lemma sendMessage_spec respond message st r st' :
  sendMessage respond message st = (r, st') →
  plans st' = plans st ∧ currentPhase st' = currentPhase st ∧
  finalResult st' = finalResult st ∧ context st' = context st ∧
  requests (messageHistory st') = requests (messageHistory st) ++ [m_id message].
Proof.
  unfold sendMessage. intros H.
  repeat case_match; simplify_eq; simpl; rewrite ?requests_app; simpl;
    rewrite ?app_nil_r; done.
Qed.

(** What [executePlans] never changes. *)
Lemma executePlans_frame respond order results st r st' :
  executePlans respond order results st = (r, st') →
  currentPhase st' = currentPhase st ∧ finalResult st' = finalResult st ∧
  context st' = context st ∧ id <$> plans st' = id <$> plans st.
Proof.
  revert results st. induction order as [|i order IH]; intros results st; simpl.
  - by intros [= <- <-].
  - destruct (plans st !! i) as [plan|] eqn:Hplan; [|by apply IH].
    destruct (sendMessage _ _ _) as [[agentResult|e] st2] eqn:Hsend;
      apply sendMessage_spec in Hsend as (Hp & Hph & Hf & Hctx & _); simpl in *.
    + destruct (success agentResult).
      * intros (? & ? & ? & Hids)%IH. simpl in *.
        split_and!; try congruence.
        rewrite Hids, Hp, list_insert_insert_eq. by eapply ids_insert.
      * intros [= <- <-]. simpl. split_and!; try done.
        rewrite Hp, list_insert_insert_eq. by eapply ids_insert.
    + intros [= <- <-]. simpl. split_and!; try done.
      rewrite Hp, list_insert_insert_eq. by eapply ids_insert.
Qed.



(** ** Planning keeps the dependency structure *)

Lemma findPlan_pending ps d :
  findPlan (set_status pending <$> ps) d = findPlan ps d.
Proof.
  unfold findPlan. rewrite list_find_fmap.
  rewrite (list_find_ext _ (λ p, id p = d)) by done.
  by destruct (list_find _ ps) as [[]|].
Qed.

Lemma depends_on_pending ps a b :
  depends_on ps a b → depends_on (set_status pending <$> ps) a b.
Proof.
  intros (i & p & Hf & Hp & Hb). exists i, (set_status pending p).
  rewrite findPlan_pending, list_lookup_fmap, Hp. done.
Qed.

Lemma has_cycle_pending ps : has_cycle ps → has_cycle (set_status pending <$> ps).
Proof.
  intros [a Ha]. exists a.
  apply (tc_congruence (R := depends_on ps) (λ x, x)
           (depends_on (set_status pending <$> ps)) a a); [|done].
  intros x y. apply depends_on_pending.
Qed.

(** ** Cycles *)

(** C3, as the code has it. [sortPlansByDependencies] keeps no in-progress
    marker and raises no cycle error: on a plan set with a dependency cycle its
    recursion does not return at any call-stack depth. The run ends in the
    engine's stack exhaustion, which [processMessage] reports as an
    unsuccessful result; this happens before the execution loop is entered, so
    every plan is still ['pending'] and no message has gone to an agent. *)
Theorem cycle_exhausts_the_stack ps prompt depth respond st :
  has_cycle ps →
  sortPlansByDependencies depth ps = None ∧
  ∃ st',
    processMessage depth (build_app prompt (Ok (Some ps))) respond st
    = (failure "Maximum call stack size exceeded", st') ∧
    plans st' = set_status pending <$> ps ∧
    Forall (λ p, status p = pending) (plans st') ∧
    messageHistory st' = messageHistory st ∧
    finalResult st' = finalResult st.
Proof.
  intros Hcyc. split; [by apply sortPlansByDependencies_cycle|].
  pose proof (sortPlansByDependencies_cycle _ depth (has_cycle_pending _ Hcyc)) as Hsort.
  eexists. split.
  - unfold processMessage, buildApplication, createExecutionPlan, executeReWOOPlan.
    simpl. rewrite Hsort. reflexivity.
  - simpl. split_and!; try done.
    apply Forall_fmap, Forall_true. done.
Qed.

Lemma twoCycle_has_cycle : has_cycle Scenarios.twoCycle.
Proof.
  exists "A". apply tc_l with "B"; [|apply tc_once].
  - exists 0, (Scenarios.task "A" design "design-agent" ["B"]).
    split_and!; [done | done | simpl; constructor].
  - exists 1, (Scenarios.task "B" code "code-agent" ["A"]).
    split_and!; [done | done | simpl; constructor].
Qed.

(** Task A depends on B and B on A: whatever depth is granted, the ordering
    does not come back, and the error the run reports is the exhausted stack. *)
Lemma cycle_counterexample :
  (∀ depth, sortPlansByDependencies depth Scenarios.twoCycle = None) ∧
  (processMessage 1000 (build_app "a todo app" (Ok (Some Scenarios.twoCycle)))
     Scenarios.codeFails fresh).1
  = failure "Maximum call stack size exceeded".
Proof.
  split.
  - intros depth. apply sortPlansByDependencies_cycle, twoCycle_has_cycle.
  - vm_compute. reflexivity.
Qed.

Lemma cycle_exhausts_the_stack_witness :
  has_cycle Scenarios.twoCycle ∧
  sortPlansByDependencies 1000 Scenarios.twoCycle = None ∧
  ∃ st',
    processMessage 1000 (build_app "a todo app" (Ok (Some Scenarios.twoCycle)))
      Scenarios.codeFails fresh
    = (failure "Maximum call stack size exceeded", st') ∧
    plans st' = set_status pending <$> Scenarios.twoCycle ∧
    Forall (λ p, status p = pending) (plans st') ∧
    messageHistory st' = messageHistory fresh ∧
    finalResult st' = finalResult fresh.
Proof.
  split; [exact twoCycle_has_cycle|].
  exact (cycle_exhausts_the_stack Scenarios.twoCycle "a todo app" 1000
           Scenarios.codeFails fresh twoCycle_has_cycle).
Defined.

(** ** A failing task *)




(** The three tasks are ranked, so a stack of depth 3 orders them. *)
Example threeTasks_ranked :
  ranked Scenarios.threeTasks (λ i, if decide (i = "d") then 0
                                    else if decide (i = "c") then 1 else 2) ∧
  sortPlansByDependencies 3 Scenarios.threeTasks = Some [0; 1; 2].
Proof.
  split; [|vm_compute; reflexivity].
  intros p d q Hp Hd Hq Hid. unfold Scenarios.threeTasks in *.
  rewrite !elem_of_cons, elem_of_nil in Hp, Hq.
  destruct_or!; subst; simpl in *;
    rewrite ?elem_of_cons, ?elem_of_nil in Hd; destruct_or?; simplify_eq;
    vm_compute; lia.
Qed.


(** ** Empty and missing plans *)

(** An empty plan list passes the guard of [createExecutionPlan]: planning
    succeeds, no task runs, and the run completes with an artifact whose
    slots are all empty. *)
Lemma empty_plan_counterexample :
  buildApplication 8 "a todo app" (Ok (Some [])) Scenarios.codeFails fresh
  = (Ok {| success := true;
           data := Some (IntegrationData
                           {| description := "a todo app"; a_design := None;
                              a_code := None; a_tests := None; agentsUsed := [];
                              totalPlans := 0; successfulPlans := 0 |});
           res_error := None; confidence := 90 |},
     {| currentPhase := completion; plans := []; context := Some "a todo app";
        finalResult := Some {| description := "a todo app"; a_design := None;
                               a_code := None; a_tests := None; agentsUsed := [];
                               totalPlans := 0; successfulPlans := 0 |};
        messageHistory := [] |}).
Proof. vm_compute. reflexivity. Qed.

(** C9, as the code has it. A planning answer without a plan list, or a
    planner that throws, is a planning failure: [buildApplication] hands back
    the unsuccessful planning result, and apart from the phase, which is
    ['planning'], the orchestrator is untouched: no plan was installed and no
    task ran. (A plan list that is present but empty is not caught by this
    guard.) *)
Theorem missing_plan_is_planning_failure depth prompt planningResponse respond st :
  (planningResponse = Ok None ∨ ∃ e, planningResponse = Err e) →
  buildApplication depth prompt planningResponse respond st
  = (Ok (failure "Failed to create execution plan"), with_phase planning st).
Proof. by intros [->|[e ->]]. Qed.

Lemma missing_plan_is_planning_failure_witness :
  buildApplication 8 "a todo app" (Ok None) Scenarios.codeFails fresh
  = (Ok (failure "Failed to create execution plan"), with_phase planning fresh).
Proof.
  apply missing_plan_is_planning_failure. by left.
Defined.

End OrchestratorSpec.

(* ================================================================== *)
(** * Capacity and ports over sequences of operations *)
(* ================================================================== *)

Module PortsSpec.
Import SessionManager SessionManagerProps SessionManagerSpec.

Lemma same_ports_dom st st' :
  same_ports st st' → dom (sessions st') = dom (sessions st).
Proof.
  intros [_ Hs]. apply set_eq. intros k. rewrite !elem_of_dom.
  specialize (Hs k). rewrite <- !(fmap_is_Some port), Hs. done.
Qed.

Lemma same_ports_size st st' :
  same_ports st st' → size (sessions st') = size (sessions st).
Proof.
  intros H. rewrite <- !(size_dom (D := gset string)). by rewrite (same_ports_dom _ _ H).
Qed.

Lemma same_ports_owned st st' : same_ports st st' → ports_owned st → ports_owned st'.
Proof.
  intros [Hu Hs] Ho p Hp. rewrite Hu in Hp.
  destruct (Ho p Hp) as (k & s & Hk & Hport).
  specialize (Hs k). rewrite Hk in Hs.
  destruct (sessions st' !! k) as [s'|] eqn:Hk'; simplify_eq/=. eauto.
Qed.

Lemma same_ports_low st st' : same_ports st st' → ports_low st → ports_low st'.
Proof.
  intros [_ Hs] Hl k s' Hk'. specialize (Hs k). rewrite Hk' in Hs.
  destruct (sessions st !! k) as [s|] eqn:Hk; [|done].
  simpl in Hs. injection Hs as Hs. rewrite Hs. by eapply Hl.
Qed.

Lemma same_ports_tidy st st' : same_ports st st' → tidy st → tidy st'.
Proof.
  intros H (Hn & Ho & Hl). split_and!.
  - by rewrite (same_ports_size _ _ H).
  - by eapply same_ports_owned.
  - by eapply same_ports_low.
Qed.

Lemma terminateSession_tidy st sessionId rm :
  tidy st → tidy (terminateSession sessionId rm st).
Proof.
  intros (Hn & Ho & Hl).
  destruct (sessions st !! sessionId) as [s|] eqn:Hs.
  2:{ by rewrite terminateSession_None. }
  destruct (terminateSession_Some st sessionId rm s Hs) as [Es Eu].
  split_and!.
  - rewrite Es. etransitivity; [|exact Hn].
    apply map_subseteq_size, delete_subseteq.
  - intros p. rewrite Eu, Es. intros [Hp Hne]%elem_of_difference.
    destruct (Ho p Hp) as (k & s' & Hk & Hport).
    exists k, s'. split; [|done].
    rewrite lookup_delete_ne; [done|]. intros ->.
    apply Hne, elem_of_singleton. congruence.
  - intros k s'. rewrite Es. intros [_ Hk]%lookup_delete_Some. by eapply Hl.
Qed.

(** The ports [getNextAvailablePort] has passed over are all used: there are
    at least as many used ports as the distance from the base port. *)
Lemma lowest_free_size st p :
  lowest_free st p → (p - basePort ≤ Z.of_nat (size (usedPorts st)))%Z.
Proof.
  intros (Hr & _ & Hbelow).
  assert (list_to_set (seqZ basePort (p - basePort)) ⊆ usedPorts st) as Hsub.
  { intros q. rewrite elem_of_list_to_set, elem_of_seqZ. intros ?. apply Hbelow. lia. }
  apply subseteq_size in Hsub.
  rewrite size_list_to_set in Hsub by apply NoDup_seqZ.
  rewrite length_seqZ in Hsub. lia.
Qed.

Lemma size_list_to_set_le (l : list Z) : size (list_to_set (C := gset Z) l) ≤ length l.
Proof.
  induction l as [|x l IH].
  - change (size (∅ : gset Z) ≤ 0). by rewrite size_empty.
  - change (size ({[x]} ∪ list_to_set (C := gset Z) l) ≤ S (length l)).
    rewrite size_union_alt, size_singleton.
    assert (size (list_to_set (C := gset Z) l ∖ {[x]}) ≤ size (list_to_set (C := gset Z) l)).
    { apply subseteq_size. by intros y [Hy _]%elem_of_difference. }
    lia.
Qed.

Lemma ports_owned_size st :
  ports_owned st → size (usedPorts st) ≤ size (sessions st).
Proof.
  intros Ho.
  assert (usedPorts st ⊆ list_to_set ((λ kv, port kv.2) <$> map_to_list (sessions st)))
    as Hsub.
  { intros p Hp. destruct (Ho p Hp) as (k & s & Hk & <-).
    apply elem_of_list_to_set, list_elem_of_fmap. exists (k, s). split; [done|].
    by apply elem_of_map_to_list. }
  apply subseteq_size in Hsub.
  etransitivity; [exact Hsub|].
  etransitivity; [apply size_list_to_set_le|].
  by rewrite length_fmap, length_map_to_list.
Qed.

Lemma register_tidy st userId env session st1 :
  register userId env st = Ok (session, st1) →
  sessions st !! uuid env = None → tidy st → tidy st1.
Proof.
  intros Hreg Hfresh (Hn & Ho & Hl).
  destruct (register_Ok _ _ _ _ _ Hreg) as (Hlt & Hfree & Hid & Es & Eu & _).
  pose proof (lowest_free_size _ _ Hfree) as Hdist.
  pose proof (ports_owned_size _ Ho) as Hsz.
  split_and!.
  - rewrite Es, map_size_insert_None by done. lia.
  - intros p. rewrite Eu, Es. intros [->%elem_of_singleton|Hp]%elem_of_union.
    + exists (uuid env), session. by rewrite lookup_insert_eq.
    + destruct (Ho p Hp) as (k & s & Hk & Hport). exists k, s. split; [|done].
      rewrite lookup_insert_ne; [done|]. intros <-. congruence.
  - intros k s. rewrite Es. intros [[<- <-]|[_ Hk]]%lookup_insert_Some.
    + destruct Hfree as (Hr & _). unfold maxSessions in *. lia.
    + by eapply Hl.
Qed.

Lemma createSession_tidy st userId prompt env :
  sessions st !! uuid env = None → tidy st → tidy (createSession userId prompt env st).2.
Proof.
  intros Hfresh Ht. unfold createSession.
  destruct (register userId env st) as [[session st1]|e] eqn:Hreg; [|done].
  pose proof (register_tidy _ _ _ _ _ Hreg Hfresh Ht) as H1.
  destruct (bringUp session prompt env st1) as [[[]|e] st2] eqn:Hup;
    pose proof (same_ports_tidy _ _ (bringUp_same_ports _ _ _ _ _ _ Hup) H1) as H2.
  - assert (tidy (with_sessions (alter (set_status ready) (id session) (sessions st2)) st2)).
    { eapply same_ports_tidy; [|exact H2]. by apply same_ports_alter. }
    by destruct (_ !! id session).
  - simpl. apply terminateSession_tidy.
    eapply same_ports_tidy; [|exact H2]. by apply same_ports_alter.
Qed.

Lemma sweep_tidy now rm l st : tidy st → tidy (sweep now rm l st).
Proof.
  revert st. induction l as [|[k v] l IH]; intros st H; simpl; [done|].
  apply IH. destruct (idle now v); [by apply terminateSession_tidy|done].
Qed.

Lemma step_tidy st op :
  match op with
  | CreateSession _ _ env => sessions st !! uuid env = None
  | _ => True
  end → tidy st → tidy (step st op).
Proof.
  destruct op as [userId prompt env|sessionId rm|sessionId t|sessionId prompt env|t rm| |h];
    cbn [step]; intros Hf H.
  - by apply createSession_tidy.
  - by apply terminateSession_tidy.
  - eapply same_ports_tidy; [apply getSession_same_ports|done].
  - eapply same_ports_tidy; [apply updateSessionCode_same_ports|done].
  - by apply (sweep_tidy t rm).
  - eapply same_ports_tidy; [apply fireTimer_same_ports|done].
  - eapply same_ports_tidy; [apply onExit_same_ports|done].
Qed.

Lemma initial_tidy : tidy initial.
Proof.
  split_and!.
  - simpl. rewrite map_size_empty. lia.
  - intros p Hp. simpl in Hp. by apply not_elem_of_empty in Hp.
  - intros k s Hk. simpl in Hk. by rewrite lookup_empty in Hk.
Qed.

Lemma run_tidy ops st : fresh_ids ops st → tidy st → tidy (run ops st).
Proof.
  revert st. induction ops as [|op ops IH]; intros st Hf H; [done|].
  destruct Hf as [Hop Hrest]. simpl. apply IH; [done|]. by apply step_tidy.
Qed.

(** The bound on the number of sessions needs no assumption on the ids. *)
Lemma createSession_size st userId prompt env :
  size (sessions st) ≤ maxSessions →
  size (sessions (createSession userId prompt env st).2) ≤ maxSessions.
Proof.
  intros Hn. unfold createSession.
  destruct (register userId env st) as [[session st1]|e] eqn:Hreg; [|done].
  destruct (register_Ok _ _ _ _ _ Hreg) as (Hlt & _ & Hid & Es & _).
  assert (size (sessions st1) ≤ maxSessions) as H1.
  { rewrite Es. destruct (sessions st !! uuid env) eqn:E.
    - rewrite map_size_insert_Some by (by eexists). lia.
    - rewrite map_size_insert_None by done. lia. }
  destruct (bringUp session prompt env st1) as [[[]|e] st2] eqn:Hup;
    pose proof (same_ports_size _ _ (bringUp_same_ports _ _ _ _ _ _ Hup)) as H2.
  - assert (size (sessions (with_sessions
                (alter (set_status ready) (id session) (sessions st2)) st2)) ≤ maxSessions).
    { rewrite (same_ports_size st2) by (by apply same_ports_alter). lia. }
    by destruct (_ !! id session).
  - simpl.
    set (st3 := with_sessions (alter (set_status error) (id session) (sessions st2)) st2).
    assert (size (sessions st3) ≤ maxSessions) as H3.
    { unfold st3. rewrite (same_ports_size st2) by (by apply same_ports_alter). lia. }
    destruct (sessions st3 !! id session) as [s|] eqn:Hs.
    + destruct (terminateSession_Some st3 (id session) (removeOk env) s Hs) as [-> _].
      etransitivity; [|exact H3]. apply map_subseteq_size, delete_subseteq.
    + by rewrite terminateSession_None.
Qed.

Lemma terminateSession_size st sessionId rm :
  size (sessions (terminateSession sessionId rm st)) ≤ size (sessions st).
Proof.
  destruct (sessions st !! sessionId) as [s|] eqn:Hs.
  - destruct (terminateSession_Some st sessionId rm s Hs) as [-> _].
    apply map_subseteq_size, delete_subseteq.
  - by rewrite terminateSession_None.
Qed.

Lemma sweep_size now rm l st :
  size (sessions (sweep now rm l st)) ≤ size (sessions st).
Proof.
  revert st. induction l as [|[k v] l IH]; intros st; simpl; [done|].
  etransitivity; [apply IH|].
  destruct (idle now v); [apply terminateSession_size|done].
Qed.

Lemma step_size st op :
  size (sessions st) ≤ maxSessions → size (sessions (step st op)) ≤ maxSessions.
Proof.
  destruct op as [userId prompt env|sessionId rm|sessionId t|sessionId prompt env|t rm| |h];
    cbn [step]; intros H.
  - by apply createSession_size.
  - etransitivity; [apply terminateSession_size|done].
  - by rewrite (same_ports_size st) by apply getSession_same_ports.
  - by rewrite (same_ports_size st) by apply updateSessionCode_same_ports.
  - etransitivity; [apply (sweep_size t rm)|done].
  - by rewrite (same_ports_size st) by apply fireTimer_same_ports.
  - by rewrite (same_ports_size st) by apply onExit_same_ports.
Qed.

(** The session table never holds more than [maxSessions] (50) sessions,
    whatever sequence of operations the manager has gone through. *)
Theorem sessions_never_exceed_capacity ops :
  size (sessions (run ops initial)) ≤ maxSessions.
Proof.
  assert (∀ st, size (sessions st) ≤ maxSessions →
                size (sessions (run ops st)) ≤ maxSessions) as H.
  { induction ops as [|op ops IH]; intros st Hst; [done|].
    simpl. apply IH. by apply step_size. }
  apply H. simpl. rewrite map_size_empty. lia.
Qed.


Lemma awaitServer_error sessionId p h evs st st' :
  awaitServer sessionId p h evs st ≠ (Err NoAvailablePorts, st').
Proof.
  revert st. induction evs as [|[output|output|c|message] evs IH]; intros st; simpl;
    try done; try apply IH.
  case_match; [done|apply IH].
Qed.

Lemma bringUp_error session prompt env st st' :
  bringUp session prompt env st ≠ (Err NoAvailablePorts, st').
Proof.
  unfold bringUp.
  destruct (initializeFlutterProject session prompt env st) as [[[]|e] st1] eqn:Hi.
  - apply awaitServer_error.
  - unfold initializeFlutterProject in Hi. repeat case_match; simplify_eq; done.
Qed.

(** The 1000-port range is never exhausted: with fresh ids every live session
    sits on one of the ports 8080..8129, and [createSession] never fails with
    'No available ports'. *)
Theorem ports_never_run_out ops userId prompt env :
  fresh_ids ops initial →
  (∀ sessionId s, sessions (run ops initial) !! sessionId = Some s →
                  (8080 ≤ port s < 8130)%Z) ∧
  (createSession userId prompt env (run ops initial)).1 ≠ Err NoAvailablePorts.
Proof.
  intros Hf. destruct (run_tidy ops initial Hf initial_tidy) as (Hn & Ho & Hl).
  split; [exact Hl|].
  set (st := run ops initial) in *.
  unfold createSession.
  destruct (register userId env st) as [[session st1]|e] eqn:Hreg.
  - destruct (bringUp session prompt env st1) as [[[]|e] st2] eqn:Hup.
    + by destruct (_ !! id session).
    + simpl. intros [= ->]. by eapply bringUp_error.
  - simpl. unfold register in Hreg. case_decide; [by simplify_eq|].
    unfold getNextAvailablePort in Hreg.
    destruct (scanPorts (usedPorts st) basePort 1000) as [q|] eqn:Hscan; [done|].
    exfalso.
    pose proof (scanPorts_None _ _ _ Hscan) as Hall.
    assert (list_to_set (seqZ basePort 1000) ⊆ usedPorts st) as Hsub.
    { intros q. rewrite elem_of_list_to_set, elem_of_seqZ. intros ?. apply Hall. lia. }
    apply subseteq_size in Hsub.
    rewrite size_list_to_set in Hsub by apply NoDup_seqZ.
    rewrite length_seqZ in Hsub.
    pose proof (ports_owned_size _ Ho). unfold maxSessions in *. lia.
Qed.

(** ** On the scenarios *)


(** After the churn every session sits below port 8130, and a further session
    is not refused for want of a port. *)
Lemma ports_never_run_out_witness :
  (∀ sessionId s, sessions (run Scenarios.churn initial) !! sessionId = Some s →
                  (8080 ≤ port s < 8130)%Z) ∧
  (createSession None None (Scenarios.serving "y" 10 8083) (run Scenarios.churn initial)).1
  ≠ Err NoAvailablePorts.
Proof.
  apply (ports_never_run_out Scenarios.churn). vm_compute. tauto.
Defined.

End PortsSpec.

(* ================================================================== *)
(** * The cleanup timer *)
(* ================================================================== *)

Module SweepSpec.
Import SessionManager SessionManagerProps SessionManagerSpec.

Lemma sweep_cons now rm k v l st :
  sweep now rm ((k, v) :: l) st
  = sweep now rm l (if idle now v then terminateSession k (rm k) st else st).
Proof. done. Qed.

Lemma sweep_exact now rm l st :
  NoDup l.*1 →
  (∀ k v, (k, v) ∈ l → sessions st !! k = Some v) →
  (∀ k, sessions (sweep now rm l st) !! k
        = match sessions st !! k with
          | Some s => if decide (k ∈ l.*1) then (if idle now s then None else Some s)
                      else Some s
          | None => None
          end) ∧
  (∀ p, p ∈ usedPorts (sweep now rm l st) ↔
        p ∈ usedPorts st ∧ ∀ k v, (k, v) ∈ l → idle now v = true → port v ≠ p).
Proof.
  revert st. induction l as [|[k0 v0] l IH]; intros st Hnd Hl.
  { split.
    - intros k. change (sweep now rm [] st) with st.
      destruct (sessions st !! k); [|done].
      by rewrite decide_False by apply not_elem_of_nil.
    - intros p. change (sweep now rm [] st) with st.
      split; [|by intros []]. intros Hp. split; [done|].
      intros k v []%elem_of_nil. }
  rewrite fmap_cons in Hnd. apply NoDup_cons in Hnd as [Hk0 Hnd].
  change ((k0, v0).1) with k0 in Hk0.
  assert (sessions st !! k0 = Some v0) as H0 by (apply Hl; left).
  rewrite sweep_cons, fmap_cons. change ((k0, v0).1) with k0.
  destruct (idle now v0) eqn:Hidle.
  - destruct (terminateSession_Some st k0 (rm k0) v0 H0) as [Es Eu].
    destruct (IH (terminateSession k0 (rm k0) st) Hnd) as [IHs IHp].
    { intros k v Hin. rewrite Es, lookup_delete_ne; [apply Hl; by right|].
      intros <-. apply Hk0, list_elem_of_fmap. by exists (k0, v). }
    split.
    + intros k. rewrite (IHs k), Es.
      destruct (decide (k = k0)) as [->|Hne].
      * rewrite lookup_delete_eq, H0.
        rewrite decide_True by left. by rewrite Hidle.
      * rewrite lookup_delete_ne by done.
        destruct (sessions st !! k) as [s|]; [|done].
        destruct (decide (k ∈ l.*1)) as [Hin|Hnin].
        -- rewrite decide_True by (by right). done.
        -- by rewrite decide_False by (intros [?|?]%elem_of_cons; done).
    + intros p. rewrite (IHp p), Eu, elem_of_difference, elem_of_singleton. split.
      * intros [[Hp Hne] Hrest]. split; [done|].
        intros k v [[= -> ->]|Hin]%elem_of_cons Hi; [congruence|by eapply Hrest].
      * intros [Hp Hall]. split; [split; [done|]|].
        -- intros ->. apply (Hall k0 v0); [by left|done|done].
        -- intros k v Hin. apply (Hall k v). by right.
  - destruct (IH st Hnd) as [IHs IHp].
    { intros k v Hin. apply Hl. by right. }
    split.
    + intros k. rewrite (IHs k).
      destruct (sessions st !! k) as [s|] eqn:Hk; [|done].
      destruct (decide (k ∈ l.*1)) as [Hin|Hnin].
      * rewrite decide_True by (by right). done.
      * destruct (decide (k ∈ k0 :: l.*1)) as [[->|?]%elem_of_cons|?]; [|done|done].
        rewrite H0 in Hk. injection Hk as <-. by rewrite Hidle.
    + intros p. rewrite (IHp p). split.
      * intros [Hp Hrest]. split; [done|].
        intros k v [[= -> ->]|Hin]%elem_of_cons Hi; [congruence|by eapply Hrest].
      * intros [Hp Hall]. split; [done|]. intros k v Hin. apply (Hall k v). by right.
Qed.

(** One pass of the cleanup timer removes exactly the sessions that have been
    inactive for more than an hour and releases exactly their ports: every
    other session and every other used port is as it was. *)
Theorem cleanup_reclaims_exactly_the_idle now rm st :
  (∀ sessionId,
     sessions (cleanup now rm st) !! sessionId
     = s ← sessions st !! sessionId; if idle now s then None else Some s) ∧
  (∀ p, p ∈ usedPorts (cleanup now rm st) ↔
        p ∈ usedPorts st ∧
        ∀ sessionId s, sessions st !! sessionId = Some s → idle now s = true → port s ≠ p).
Proof.
  destruct (sweep_exact now rm (map_to_list (sessions st)) st) as [Hs Hp].
  { apply NoDup_fst_map_to_list. }
  { intros k v. apply elem_of_map_to_list. }
  split.
  - intros k. unfold cleanup. fold (sweep now rm (map_to_list (sessions st)) st).
    rewrite (Hs k). destruct (sessions st !! k) as [s|] eqn:Hk; [|done].
    rewrite decide_True; [reflexivity|].
    apply list_elem_of_fmap. exists (k, s). split; [done|]. by apply elem_of_map_to_list.
  - intros p. unfold cleanup. fold (sweep now rm (map_to_list (sessions st)) st).
    rewrite (Hp p). split; intros [Hin Hall]; (split; [done|]).
    + intros k s Hk. apply (Hall k s). by apply elem_of_map_to_list.
    + intros k s Hk%elem_of_map_to_list. by apply (Hall k s).
Qed.

End SweepSpec.

(* ================================================================== *)
(** * The initial code *)
(* ================================================================== *)

Module InitialCodeSpec.
Import SessionManager SessionManagerProps SessionManagerSpec.

Lemma same_but_files_eta st st' :
  same_but_files st st' → st' = with_files (files st') st.
Proof. destruct st, st'. intros (? & ? & ? & ?). simpl in *. by subst. Qed.

Lemma same_but_files_with_files st f : same_but_files st (with_files f st).
Proof. done. Qed.

Lemma awaitServer_with_files sessionId p h evs f st :
  awaitServer sessionId p h evs (with_files f st)
  = ((awaitServer sessionId p h evs st).1,
     with_files f (awaitServer sessionId p h evs st).2).
Proof.
  revert st. induction evs as [|[output|output|c|message] evs IH]; intros st; simpl;
    try done; try apply IH.
  - case_match; [done|apply IH].
  - apply (IH (with_sessions _ (with_procs _ st))).
Qed.

Lemma startFlutterServer_with_files session env f st :
  startFlutterServer session env (with_files f st)
  = ((startFlutterServer session env st).1,
     with_files f (startFlutterServer session env st).2).
Proof.
  unfold startFlutterServer.
  apply (awaitServer_with_files _ _ _ _ f (with_sessions _ (with_procs _ st))).
Qed.

Lemma kill_with_files h sig f st :
  kill h sig (with_files f st) = with_files f (kill h sig st).
Proof. unfold kill. simpl. repeat case_match; done. Qed.

Lemma terminateSession_with_files sessionId rm f st :
  same_but_files (terminateSession sessionId rm st)
    (terminateSession sessionId rm (with_files f st)).
Proof.
  unfold terminateSession. simpl.
  destruct (sessions st !! sessionId) as [s|]; [|done].
  destruct (flutterProcess s) as [h|]; [rewrite kill_with_files|]; by destruct rm.
Qed.

(** Where the project is initialised, the AI service decides about files only. *)
Lemma initializeFlutterProject_with_ai session prompt env ai pg st :
  (initializeFlutterProject session prompt (with_ai ai pg env) st).1
  = (initializeFlutterProject session prompt env st).1 ∧
  same_but_files (initializeFlutterProject session prompt env st).2
    (initializeFlutterProject session prompt (with_ai ai pg env) st).2.
Proof.
  unfold initializeFlutterProject. simpl.
  destruct (flutterCreate env) as [sc|e]; [|done].
  destruct (given prompt); simpl; [|done].
  destruct ai as [r|e], (initialCode env) as [r'|e']; simpl;
    repeat (destruct (updateDependencies _ _ _ _) as [? ?]); done.
Qed.

(** The answer of the AI service for the initial prompt never decides whether
    a session is created: with any other answer (or a failure) of the service
    and of `flutter pub get`, [createSession] returns the same session or the
    same error, and leaves the same sessions, ports, children and timers; the
    files of the workspace are all that can differ. *)
Theorem initial_code_never_fails_a_session userId prompt env ai pg st :
  (createSession userId prompt (with_ai ai pg env) st).1
  = (createSession userId prompt env st).1 ∧
  same_but_files (createSession userId prompt env st).2
    (createSession userId prompt (with_ai ai pg env) st).2.
Proof.
  unfold createSession.
  change (register userId (with_ai ai pg env) st) with (register userId env st).
  destruct (register userId env st) as [[session st1]|e]; [|done].
  unfold bringUp.
  destruct (initializeFlutterProject_with_ai session prompt env ai pg st1) as [E1 E2].
  destruct (initializeFlutterProject session prompt env st1) as [r st2].
  destruct (initializeFlutterProject session prompt (with_ai ai pg env) st1) as [r' st2'].
  simpl in E1, E2. subst r'. rewrite (same_but_files_eta _ _ E2).
  generalize (files st2'). intros f.
  destruct r as [[]|e].
  - change (startFlutterServer session (with_ai ai pg env)) with (startFlutterServer session env).
    rewrite startFlutterServer_with_files.
    destruct (startFlutterServer session env st2) as [[[]|e] st3]; simpl.
    + by destruct (alter (set_status ready) (id session) (sessions st3) !! id session).
    + split; [done|].
      exact (terminateSession_with_files (id session) (removeOk env) f
               (with_sessions (alter (set_status error) (id session) (sessions st3)) st3)).
  - simpl. split; [done|].
    exact (terminateSession_with_files (id session) (removeOk env) f
             (with_sessions (alter (set_status error) (id session) (sessions st2)) st2)).
Qed.

End InitialCodeSpec.

(* ================================================================== *)
(** * The files of a workspace *)
(* ================================================================== *)

Module WorkspaceSpec.
Import SessionManager SessionManagerProps SessionManagerSpec.

(** ** Strings *)

Lemma append_cons (x : Ascii.ascii) (a b : string) :
  String x a +:+ b = String x (a +:+ b).
Proof. done. Qed.

Lemma append_assoc (a b c : string) : (a +:+ b) +:+ c = a +:+ (b +:+ c).
Proof.
  induction a as [|x a IH]; [done|]. by rewrite !append_cons, IH.
Qed.

Lemma substring_prefix (b c : string) :
  String.substring 0 (String.length b) (b +:+ c) = b.
Proof.
  induction b as [|x b IH].
  - by destruct c.
  - rewrite append_cons. simpl. by rewrite IH.
Qed.

Lemma substring_middle (a b c : string) :
  String.substring (String.length a) (String.length b) (a +:+ (b +:+ c)) = b.
Proof.
  induction a as [|x a IH]; [exact (substring_prefix b c)|].
  rewrite append_cons. exact IH.
Qed.

(** A string that has [b] in its middle includes [b]. *)
Lemma includes_middle (a b c : string) : includes (a +:+ (b +:+ c)) b = true.
Proof.
  unfold includes.
  destruct (String.index 0 b (a +:+ (b +:+ c))) as [i|] eqn:Hi; [done|].
  destruct (decide (b = "")) as [->|Hne].
  - apply String.index_correct4 in Hi. lia.
  - exfalso.
    apply (String.index_correct3 0 (String.length a) _ _ Hi Hne); [lia|].
    apply substring_middle.
Qed.

(** ** updatePubspec *)

Lemma addDependency_idempotent pubspecContent dep :
  addDependency (addDependency pubspecContent dep) dep = addDependency pubspecContent dep.
Proof.
  unfold addDependency.
  destruct (assoc dep dependencyMap) as [version|]; [|done].
  destruct (includes pubspecContent dep) eqn:Hinc; [by rewrite Hinc|].
  unfold replace.
  destruct (String.index 0 "dependencies:" pubspecContent) as [i|] eqn:Hi.
  2:{ by rewrite Hinc, Hi. }
  match goal with
  | |- (if includes ?c dep then _ else _) = _ => assert (includes c dep = true) as ->; [|done]
  end.
  rewrite !append_assoc. rewrite <- (append_assoc _ "dependencies:").
  rewrite <- (append_assoc _ (String (Ascii.ascii_of_nat 10) "  ")).
  apply includes_middle.
Qed.

(** Adding a dependency a second time leaves the manifest as the first call
    left it: [updatePubspec] does not duplicate an entry. *)
Theorem updatePubspec_adds_once projectPath dep fs fs1 :
  updatePubspec projectPath [dep] fs = Ok fs1 →
  updatePubspec projectPath [dep] fs1 = Ok fs1.
Proof.
  unfold updatePubspec.
  destruct (fs !! path_join [projectPath; "pubspec.yaml"]) as [c|] eqn:Hc; [|done].
  intros [= <-]. rewrite lookup_insert_eq. simpl.
  by rewrite addDependency_idempotent, insert_insert_eq.
Qed.

(** ** updateSessionCode *)

Lemma main_is_not_pubspec projectPath :
  path_join [projectPath; "lib"; "main.dart"] ≠ path_join [projectPath; "pubspec.yaml"].
Proof.
  simpl. intros H. apply (inj (String.append projectPath)) in H. done.
Qed.

Lemma updateDependencies_main projectPath deps pg fs r fs' :
  updateDependencies projectPath deps pg fs = (r, fs') →
  fs' !! path_join [projectPath; "lib"; "main.dart"]
  = fs !! path_join [projectPath; "lib"; "main.dart"].
Proof.
  unfold updateDependencies, updatePubspec.
  destruct deps as [[|d ds]|]; try by intros [= <- <-].
  destruct (fs !! path_join [projectPath; "pubspec.yaml"]); intros [= <- <-]; [|done].
  apply lookup_insert_ne. apply not_eq_sym, main_is_not_pubspec.
Qed.

Lemma hotReload_files sessionId st : files (hotReload sessionId st).2 = files st.
Proof. unfold hotReload. by repeat case_match. Qed.

Lemma hotReload_Err sessionId st e st' :
  hotReload sessionId st = (Err e, st') → st' = st.
Proof. unfold hotReload. repeat case_match; by intros [= <-]. Qed.

(** [updateSessionCode] does not roll back. Once the AI service has answered
    (without a list of files), the workspace's [lib/main.dart] holds the
    generated code whether or not the call then succeeds; and when the call
    fails, no reload command has been written to the child. *)
Theorem failed_update_keeps_new_code st sessionId prompt env s currentCode result :
  sessions st !! sessionId = Some s →
  files st !! path_join [projectPath s; "lib"; "main.dart"] = Some currentCode →
  generated env = Ok result →
  gen_files result = None ∨ gen_files result = Some [] →
  files (updateSessionCode sessionId prompt env st).2
    !! path_join [projectPath s; "lib"; "main.dart"] = Some (code result) ∧
  (∀ e, (updateSessionCode sessionId prompt env st).1 = Err e →
        procs (updateSessionCode sessionId prompt env st).2 = procs st) ∧
  (∀ d ds, gen_dependencies result = Some (d :: ds) → u_pubGet env = false →
           ∃ e, (updateSessionCode sessionId prompt env st).1 = Err e).
Proof.
  intros Hs Hmain Hgen Hfiles. unfold updateSessionCode.
  rewrite Hs. cbn [files with_sessions]. rewrite Hmain, Hgen.
  set (st1 := with_sessions _ st).
  set (fs2 := match gen_files result with
              | Some (f :: fl) => _
              | _ => _
              end).
  assert (fs2 = <[path_join [projectPath s; "lib"; "main.dart"] := code result]> (files st))
    as -> by (unfold fs2; by destruct Hfiles as [-> | ->]).
  destruct (updateDependencies _ _ _ _) as [r fs3] eqn:Hdeps.
  pose proof (updateDependencies_main _ _ _ _ _ _ Hdeps) as Hkeep.
  rewrite lookup_insert_eq in Hkeep.
  destruct r as [[]|e].
  - pose proof (hotReload_files sessionId (with_files fs3 st1)) as Hf.
    destruct (hotReload sessionId (with_files fs3 st1)) as [[[]|e] st4] eqn:Hr;
      simpl in *; rewrite Hf.
    + split_and!; [done|done|].
      intros d ds Hd Hpg. exfalso. unfold updateDependencies in Hdeps.
      rewrite Hd, Hpg in Hdeps. by destruct (updatePubspec _ _ _).
    + apply hotReload_Err in Hr as ->. split_and!; [done|done|eauto].
  - simpl. split_and!; [done|done|eauto].
Qed.

(** ** On the scenarios *)

(** The package http is added to the scaffold's manifest once. *)
Lemma updatePubspec_adds_once_witness :
  ∃ fs1, updatePubspec "temp/sessions/0" ["http"] (Scenarios.scaffold "0") = Ok fs1 ∧
         fs1 !! "temp/sessions/0/pubspec.yaml"
         = Some ("dependencies:" +:+ String (Ascii.ascii_of_nat 10) "  http: ^1.1.0") ∧
         updatePubspec "temp/sessions/0" ["http"] fs1 = Ok fs1.
Proof.
  destruct (updatePubspec "temp/sessions/0" ["http"] (Scenarios.scaffold "0"))
    as [fs1|e] eqn:H; [|vm_compute in H; discriminate].
  exists fs1. split; [done|]. split.
  - vm_compute in H. injection H as <-. vm_compute. reflexivity.
  - exact (updatePubspec_adds_once _ _ _ _ H).
Defined.

(** `flutter pub get` fails: the call is rejected, the new code is on disk, and
    the child has not been told to reload. *)
Lemma failed_update_keeps_new_code_witness :
  files (updateSessionCode "0" "fetch the list" Scenarios.needs_http Scenarios.one).2
    !! "temp/sessions/0/lib/main.dart" = Some "import 'package:http/http.dart' as http;" ∧
  (updateSessionCode "0" "fetch the list" Scenarios.needs_http Scenarios.one).1
  = Err (External "flutter pub get") ∧
  procs (updateSessionCode "0" "fetch the list" Scenarios.needs_http Scenarios.one).2
  = procs Scenarios.one.
Proof.
  destruct (failed_update_keeps_new_code Scenarios.one "0" "fetch the list" Scenarios.needs_http
              Scenarios.session0 "void main() {}"
              {| code := "import 'package:http/http.dart' as http;";
                 gen_dependencies := Some ["http"]; gen_files := None |})
    as (Hmain & Hprocs & Hfail); [vm_compute; reflexivity ..| by left |].
  split; [exact Hmain|].
  assert ((updateSessionCode "0" "fetch the list" Scenarios.needs_http Scenarios.one).1
          = Err (External "flutter pub get")) as E by (vm_compute; reflexivity).
  split; [exact E|]. exact (Hprocs _ E).
Defined.

End WorkspaceSpec.

(* ================================================================== *)
(** * Shutdown *)
(* ================================================================== *)

Module ShutdownSpec.
Import SessionManager SessionManagerProps SessionManagerSpec.

(** [terminateSession] is its two parts, one after the other. *)
Lemma terminateSession_parts sessionId rm st :
  terminateSession sessionId rm st
  = match terminateBegin sessionId st with
    | (Some session, st') => terminateEnd sessionId session rm st'
    | (None, st') => st'
    end.
Proof.
  unfold terminateSession, terminateBegin, terminateEnd.
  destruct (sessions st !! sessionId) as [s|]; [|done].
  by destruct (flutterProcess s).
Qed.

Lemma kill_stopped st h c :
  procs (kill h SIGTERM st) !! h = Some c → stopped c.
Proof.
  unfold kill. destruct (procs st !! h) as [p|] eqn:Hp; [|by rewrite Hp].
  destruct (running p) eqn:Hr.
  - simpl. rewrite list_lookup_insert_eq by (by eapply lookup_lt_Some).
    intros [= <-] _. simpl. split; [done|]. apply elem_of_app. right. constructor.
  - rewrite Hp. intros [= <-] ?. congruence.
Qed.

Lemma kill_keeps_stopped st h k sig c :
  procs st !! k = Some c → stopped c →
  ∃ c', procs (kill h sig st) !! k = Some c' ∧ stopped c' ∧ running c' = running c.
Proof.
  intros Hk Hc. unfold kill.
  destruct (procs st !! h) as [p|] eqn:Hp; [|eauto].
  destruct (running p) eqn:Hr; [|eauto]. simpl.
  destruct (decide (k = h)) as [->|Hne].
  - rewrite list_lookup_insert_eq by (by eapply lookup_lt_Some).
    simplify_eq. eexists. split; [done|]. simpl. split; [|done].
    intros _. destruct (Hc Hr) as [_ Hin]. split; [done|].
    apply elem_of_app. by left.
  - rewrite list_lookup_insert_ne by done. eauto.
Qed.

Lemma kill_running st h k sig c :
  procs st !! k = Some c →
  ∃ c', procs (kill h sig st) !! k = Some c' ∧ running c' = running c.
Proof.
  intros Hk. unfold kill.
  destruct (procs st !! h) as [p|] eqn:Hp; [|eauto].
  destruct (running p) eqn:Hr; [|eauto]. simpl.
  destruct (decide (k = h)) as [->|Hne].
  - rewrite list_lookup_insert_eq by (by eapply lookup_lt_Some).
    simplify_eq. eauto.
  - rewrite list_lookup_insert_ne by done. eauto.
Qed.

Lemma terminateBegin_frame sessionId st :
  sessions (terminateBegin sessionId st).2 = sessions st ∧
  usedPorts (terminateBegin sessionId st).2 = usedPorts st ∧
  files (terminateBegin sessionId st).2 = files st.
Proof.
  unfold terminateBegin. destruct (sessions st !! sessionId) as [s|]; [|done].
  destruct (flutterProcess s) as [h|]; [|done]. simpl.
  by rewrite kill_sessions, kill_usedPorts, kill_files.
Qed.

Lemma begins_spec l acc0 st0 :
  (∀ k v, (k, v) ∈ l → sessions st0 !! k = Some v) →
  let r := foldl (λ acc sessionId,
                    match terminateBegin sessionId acc.2 with
                    | (Some session, st') => (acc.1 ++ [(sessionId, session)], st')
                    | (None, st') => (acc.1, st')
                    end) (acc0, st0) l.*1 in
  r.1 = acc0 ++ l ∧ sessions r.2 = sessions st0 ∧ usedPorts r.2 = usedPorts st0 ∧
  (∀ k c, procs st0 !! k = Some c →
     ∃ c', procs r.2 !! k = Some c' ∧ running c' = running c ∧ (stopped c → stopped c')) ∧
  (∀ k s h c, (k, s) ∈ l → flutterProcess s = Some h → procs st0 !! h = Some c →
     ∃ c', procs r.2 !! h = Some c' ∧ stopped c').
Proof.
  revert acc0 st0. induction l as [|[k0 v0] l IH]; intros acc0 st0 Hl r.
  { subst r. simpl. rewrite app_nil_r. split_and!; try done.
    - intros k c Hk. eauto.
    - intros k s h c []%elem_of_nil. }
  subst r. rewrite fmap_cons. cbn [foldl fst snd].
  assert (sessions st0 !! k0 = Some v0) as H0 by (apply Hl; left).
  destruct (terminateBegin_frame k0 st0) as (Fs & Fu & Ff).
  assert (∃ st1, terminateBegin k0 st0 = (Some v0, st1) ∧
                 st1 = match flutterProcess v0 with
                       | Some h => with_timers (timers (kill h SIGTERM st0)
                                                  ++ [{| delay := 5000; target := h |}])
                                     (kill h SIGTERM st0)
                       | None => st0
                       end) as (st1 & E & Est1).
  { unfold terminateBegin. rewrite H0. eauto. }
  rewrite E in Fs, Fu, Ff |- *. cbn [fst snd] in *.
  destruct (IH (acc0 ++ [(k0, v0)]) st1) as (I1 & I2 & I3 & I4 & I5).
  { intros k v Hin. rewrite Fs. apply Hl. by right. }
  assert (∀ k c, procs st0 !! k = Some c →
            ∃ c', procs st1 !! k = Some c' ∧ running c' = running c ∧
                  (stopped c → stopped c')) as Hstep.
  { intros k c Hk. rewrite Est1. destruct (flutterProcess v0) as [h|]; [|eauto].
    cbn [procs with_timers].
    destruct (kill_running st0 h k SIGTERM c Hk) as (c' & Hc' & Hr).
    exists c'. split_and!; [done|done|].
    intros Hst. destruct (kill_keeps_stopped st0 h k SIGTERM c Hk Hst) as (c'' & ? & ? & _).
    by simplify_eq. }
  split_and!.
  - by rewrite I1, <- app_assoc.
  - by rewrite I2.
  - by rewrite I3.
  - intros k c Hk. destruct (Hstep k c Hk) as (c1 & Hc1 & Hr1 & Hs1).
    destruct (I4 k c1 Hc1) as (c2 & Hc2 & Hr2 & Hs2).
    exists c2. split_and!; [done|congruence|tauto].
  - intros k s h c [[= -> ->]|Hin]%elem_of_cons Hfp Hc.
    + destruct (Hstep h c Hc) as (c1 & Hc1 & _).
      assert (stopped c1) as Hst1.
      { rewrite Est1, Hfp in Hc1. cbn [procs with_timers] in Hc1.
        by eapply kill_stopped. }
      destruct (I4 h c1 Hc1) as (c2 & Hc2 & _ & Hs2). eauto.
    + destruct (Hstep h c Hc) as (c1 & Hc1 & _). by eapply I5.
Qed.

Lemma terminateEnd_frame sessionId s rm st :
  sessions (terminateEnd sessionId s rm st) = delete sessionId (sessions st) ∧
  usedPorts (terminateEnd sessionId s rm st) = usedPorts st ∖ {[port s]} ∧
  procs (terminateEnd sessionId s rm st) = procs st.
Proof. unfold terminateEnd. by destruct rm. Qed.

Lemma ends_spec rm l st :
  let r := foldl (λ st entry, terminateEnd entry.1 entry.2 (rm entry.1) st) st l in
  (∀ k, sessions r !! k = if decide (k ∈ l.*1) then None else sessions st !! k) ∧
  (∀ p, p ∈ usedPorts r ↔ p ∈ usedPorts st ∧ ∀ k s, (k, s) ∈ l → port s ≠ p) ∧
  procs r = procs st.
Proof.
  revert st. induction l as [|[k0 v0] l IH]; intros st r; subst r.
  { split_and!; [|intros p; split; [intros ?; split; [done|]|by intros []]|done].
    - intros k. by rewrite decide_False by apply not_elem_of_nil.
    - intros k s []%elem_of_nil. }
  cbn [foldl fst snd]. rewrite fmap_cons. cbn [fst].
  destruct (terminateEnd_frame k0 v0 (rm k0) st) as (Es & Eu & Ep).
  destruct (IH (terminateEnd k0 v0 (rm k0) st)) as (I1 & I2 & I3).
  split_and!.
  - intros k. rewrite (I1 k), Es.
    destruct (decide (k ∈ l.*1)) as [Hin|Hnin].
    + by rewrite decide_True by (by right).
    + destruct (decide (k = k0)) as [->|Hne].
      * rewrite lookup_delete_eq. by rewrite decide_True by left.
      * rewrite lookup_delete_ne by done.
        by rewrite decide_False by (intros [?|?]%elem_of_cons; done).
  - intros p. rewrite (I2 p), Eu, elem_of_difference, elem_of_singleton. split.
    + intros [[Hp Hne] Hrest]. split; [done|].
      intros k s [[= -> ->]|Hin]%elem_of_cons; [congruence|by eapply Hrest].
    + intros [Hp Hall]. split; [split; [done|]|].
      * intros ->. apply (Hall k0 v0); [by left|done].
      * intros k s Hin. apply (Hall k s). by right.
  - by rewrite I3, Ep.
Qed.

(** [shutdown] terminates every session, in whatever order the removals of
    the project directories settle: afterwards no session is left, a port is
    still marked as used only if it was and no session held it, and every
    child of a session that was running has been sent SIGTERM. *)
Theorem shutdown_terminates_every_session rm settle st :
  (∀ l, settle l ≡ₚ l) →
  sessions (shutdown rm settle st) = ∅ ∧
  (∀ p, p ∈ usedPorts (shutdown rm settle st) ↔
        p ∈ usedPorts st ∧ ∀ sessionId s, sessions st !! sessionId = Some s → port s ≠ p) ∧
  (∀ sessionId s h c,
     sessions st !! sessionId = Some s → flutterProcess s = Some h →
     procs st !! h = Some c → running c = true →
     ∃ c', procs (shutdown rm settle st) !! h = Some c' ∧
           killed c' = true ∧ SIGTERM ∈ signals c').
Proof.
  intros Hsettle. unfold shutdown.
  destruct (begins_spec (map_to_list (sessions st)) [] st) as (B1 & B2 & B3 & B4 & B5).
  { intros k v. apply elem_of_map_to_list. }
  cbv zeta in B1, B2, B3, B4, B5.
  set (started := foldl _ ([], st) (map_to_list (sessions st)).*1) in *.
  destruct (ends_spec rm (settle started.1) started.2) as (E1 & E2 & E3).
  cbv zeta in E1, E2, E3.
  set (final := foldl _ started.2 (settle started.1)) in *.
  rewrite B1 in *. cbn [app] in *.
  split_and!.
  - apply map_eq. intros k. rewrite (E1 k), lookup_empty.
    destruct (decide (k ∈ (settle (map_to_list (sessions st))).*1)) as [Hin|Hnin]; [done|].
    rewrite B2. apply eq_None_not_Some. intros [s Hs]. apply Hnin.
    apply list_elem_of_fmap. exists (k, s). split; [done|].
    rewrite (Hsettle _). by apply elem_of_map_to_list.
  - intros p. rewrite (E2 p), B3. split; intros [Hp Hall]; (split; [done|]).
    + intros k s Hk. apply (Hall k s). rewrite (Hsettle _). by apply elem_of_map_to_list.
    + intros k s Hk. apply (Hall k s). rewrite (Hsettle _) in Hk.
      by apply elem_of_map_to_list.
  - intros k s h c Hk Hfp Hc Hrun. rewrite E3.
    destruct (B5 k s h c) as (c' & Hc' & Hst); [by apply elem_of_map_to_list|done|done|].
    destruct (B4 h c Hc) as (c'' & Hc'' & Hr & _).
    assert (c'' = c') as -> by congruence.
    exists c'. split; [done|]. apply Hst. congruence.
Qed.

(** ** On the scenarios *)

(** Two sessions are shut down, the removals settling in reverse order. *)
Lemma shutdown_terminates_every_session_witness :
  sessions (shutdown (λ _, true) reverse Scenarios.two) = ∅ ∧
  usedPorts (shutdown (λ _, true) reverse Scenarios.two) = ∅ ∧
  procs (shutdown (λ _, true) reverse Scenarios.two)
  = [ {| running := true; killed := true; signals := [SIGTERM]; stdin := [] |};
      {| running := true; killed := true; signals := [SIGTERM]; stdin := [] |} ].
Proof.
  destruct (shutdown_terminates_every_session (λ _, true) reverse Scenarios.two)
    as (Hs & _ & _).
  { intros l. apply reverse_Permutation. }
  split; [exact Hs|]. split; vm_compute; reflexivity.
Defined.

(** A session is terminated and its timer fires: the child has SIGTERM only. *)
Lemma sigkill_is_never_delivered_witness :
  procs (run [CreateSession None None (Scenarios.serving "0" 0 8080);
              TerminateSession "0" true; FireTimer] initial) !! 0
  = Some {| running := true; killed := true; signals := [SIGTERM]; stdin := [] |} ∧
  SIGKILL ∉ [SIGTERM].
Proof.
  split; [vm_compute; reflexivity|].
  apply (sigkill_is_never_delivered
           [CreateSession None None (Scenarios.serving "0" 0 8080);
            TerminateSession "0" true; FireTimer] 0
           {| running := true; killed := true; signals := [SIGTERM]; stdin := [] |}).
  vm_compute. reflexivity.
Defined.

End ShutdownSpec.

(* ================================================================== *)
(** * The session that is created *)
(* ================================================================== *)

Module CreateSpec.
Import SessionManager SessionManagerProps SessionManagerSpec.

(** While the server is awaited, only the status of the session can change. *)
Lemma awaitServer_session sessionId p h evs st r st' s :
  awaitServer sessionId p h evs st = (r, st') →
  sessions st !! sessionId = Some s →
  ∃ v, sessions st' !! sessionId = Some (set_status v s).
Proof.
  revert st s. induction evs as [|[output|output|c|message] evs IH]; intros st s; simpl.
  - intros [= <- <-] Hs. exists (status s). by destruct s.
  - case_match; [|apply IH]. intros [= <- <-] Hs. exists (status s). by destruct s.
  - apply IH.
  - intros Hrun Hs.
    destruct (IH _ (set_status terminated s) Hrun) as [v Hv].
    { simpl. by rewrite lookup_alter_eq, Hs. }
    by exists v.
  - intros [= <- <-] Hs. exists (status s). by destruct s.
Qed.

(** The session [createSession] returns is the record it registered, with the
    child attached and the status ['ready']: it sits on the lowest free port,
    its preview URL names that port, its project directory is named after its
    id, and both time stamps are the time of the call. The status is ['ready']
    whatever else the child did before it printed the marker, an ['exit']
    included. *)
Theorem created_session_is_ready st userId prompt env session st' :
  createSession userId prompt env st = (Ok session, st') →
  lowest_free st (port session) ∧
  session = {| id := uuid env; userId := userId;
               projectPath := path_join [projectsDir; uuid env];
               port := port session;
               flutterProcess := Some (length (procs st));
               createdAt := now env; lastActive := now env;
               status := ready;
               previewUrl := "http://localhost:" +:+ pretty (port session) |} ∧
  sessions st' !! uuid env = Some session ∧
  length (procs st') = S (length (procs st)) ∧
  timers st' = timers st.
Proof.
  unfold createSession.
  destruct (register userId env st) as [[s0 st1]|e] eqn:Hreg; [|done].
  destruct (register_Ok _ _ _ _ _ Hreg) as (_ & Hfree & Hid & Es & _ & Ep & Et & _).
  assert (s0 = {| id := uuid env; userId := userId;
                  projectPath := path_join [projectsDir; uuid env];
                  port := port s0; flutterProcess := None;
                  createdAt := now env; lastActive := now env;
                  status := initializing;
                  previewUrl := "http://localhost:" +:+ pretty (port s0) |}) as Hs0.
  { unfold register in Hreg. case_decide; [done|].
    destruct (getNextAvailablePort st); [|done]. by injection Hreg as <- _. }
  unfold bringUp.
  destruct (initializeFlutterProject s0 prompt env st1) as [[[]|e] st2] eqn:Hinit; [|done].
  destruct (initializeFlutterProject_frame _ _ _ _ _ _ Hinit) as (Is & _ & Ip & It).
  destruct (startFlutterServer s0 env st2) as [[[]|e] st3] eqn:Hstart; [|done].
  assert (sessions st2 !! id s0 = Some s0) as H2.
  { rewrite Is, Es, Hid. apply lookup_insert_eq. }
  destruct (startFlutterServer_frame _ _ _ _ _ Hstart) as (_ & Ht3 & _ & _ & _ & _).
  unfold startFlutterServer in Hstart.
  destruct (awaitServer_session _ _ _ _ _ _ _ (set_flutterProcess (Some (length (procs st2))) s0)
              Hstart) as [v Hv].
  { simpl. by rewrite lookup_alter_eq, H2. }
  assert (length (procs st3) = S (length (procs st))) as Hlen.
  { pose proof (awaitServer_calm _ _ _ _ _ _ _ Hstart) as (_ & Hages & _).
    apply Forall2_length in Hages. simpl in Hages.
    rewrite length_app in Hages. simpl in Hages. rewrite <- Hages, Ip, Ep. lia. }
  simpl. rewrite lookup_alter_eq, Hv. simpl.
  intros [= <- <-]. simpl. split_and!; try done.
  - rewrite Ip, Ep. rewrite Hs0 at 1. simpl. by rewrite Hs0 at 1.
  - rewrite <- Hid. rewrite lookup_alter_eq, Hv. done.
  - by rewrite Ht3, It, Et.
Qed.

(** ** On the scenarios *)

(** The third session, as it is returned. *)
Lemma created_session_is_ready_witness :
  ∃ session st',
    createSession (Some "ann") None (Scenarios.serving "2" 2 8082) Scenarios.two
    = (Ok session, st') ∧
    session = {| id := "2"; userId := Some "ann"; projectPath := "temp/sessions/2";
                 port := 8082; flutterProcess := Some 2; createdAt := 2; lastActive := 2;
                 status := ready; previewUrl := "http://localhost:8082" |}.
Proof.
  destruct (createSession (Some "ann") None (Scenarios.serving "2" 2 8082) Scenarios.two)
    as [[session|e] st'] eqn:H; [|vm_compute in H; discriminate].
  exists session, st'. split; [done|].
  destruct (created_session_is_ready _ _ _ _ _ _ H) as (_ & -> & _).
  vm_compute in H. injection H as <- _. reflexivity.
Defined.

End CreateSpec.

(* ================================================================== *)
(** * A session that is not created *)
(* ================================================================== *)

Module RollbackSpec.
Import SessionManager SessionManagerProps SessionManagerSpec.

Lemma bringUp_others session prompt env st r st' k :
  bringUp session prompt env st = (r, st') → k ≠ id session →
  sessions st' !! k = sessions st !! k.
Proof.
  unfold bringUp. intros Hrun Hk.
  destruct (initializeFlutterProject session prompt env st) as [[[]|e] st1] eqn:Hinit;
    destruct (initializeFlutterProject_frame _ _ _ _ _ _ Hinit) as (Is & _).
  - destruct (startFlutterServer_frame _ _ _ _ _ Hrun) as (_ & _ & _ & Hothers & _).
    by rewrite Hothers, Is.
  - injection Hrun as _ <-. by rewrite Is.
Qed.

(** A [createSession] that fails, for whatever reason (capacity, no port,
    `flutter create`, a child that does not come up), leaves the table of
    sessions and the set of used ports exactly as they were, provided the id
    it drew was not in use: the registration is undone completely. *)
Theorem failed_createSession_leaves_no_trace st userId prompt env e st' :
  createSession userId prompt env st = (Err e, st') →
  sessions st !! uuid env = None →
  sessions st' = sessions st ∧ usedPorts st' = usedPorts st.
Proof.
  unfold createSession. intros Hrun Hfresh.
  destruct (register userId env st) as [[session st1]|e1] eqn:Hreg;
    [|by injection Hrun as _ <-].
  destruct (register_Ok _ _ _ _ _ Hreg) as (_ & (_ & Hfree & _) & Hid & Es & Eu & _).
  destruct (bringUp session prompt env st1) as [[[]|e2] st2] eqn:Hup.
  { by destruct (_ !! id session). }
  injection Hrun as _ <-.
  destruct (bringUp_same_ports _ _ _ _ _ _ Hup) as [Hu2 Hs2].
  set (st3 := with_sessions (alter (set_status error) (id session) (sessions st2)) st2).
  assert (∃ s3, sessions st3 !! id session = Some s3 ∧ port s3 = port session)
    as (s3 & Hs3 & Hport).
  { specialize (Hs2 (id session)). rewrite Es, Hid, lookup_insert_eq in Hs2.
    unfold st3. simpl. rewrite lookup_alter_eq, Hid.
    destruct (sessions st2 !! uuid env) as [s2|]; [|done].
    simpl in Hs2. injection Hs2 as Hs2. by exists (set_status error s2). }
  destruct (terminateSession_Some st3 (id session) (removeOk env) s3 Hs3) as [-> ->].
  split.
  - apply map_eq. intros k. destruct (decide (k = id session)) as [->|Hne].
    + rewrite lookup_delete_eq. by rewrite Hid, Hfresh.
    + rewrite lookup_delete_ne by done. unfold st3. simpl.
      rewrite lookup_alter_ne by done.
      rewrite (bringUp_others _ _ _ _ _ _ _ Hup Hne), Es.
      apply lookup_insert_ne. by rewrite <- Hid.
  - unfold st3. simpl. rewrite Hu2, Eu, Hport.
    apply set_eq. intros p. rewrite elem_of_difference, elem_of_union, !elem_of_singleton.
    split; [tauto|]. intros Hp. split; [by right|]. by intros ->.
Qed.

Lemma failed_createSession_leaves_no_trace_witness :
  ∃ st',
    createSession None None (Scenarios.mute "x" 7) Scenarios.two
    = (Err (ServerTimeout "x"), st') ∧
    sessions st' = sessions Scenarios.two ∧ usedPorts st' = usedPorts Scenarios.two.
Proof.
  destruct (createSession None None (Scenarios.mute "x" 7) Scenarios.two)
    as [[s|e] st'] eqn:H; [vm_compute in H; discriminate|].
  exists st'.
  assert (e = ServerTimeout "x") as -> by (vm_compute in H; by injection H as <- _).
  split; [done|].
  apply (failed_createSession_leaves_no_trace _ _ _ _ _ _ H). vm_compute. reflexivity.
Defined.

End RollbackSpec.

(* ================================================================== *)
(** * The order of execution *)
(* ================================================================== *)

Module OrderSpec.
Import Orchestrator OrchestratorProps OrchestratorSpec.

Lemma ids_of_app plans l k : ids_of plans (l ++ k) = ids_of plans l ++ ids_of plans k.
Proof. apply omap_app. Qed.

Lemma ids_of_snoc plans l i p :
  plans !! i = Some p → ids_of plans (l ++ [i]) = ids_of plans l ++ [id p].
Proof. intros Hp. rewrite ids_of_app. unfold ids_of at 2. simpl. by rewrite Hp. Qed.

Lemma findPlan_first plans i p :
  plans !! i = Some p →
  (∀ j q, plans !! j = Some q → j < i → id q ≠ id p) →
  findPlan plans (id p) = Some i.
Proof.
  intros Hp Hfirst. unfold findPlan.
  assert (list_find (λ q, id q = id p) plans = Some (i, p)) as ->; [|done].
  apply list_find_Some. split_and!; [done|done|]. intros j q Hq Hlt. by eapply Hfirst.
Qed.

Lemma dependencies_first_snoc plans l i p :
  dependencies_first plans l → plans !! i = Some p →
  (∀ d, d ∈ dependencies p → is_Some (findPlan plans d) → d ∈ ids_of plans l) →
  dependencies_first plans (l ++ [i]).
Proof.
  intros Hl Hp Hdeps k j q d Hk Hq Hd Hfind.
  destruct (decide (k < length l)) as [Hlt|Hge].
  - rewrite lookup_app_l in Hk by done.
    rewrite take_app_le by lia. by eapply Hl.
  - rewrite lookup_app_r in Hk by lia.
    destruct (k - length l) as [|n] eqn:Hn; [|done].
    simpl in Hk. simplify_eq.
    assert (k = length l) as -> by lia.
    rewrite take_app_length. by apply Hdeps.
Qed.

Lemma well_sorted_push plans acc i p :
  well_sorted plans acc → plans !! i = Some p →
  findPlan plans (id p) = Some i → id p ∉ processed acc →
  (∀ d, d ∈ dependencies p → is_Some (findPlan plans d) → d ∈ processed acc) →
  well_sorted plans {| sorted := sorted acc ++ [i];
                       processed := {[id p]} ∪ processed acc |}.
Proof.
  intros (Hpr & Hnd & Href & Hdf) Hp Hden Hnew Hdeps. split_and!; simpl.
  - intros c. rewrite (ids_of_snoc _ _ _ _ Hp), elem_of_union, elem_of_singleton,
      elem_of_app, list_elem_of_singleton, (Hpr c). tauto.
  - rewrite (ids_of_snoc _ _ _ _ Hp). apply NoDup_app. split_and!; [done| |apply NoDup_singleton].
    intros c Hc Hx%list_elem_of_singleton. subst c. by apply Hnew, Hpr.
  - intros j [Hj|Hx%list_elem_of_singleton]%elem_of_app; [by apply Href|subst j; eauto].
  - eapply dependencies_first_snoc; [done|done|].
    intros d Hd Hf. by apply Hpr, Hdeps.
Qed.

Section Ranked.

Variable plans : list ReWOOPlan.
Variable rank : string → nat.
Hypothesis plans_ranked : ranked plans rank.

Lemma addPlan_deps_sorted depth r (deps : list string) acc acc1 :
  (∀ j q acc acc',
     addPlan depth plans j acc = Some acc' → plans !! j = Some q →
     findPlan plans (id q) = Some j → well_sorted plans acc →
     well_sorted plans acc' ∧ grown rank (rank (id q)) acc acc' ∧ id q ∈ processed acc') →
  (∀ d, d ∈ deps → is_Some (findPlan plans d) → rank d < r) →
  foldM (λ acc depId,
           match findPlan plans depId with
           | Some j =>
               if decide (depId ∈ processed acc) then Some acc
               else addPlan depth plans j acc
           | None => Some acc
           end) deps acc = Some acc1 →
  well_sorted plans acc →
  well_sorted plans acc1 ∧
  (∀ c, c ∈ processed acc → c ∈ processed acc1) ∧
  (∀ c, c ∈ processed acc1 → c ∈ processed acc ∨ rank c < r) ∧
  (∀ d, d ∈ deps → is_Some (findPlan plans d) → d ∈ processed acc1).
Proof.
  intros IH. revert acc. induction deps as [|d deps IHdeps]; intros acc Hrank Hrun Hws.
  { simpl in Hrun. injection Hrun as <-. split_and!; [done|done|by left|].
    intros d []%elem_of_nil. }
  simpl in Hrun.
  assert (∃ acc0, Some acc0 = match findPlan plans d with
                              | Some j => if decide (d ∈ processed acc) then Some acc
                                          else addPlan depth plans j acc
                              | None => Some acc
                              end ∧
                  foldM (λ acc depId,
                           match findPlan plans depId with
                           | Some j =>
                               if decide (depId ∈ processed acc) then Some acc
                               else addPlan depth plans j acc
                           | None => Some acc
                           end) deps acc0 = Some acc1) as (acc0 & Hstep & Hrest).
  { destruct (match findPlan plans d with Some _ => _ | None => _ end) as [acc0|]; [eauto|done]. }
  clear Hrun.
  assert (well_sorted plans acc0 ∧
          (∀ c, c ∈ processed acc → c ∈ processed acc0) ∧
          (∀ c, c ∈ processed acc0 → c ∈ processed acc ∨ rank c < r) ∧
          (is_Some (findPlan plans d) → d ∈ processed acc0)) as (Hws0 & Hup0 & Hlow0 & Hd0).
  { destruct (findPlan plans d) as [j|] eqn:Hj.
    2:{ injection Hstep as ->. split_and!; [done|done|by left|]. by intros [? [=]]. }
    destruct (decide (d ∈ processed acc)) as [Hin|Hnin].
    { injection Hstep as ->. split_and!; [done|done|by left|done]. }
    destruct (findPlan_Some _ _ _ Hj) as (q & Hq & Hid & _).
    symmetry in Hstep.
    destruct (IH j q acc acc0 Hstep Hq) as (Hws0 & [Hup Hlow] & Hin0);
      [by rewrite Hid|done|].
    assert (rank d < r) as Hr by (apply Hrank; [by left|by eexists]).
    split_and!; [done|done| |by rewrite <- Hid].
    intros c Hc. destruct (Hlow c Hc) as [?|Hle]; [by left|right].
    rewrite Hid in Hle. lia. }
  destruct (IHdeps acc0) as (Hws1 & Hup1 & Hlow1 & Hd1); [|done|done|].
  { intros d' Hd'. apply Hrank. by right. }
  split_and!; [done|by auto| |].
  - intros c Hc. destruct (Hlow1 c Hc) as [Hc0|?]; [|by right]. by apply Hlow0.
  - intros d' [->|Hd']%elem_of_cons Hf; [by apply Hup1, Hd0|by apply Hd1].
Qed.

Lemma addPlan_sorted depth i p acc acc' :
  addPlan depth plans i acc = Some acc' → plans !! i = Some p →
  id p ∈ processed acc ∨ findPlan plans (id p) = Some i →
  well_sorted plans acc →
  well_sorted plans acc' ∧ grown rank (rank (id p)) acc acc' ∧ id p ∈ processed acc'.
Proof.
  revert i p acc acc'. induction depth as [|depth IH]; intros i p acc acc'; [done|].
  simpl. intros Hrun Hp Hden Hws. rewrite Hp in Hrun.
  destruct (decide (id p ∈ processed acc)) as [Hin|Hnin].
  { injection Hrun as <-. split_and!; [done| |done]. split; [done|by left]. }
  destruct Hden as [?|Hden]; [done|].
  destruct (foldM _ (dependencies p) acc) as [acc1|] eqn:Hdeps; [|done].
  injection Hrun as <-.
  destruct (addPlan_deps_sorted depth (rank (id p)) (dependencies p) acc acc1)
    as (Hws1 & Hup1 & Hlow1 & Hd1); [| |done|done|].
  { intros j q a a' Ha Hq Hdq Hwa. apply (IH j q a a' Ha Hq); [by right|done]. }
  { intros d Hd [j Hj]. destruct (findPlan_Some _ _ _ Hj) as (q & Hq & Hid & _).
    apply (plans_ranked p d q); [by eapply list_elem_of_lookup_2|done
                                 |by eapply list_elem_of_lookup_2|done]. }
  assert (id p ∉ processed acc1) as Hnew.
  { intros Hc. destruct (Hlow1 _ Hc) as [?|?]; [done|lia]. }
  split_and!.
  - by apply well_sorted_push.
  - split; simpl.
    + intros c Hc. apply elem_of_union. right. by apply Hup1.
    + intros c [Hx%elem_of_singleton|Hc]%elem_of_union; [subst c; by right|].
      destruct (Hlow1 c Hc) as [?|?]; [by left|right; lia].
  - simpl. apply elem_of_union. left. by apply elem_of_singleton.
Qed.

Lemma sort_loop_sorted depth m k acc acc' :
  foldM (λ acc i, addPlan depth plans i acc) (seq k m) acc = Some acc' →
  k + m ≤ length plans → well_sorted plans acc →
  (∀ j p, j < k → plans !! j = Some p → id p ∈ processed acc) →
  well_sorted plans acc' ∧
  (∀ j p, j < k + m → plans !! j = Some p → id p ∈ processed acc').
Proof.
  revert k acc. induction m as [|m IH]; intros k acc Hrun Hlen Hws Hbelow.
  { simpl in Hrun. injection Hrun as <-. split; [done|].
    intros j p Hj. apply Hbelow. lia. }
  simpl in Hrun.
  destruct (addPlan depth plans k acc) as [acc1|] eqn:Hk; [|done].
  destruct (lookup_lt_is_Some_2 plans k) as [p Hp]; [lia|].
  destruct (addPlan_sorted depth k p acc acc1 Hk Hp) as (Hws1 & [Hup _] & Hin1); [|done|].
  { destruct (decide (id p ∈ processed acc)) as [?|Hnin]; [by left|right].
    apply findPlan_first; [done|]. intros j q Hq Hlt E. apply Hnin.
    rewrite <- E. by eapply Hbelow. }
  destruct (IH (S k) acc1 Hrun) as (Hws' & Hall); [lia|done| |].
  { intros j q Hj Hq. destruct (decide (j = k)) as [->|Hne].
    - by simplify_eq.
    - apply Hup. apply (Hbelow j q); [lia|done]. }
  split; [done|]. intros j q Hj. apply Hall. lia.
Qed.

End Ranked.

(** On plans without a dependency cycle (every dependency that denotes a plan
    has a smaller rank than the plan that lists it) and with a call stack
    deeper than every rank, [sortPlansByDependencies] returns an order in
    which every id of the plan list occurs exactly once, through the first
    plan that carries it, and in which every dependency that denotes a plan
    stands before the plan that lists it. *)
Theorem ranked_plans_are_sorted_topologically plans rank depth :
  ranked plans rank → (∀ p, p ∈ plans → rank (id p) < depth) →
  ∃ order,
    sortPlansByDependencies depth plans = Some order ∧
    NoDup (ids_of plans order) ∧
    (∀ p, p ∈ plans → id p ∈ ids_of plans order) ∧
    refers_to_denoted plans order ∧
    dependencies_first plans order.
Proof.
  intros Hrank Hdepth.
  destruct (sortPlansByDependencies_ranked plans rank depth Hrank Hdepth) as [order Hsort].
  exists order. split; [done|].
  unfold sortPlansByDependencies in Hsort.
  destruct (foldM _ (seq 0 (length plans)) _) as [acc|] eqn:Hloop; [|done].
  simpl in Hsort. injection Hsort as <-.
  destruct (sort_loop_sorted plans rank Hrank depth (length plans) 0 _ acc Hloop)
    as ((Hpr & Hnd & Href & Hdf) & Hall); [lia| |intros; lia|].
  { split_and!; simpl.
    - intros c. rewrite elem_of_empty, elem_of_nil. done.
    - apply NoDup_nil_2.
    - intros i []%elem_of_nil.
    - intros k i p d Hk. by rewrite lookup_nil in Hk. }
  split_and!; try done.
  intros p [j Hj]%list_elem_of_lookup_1. apply Hpr.
  apply (Hall j p); [|done]. apply lookup_lt_Some in Hj. lia.
Qed.

(** ** On the scenarios *)

(** The three tasks, ranked design, code, test. *)
Lemma ranked_plans_are_sorted_topologically_witness :
  ∃ order,
    sortPlansByDependencies 3 Scenarios.threeTasks = Some order ∧
    NoDup (ids_of Scenarios.threeTasks order) ∧
    (∀ p, p ∈ Scenarios.threeTasks → id p ∈ ids_of Scenarios.threeTasks order) ∧
    refers_to_denoted Scenarios.threeTasks order ∧
    dependencies_first Scenarios.threeTasks order.
Proof.
  apply (ranked_plans_are_sorted_topologically Scenarios.threeTasks
           (λ i, if decide (i = "d") then 0 else if decide (i = "c") then 1 else 2) 3).
  - exact (proj1 threeTasks_ranked).
  - intros p Hp. unfold Scenarios.threeTasks in Hp.
    rewrite !elem_of_cons, elem_of_nil in Hp. destruct_or!; subst; vm_compute; lia.
Defined.

End OrderSpec.

Module StableOrderSpec.
Import Orchestrator OrchestratorProps OrchestratorSpec.

Lemma deps_loop_skips depth plans (deps : list string) acc :
  (∀ d, d ∈ deps → is_Some (findPlan plans d) → d ∈ processed acc) →
  foldM (λ acc depId,
           match findPlan plans depId with
           | Some j =>
               if decide (depId ∈ processed acc) then Some acc
               else addPlan depth plans j acc
           | None => Some acc
           end) deps acc = Some acc.
Proof.
  induction deps as [|d deps IH]; intros Hin; [done|]. simpl.
  destruct (findPlan plans d) as [j|] eqn:Hj.
  - rewrite decide_True by (apply Hin; [by left|by eexists]).
    apply IH. intros d' Hd'. apply Hin. by right.
  - apply IH. intros d' Hd'. apply Hin. by right.
Qed.

Lemma placed_step depth plans k :
  NoDup (id <$> plans) → in_dependency_order plans → k < length plans →
  addPlan (S depth) plans k (placed plans k) = Some (placed plans (S k)).
Proof.
  intros Hnd Hord Hk.
  destruct (lookup_lt_is_Some_2 plans k Hk) as [p Hp].
  simpl. rewrite Hp.
  rewrite decide_False.
  2:{ rewrite elem_of_list_to_set, list_elem_of_fmap. intros (q & Hid & Hq).
      apply list_elem_of_lookup_1 in Hq as [j Hj].
      apply lookup_take_Some in Hj as [Hj Hlt].
      assert (j = k); [|lia].
      apply (NoDup_lookup _ _ _ (id p) Hnd); rewrite list_lookup_fmap.
      - by rewrite Hj, Hid.
      - by rewrite Hp. }
  rewrite deps_loop_skips.
  2:{ intros d Hd [j Hj]. pose proof (Hord k p d j Hp Hd Hj) as Hlt.
      destruct (findPlan_Some _ _ _ Hj) as (q & Hq & Hid & _).
      unfold placed. cbn [processed].
      rewrite elem_of_list_to_set, list_elem_of_fmap. exists q. split; [done|].
      apply (list_elem_of_lookup_2 _ j). by apply lookup_take_Some. }
  f_equal. unfold placed. f_equal.
  - by rewrite seq_S.
  - rewrite (take_S_r _ _ _ Hp), fmap_app, list_to_set_app_L. simpl.
    by rewrite union_empty_r_L, (comm_L (∪)).
Qed.

Lemma placed_loop depth plans k m :
  NoDup (id <$> plans) → in_dependency_order plans → k + m ≤ length plans →
  foldM (λ acc i, addPlan (S depth) plans i acc) (seq k m) (placed plans k)
  = Some (placed plans (k + m)).
Proof.
  intros Hnd Hord. revert k. induction m as [|m IH]; intros k Hlen.
  - by rewrite Nat.add_0_r.
  - cbn [seq foldM]. rewrite placed_step by (done || lia).
    rewrite IH by lia. do 2 f_equal. lia.
Qed.

(** A plan list that is already in dependency order, with no id used twice,
    is executed in the order in which it was given (in particular, plans
    without dependencies run in insertion order); a call stack of depth one
    is enough for that. *)
Theorem plans_in_dependency_order_keep_their_order plans depth :
  NoDup (id <$> plans) → in_dependency_order plans → 0 < depth →
  sortPlansByDependencies depth plans = Some (seq 0 (length plans)).
Proof.
  intros Hnd Hord Hdepth. destruct depth as [|depth]; [lia|].
  unfold sortPlansByDependencies.
  pose proof (placed_loop depth plans 0 (length plans) Hnd Hord) as H.
  change (placed plans 0) with {| sorted := []; processed := ∅ |} in H.
  by rewrite H by lia.
Qed.

(** ** On the scenarios *)

(** The three tasks are listed in dependency order. *)
Lemma threeTasks_in_order : in_dependency_order Scenarios.threeTasks.
Proof.
  intros i p d j Hp Hd Hj.
  destruct i as [|[|[|i]]]; simpl in Hp; simplify_eq; simpl in Hd;
    rewrite ?elem_of_cons, ?elem_of_nil in Hd; destruct_or?; simplify_eq;
    vm_compute in Hj; simplify_eq; lia.
Qed.

(** With a stack of depth one the three tasks keep their order. *)
Lemma plans_in_dependency_order_keep_their_order_witness :
  sortPlansByDependencies 1 Scenarios.threeTasks = Some [0; 1; 2].
Proof.
  apply (plans_in_dependency_order_keep_their_order Scenarios.threeTasks 1).
  - change (NoDup ["d"; "c"; "t"]). apply (bool_decide_unpack _). vm_compute. exact I.
  - exact threeTasks_in_order.
  - lia.
Defined.

End StableOrderSpec.

(* ================================================================== *)
(** * Runs that succeed, and runs that are continued *)
(* ================================================================== *)

Module RunSpec.
Import Orchestrator OrchestratorProps OrchestratorSpec.

(** ** The references of an order are references to plans *)

Lemma addPlan_deps_range depth plans (deps : list string) acc acc1 :
  (∀ j acc acc', addPlan depth plans j acc = Some acc' →
     Forall (λ i, i < length plans) (sorted acc) →
     Forall (λ i, i < length plans) (sorted acc')) →
  foldM (λ acc depId,
           match findPlan plans depId with
           | Some j =>
               if decide (depId ∈ processed acc) then Some acc
               else addPlan depth plans j acc
           | None => Some acc
           end) deps acc = Some acc1 →
  Forall (λ i, i < length plans) (sorted acc) →
  Forall (λ i, i < length plans) (sorted acc1).
Proof.
  intros IH. revert acc. induction deps as [|d deps IHdeps]; intros acc; simpl.
  - by intros [= <-].
  - destruct (findPlan plans d) as [j|]; [|apply IHdeps].
    destruct (decide (d ∈ processed acc)); [apply IHdeps|].
    destruct (addPlan depth plans j acc) as [acc0|] eqn:Hj; [|done].
    intros Hrest Hacc. apply (IHdeps acc0 Hrest). by eapply IH.
Qed.

Lemma addPlan_range depth plans i acc acc' :
  addPlan depth plans i acc = Some acc' →
  Forall (λ i, i < length plans) (sorted acc) →
  Forall (λ i, i < length plans) (sorted acc').
Proof.
  revert i acc acc'. induction depth as [|depth IH]; intros i acc acc'; [done|]. simpl.
  destruct (plans !! i) as [p|] eqn:Hp; [|by intros [= <-]].
  destruct (decide (id p ∈ processed acc)); [by intros [= <-]|].
  destruct (foldM _ (dependencies p) acc) as [acc1|] eqn:Hdeps; [|done].
  intros [= <-] Hacc. simpl. apply Forall_app. split.
  - eapply addPlan_deps_range; [|done|done]. intros j a a'. apply IH.
  - apply Forall_singleton. by eapply lookup_lt_Some.
Qed.

Lemma sortPlansByDependencies_range depth plans order :
  sortPlansByDependencies depth plans = Some order →
  Forall (λ i, i < length plans) order.
Proof.
  unfold sortPlansByDependencies.
  destruct (foldM _ _ _) as [acc|] eqn:Hloop; [|done]. intros [= <-].
  revert Hloop. generalize (seq 0 (length plans)).
  assert (Forall (λ i, i < length plans) (sorted {| sorted := []; processed := ∅ |})) as H
    by constructor.
  revert H. generalize {| sorted := []; processed := ∅ |}.
  intros a Ha l. revert a Ha. induction l as [|i l IH]; intros a Ha; simpl.
  - by intros [= <-].
  - destruct (addPlan depth plans i a) as [a'|] eqn:Hi; [|done].
    apply IH. by eapply addPlan_range.
Qed.

(** ** A loop that ends successfully *)

Lemma sendMessage_Ok respond message st response st' :
  sendMessage respond message st = (Ok response, st') → m_agentId message ∈ registered.
Proof. unfold sendMessage. case_decide; [done|]. by intros [= ]. Qed.

Lemma executePlans_completes respond order results st r st' :
  executePlans respond order results st = (r, st') → success r = true →
  requests (messageHistory st') = requests (messageHistory st) ++ ids_of (plans st) order ∧
  (∀ i p0, i ∈ order → plans st !! i = Some p0 →
     ∃ p, plans st' !! i = Some p ∧ status p = completed ∧
          id p = id p0 ∧ agentId p = agentId p0 ∧ agentId p0 ∈ registered) ∧
  (∀ j, j ∉ order → plans st' !! j = plans st !! j).
Proof.
  revert results st. induction order as [|i order IH]; intros results st; simpl.
  { intros [= <- <-] _. rewrite app_nil_r. split_and!; [done| |done].
    intros i p0 []%elem_of_nil. }
  destruct (plans st !! i) as [plan|] eqn:Hplan.
  2:{ intros Hrun Hok. destruct (IH _ _ Hrun Hok) as (Hreq & Hdone & Hframe).
      split_and!.
      - by rewrite Hreq.
      - intros j p0 [->|Hj]%elem_of_cons Hp0; [congruence|by apply Hdone].
      - intros j Hj. apply Hframe. intros ?. apply Hj. by right. }
  assert (i < length (plans st)) as Hlen by (by eapply lookup_lt_Some).
  destruct (sendMessage _ _ _) as [[agentResult|e] st2] eqn:Hsend; [|by intros [= <- <-]].
  pose proof (sendMessage_Ok _ _ _ _ _ Hsend) as Hreg. simpl in Hreg.
  apply sendMessage_spec in Hsend as (Hp & _ & _ & _ & Hreq2). simpl in Hp, Hreq2.
  destruct (success agentResult); [|by intros [= <- <-]].
  intros Hrun Hok. destruct (IH _ _ Hrun Hok) as (Hreq & Hdone & Hframe).
  simpl in Hreq, Hdone, Hframe.
  rewrite Hp, list_insert_insert_eq in Hreq, Hdone, Hframe.
  split_and!.
  - rewrite Hreq, Hreq2, <- app_assoc. f_equal.
    simpl. f_equal. apply ids_of_ext. by eapply ids_insert.
  - intros j p0 Hj Hp0.
    destruct (decide (j ∈ order)) as [Hin|Hnin].
    + destruct (decide (j = i)) as [->|Hne].
      * destruct (Hdone i _ Hin (list_lookup_insert_eq _ _ _ Hlen))
          as (p & ? & ? & ? & ? & ?).
        simplify_eq. by exists p.
      * destruct (Hdone j p0 Hin) as (p & ? & ? & ? & ? & ?).
        { by rewrite list_lookup_insert_ne. }
        by exists p.
    + apply elem_of_cons in Hj as [->|?]; [|done]. simplify_eq.
      rewrite (Hframe i Hnin), list_lookup_insert_eq by done.
      eexists. split; [done|]. by split_and!.
  - intros j Hj. rewrite Hframe by (intros ?; apply Hj; by right).
    apply list_lookup_insert_ne. intros ->. apply Hj. by left.
Qed.

(** A run of [buildApplication] that reports success has gone through every
    plan of the order exactly as sorted: one request per sorted plan went over
    the bus, in that order; every sorted plan is ['completed'] and is assigned
    to a registered agent; the phase is ['completion'], and the artifact that
    is returned is the stored [finalResult], counts every plan of the list and
    describes the prompt. *)
Theorem successful_run_completes_every_plan depth prompt ps respond st r st' :
  buildApplication depth prompt (Ok (Some ps)) respond st = (Ok r, st') →
  success r = true →
  ∃ order artifact,
    sortPlansByDependencies depth (set_status pending <$> ps) = Some order ∧
    requests (messageHistory st') = requests (messageHistory st) ++ ids_of ps order ∧
    (∀ i, i ∈ order →
       ∃ p0 p, ps !! i = Some p0 ∧ plans st' !! i = Some p ∧ status p = completed ∧
               id p = id p0 ∧ agentId p = agentId p0 ∧ agentId p ∈ registered) ∧
    currentPhase st' = completion ∧
    finalResult st' = Some artifact ∧ data r = Some (IntegrationData artifact) ∧
    totalPlans artifact = length ps ∧ description artifact = prompt.
Proof.
  unfold buildApplication, createExecutionPlan, executeReWOOPlan. simpl.
  destruct (sortPlansByDependencies depth (set_status pending <$> ps))
    as [order|] eqn:Hsort; [|done].
  destruct (executePlans respond order [] _) as [er st3] eqn:Hexec.
  pose proof (executePlans_frame _ _ _ _ _ _ Hexec) as (Hph & Hfin & Hctx & Hids).
  simpl in *.
  destruct (success er) eqn:Hok; simpl; [|by intros [= <- <-] ?; congruence].
  destruct (executePlans_completes _ _ _ _ _ _ Hexec Hok) as (Hreq & Hdone & _).
  simpl in Hreq, Hdone.
  unfold integrateResults. simpl. rewrite Hctx. simpl.
  intros [= <- <-] _. eexists order, _. split_and!; try done.
  - simpl. rewrite Hreq. f_equal. apply ids_of_ext.
    rewrite <- list_fmap_compose. by apply list_fmap_ext.
  - intros i Hi.
    pose proof (sortPlansByDependencies_range _ _ _ Hsort) as Hrange.
    rewrite Forall_forall in Hrange. specialize (Hrange i Hi).
    rewrite length_fmap in Hrange.
    destruct (lookup_lt_is_Some_2 ps i Hrange) as [p0 Hp0].
    destruct (Hdone i (set_status pending p0) Hi) as (p & ? & ? & ? & Ha & ?).
    { by rewrite list_lookup_fmap, Hp0. }
    exists p0, p. simpl in *. split_and!; try done. by rewrite Ha.
  - simpl. etransitivity; [symmetry; apply (length_fmap id)|].
    by rewrite Hids, !length_fmap.
Qed.

Lemma executePlans_data respond order results st r st' :
  executePlans respond order results st = (r, st') → success r = true →
  ∃ results', data r = Some (ExecutionData results').
Proof.
  revert results st. induction order as [|i order IH]; intros results st; simpl.
  { intros [= <- <-] _. by eexists. }
  destruct (plans st !! i) as [plan|]; [|apply IH].
  destruct (sendMessage _ _ _) as [[agentResult|e] st2]; [|by intros [= <- <-]].
  destruct (success agentResult); [apply IH|by intros [= <- <-]].
Qed.

(** [continue_execution] cannot finish a run. From the phase ['execution']
    (where a failed run rests) it sorts and dispatches the whole plan list
    again, the plans that had completed included, and whether or not that
    succeeds the phase is still ['execution'] and [finalResult] is what it
    was: the results are not integrated. From the phases ['planning'] and
    ['completion'] it is refused and changes nothing. *)
Theorem continue_execution_never_integrates depth respond st :
  currentPhase st ≠ integration →
  ∃ r st',
    processMessage depth continue_execution respond st = (r, st') ∧
    currentPhase st' = currentPhase st ∧ finalResult st' = finalResult st ∧
    (currentPhase st ≠ execution →
       r = failure "No continuation available for current phase" ∧ st' = st) ∧
    (success r = true →
       ∃ order results,
         sortPlansByDependencies depth (plans st) = Some order ∧
         requests (messageHistory st')
         = requests (messageHistory st) ++ ids_of (plans st) order ∧
         data r = Some (ExecutionData results)).
Proof.
  intros Hph. unfold processMessage, continueExecution.
  destruct (currentPhase st) eqn:Ephase; try done.
  - eexists _, _. split; [reflexivity|]. by split_and!.
  - unfold executeReWOOPlan.
    destruct (sortPlansByDependencies depth (plans st)) as [order|] eqn:Hsort.
    + destruct (executePlans respond order [] st) as [er st3] eqn:Hexec.
      pose proof (executePlans_frame _ _ _ _ _ _ Hexec) as (Hph3 & Hfin3 & _).
      eexists _, _. split; [reflexivity|]. split_and!; [congruence|done|done|].
      intros Hok. destruct (executePlans_completes _ _ _ _ _ _ Hexec Hok) as (Hreq & _).
      destruct (executePlans_data _ _ _ _ _ _ Hexec Hok) as [results Hdata].
      by exists order, results.
    + eexists _, _. split; [reflexivity|]. by split_and!.
  - eexists _, _. split; [reflexivity|]. by split_and!.
Qed.

(** ** On the scenarios *)

(** The three tasks with agents that all succeed. *)
Lemma successful_run_completes_every_plan_witness :
  ∃ r st',
    buildApplication 8 "a todo app" (Ok (Some Scenarios.threeTasks)) Scenarios.allSucceed fresh
    = (Ok r, st') ∧
    requests (messageHistory st') = ["d"; "c"; "t"] ∧
    status <$> plans st' = [completed; completed; completed] ∧
    currentPhase st' = completion.
Proof.
  destruct (buildApplication 8 "a todo app" (Ok (Some Scenarios.threeTasks))
              Scenarios.allSucceed fresh) as [[r|e] st'] eqn:H; [|vm_compute in H; discriminate].
  exists r, st'. split; [done|].
  destruct (successful_run_completes_every_plan _ _ _ _ _ _ _ H)
    as (order & artifact & _ & _ & _ & Hph & _).
  { vm_compute in H. injection H as <- _. reflexivity. }
  split_and!; [| |exact Hph]; vm_compute in H; injection H as <- <-; reflexivity.
Defined.

(** The stalled run is continued with agents that all succeed: the design and
    the code are requested again, the phase stays ['execution'], and there is
    no final result. *)
Lemma continue_execution_never_integrates_witness :
  ∃ r st',
    processMessage 8 continue_execution Scenarios.allSucceed Scenarios.stalled = (r, st') ∧
    success r = true ∧
    currentPhase st' = execution ∧ finalResult st' = None ∧
    requests (messageHistory st') = ["d"; "c"; "d"; "c"; "t"].
Proof.
  destruct (continue_execution_never_integrates 8 Scenarios.allSucceed Scenarios.stalled)
    as (r & st' & H & Hph & Hfin & _); [by vm_compute|].
  exists r, st'. split; [exact H|].
  split_and!.
  - vm_compute in H. injection H as <- _. reflexivity.
  - rewrite Hph. vm_compute. reflexivity.
  - rewrite Hfin. vm_compute. reflexivity.
  - vm_compute in H. injection H as _ <-. reflexivity.
Defined.

End RunSpec.

(* ================================================================== *)
(** * Properties of the multi-agent service *)
(* ================================================================== *)

Module MultiAgentServiceSpec.
Import Orchestrator OrchestratorProps OrchestratorSpec MultiAgentService
  MultiAgentServiceProps.

(** ** The phase in which the orchestrator comes to rest *)

Lemma buildApplication_phase depth prompt response respond st r st' :
  buildApplication depth prompt response respond st = (r, st') →
  (∀ res, r = Ok res → success res = true →
          Orchestrator.currentPhase st' = completion ∧ is_Some (finalResult st')) ∧
  Orchestrator.currentPhase st' ≠ integration.
Proof.
  unfold buildApplication.
  destruct (createExecutionPlan prompt response (with_phase planning st))
    as [pr st1] eqn:Hplan.
  assert (Orchestrator.currentPhase st1 = planning ∧
          (success pr = true → is_Some (context st1))) as [Hph1 Hctx1].
  { unfold createExecutionPlan in Hplan.
    destruct response as [[ps|]|e]; injection Hplan as <- <-; simpl; split; done. }
  destruct (success pr) eqn:Hok; simpl.
  2:{ intros [= <- <-]. split; [|by rewrite Hph1]. intros res [= <-]. congruence. }
  unfold executeReWOOPlan. cbn [plans with_phase].
  destruct (sortPlansByDependencies depth (plans st1)) as [order|].
  2:{ intros [= <- <-]. split; [done|]. done. }
  destruct (executePlans respond order [] (with_phase execution st1)) as [er st3] eqn:Hexec.
  pose proof (executePlans_frame _ _ _ _ _ _ Hexec) as (Hph & _ & Hctx & _).
  simpl in Hph, Hctx.
  destruct (success er) eqn:Hok3; simpl.
  2:{ intros [= <- <-]. split; [|by rewrite Hph]. intros res [= <-]. congruence. }
  unfold integrateResults. simpl. rewrite Hctx.
  destruct (Hctx1 eq_refl) as [prompt' ->].
  intros [= <- <-]. simpl. split; [|done]. intros res _ _. split; [done|by eexists].
Qed.

Lemma continue_phase depth respond st r st' :
  Orchestrator.continueExecution depth respond st = (r, st') →
  Orchestrator.currentPhase st ≠ integration →
  Orchestrator.currentPhase st' = Orchestrator.currentPhase st ∧
  finalResult st' = finalResult st ∧
  (∀ res, r = Ok res → success res = true → Orchestrator.currentPhase st = execution).
Proof.
  unfold Orchestrator.continueExecution.
  destruct (Orchestrator.currentPhase st) eqn:Hph; try done.
  - intros [= <- <-] _. split_and!; [done|done|]. by intros res [= <-].
  - unfold executeReWOOPlan.
    destruct (sortPlansByDependencies depth (plans st)) as [order|].
    + destruct (executePlans respond order [] st) as [er st3] eqn:Hexec.
      pose proof (executePlans_frame _ _ _ _ _ _ Hexec) as (Hph3 & Hfin3 & _).
      intros [= <- <-] _. split_and!; [congruence|done|done].
    + intros [= <- <-] _. split_and!; done.
  - intros [= <- <-] _. split_and!; [done|done|]. by intros res [= <-].
Qed.

(** ** continueExecution of the service *)

Lemma continueExecution_unfinished id env svc s :
  sessions svc !! id = Some s →
  Orchestrator.currentPhase (orchestrator s) ≠ integration →
  ∃ reply s' b,
    continueExecution id env svc
    = (Ok reply, {| sessions := <[id := s']> (sessions svc); bus := b |}) ∧
    r_status reply = status s' ∧ status s' ≠ Completed ∧
    flutterProjectGenerated reply = false ∧
    Orchestrator.currentPhase (orchestrator s')
    = Orchestrator.currentPhase (orchestrator s) ∧
    finalResult (orchestrator s') = finalResult (orchestrator s) ∧
    (r_success reply = true →
       Orchestrator.currentPhase (orchestrator s) = execution ∧ status s' = Executing) ∧
    (r_success reply = false → status s' = Failed ∧ r_data reply = None) ∧
    (Orchestrator.currentPhase (orchestrator s) ≠ execution →
       reply = failed_reply (Some "No continuation available for current phase")).
Proof.
  intros Hs Hph. unfold continueExecution, callOrchestrator, processMessage.
  rewrite Hs. cbn [orchestrator set_lastActivity].
  destruct (Orchestrator.continueExecution (stack env) (agents env)
              (with_history (bus svc) (orchestrator s))) as [r st'] eqn:Hrun.
  destruct (continue_phase _ _ _ _ _ Hrun Hph) as (Hsame & Hfinal & Hexec).
  simpl in Hsame, Hfinal, Hexec.
  assert (Orchestrator.currentPhase (orchestrator s) ≠ execution →
          r = Ok (failure "No continuation available for current phase")) as Hother.
  { unfold Orchestrator.continueExecution in Hrun. simpl in Hrun.
    destruct (Orchestrator.currentPhase (orchestrator s)); try done;
      by injection Hrun as <- _. }
  destruct r as [res|e]; cbn [success data].
  - destruct (success res) eqn:Hok.
    + pose proof (Hexec res eq_refl Hok) as Hex.
      destruct (data res) as [d|] eqn:Hd.
      * cbn [orchestrator set_orchestrator set_lastActivity].
        destruct (decide (Orchestrator.currentPhase st' = completion)) as [Hc|Hc];
          [congruence|].
        eexists _, _, _. split; [reflexivity|]. simpl.
        split_and!; try done; intros ?; congruence.
      * eexists _, _, _. split; [reflexivity|]. simpl.
        split_and!; try done; intros ?; congruence.
    + eexists _, _, _. split; [reflexivity|]. simpl.
      split_and!; try done.
      intros Hne. specialize (Hother Hne). by injection Hother as ->.
  - eexists _, _, _. split; [reflexivity|]. simpl. split_and!; try done.
    intros Hne. by specialize (Hother Hne).
Qed.

(** ** processUserPrompt *)

Lemma processUserPrompt_fails id userPrompt env env2 svc s :
  sessions svc !! id = Some s →
  ∃ reply s' b,
    processUserPrompt id userPrompt env env2 svc
    = (Ok reply, {| sessions := <[id := s']> (sessions svc); bus := b |}) ∧
    r_success reply = false ∧ r_status reply = Failed ∧ r_data reply = None ∧
    flutterProjectGenerated reply = false ∧ status s' = Failed ∧
    Orchestrator.currentPhase (orchestrator s') ≠ integration ∧
    (∀ res st', processMessage (stack env) (build_app userPrompt (planner env)) (agents env)
                  (with_history (bus svc) (orchestrator s)) = (res, st') →
                success res = true →
                r_error reply = Some "No continuation available for current phase" ∧
                Orchestrator.currentPhase (orchestrator s') = completion ∧
                is_Some (finalResult (orchestrator s'))).
Proof.
  intros Hs. unfold processUserPrompt, callOrchestrator. rewrite Hs.
  cbn [orchestrator set_progress set_lastActivity set_status].
  destruct (processMessage (stack env) (build_app userPrompt (planner env)) (agents env)
              (with_history (bus svc) (orchestrator s))) as [res st1] eqn:Hrun.
  assert ((success res = true →
             Orchestrator.currentPhase st1 = completion ∧ is_Some (finalResult st1)) ∧
          Orchestrator.currentPhase st1 ≠ integration) as [Hdone Hrest].
  { unfold processMessage in Hrun.
    destruct (buildApplication _ _ _ _ _) as [r st'] eqn:Hb.
    destruct (buildApplication_phase _ _ _ _ _ _ _ Hb) as [H1 H2].
    destruct r as [res'|e]; injection Hrun as <- <-; split; try done.
    by apply H1. }
  destruct (success res) eqn:Hok.
  - destruct (Hdone eq_refl) as [Hc Hfin].
    match goal with
    | |- context [continueExecution id env2 ?svc1] =>
        destruct (continueExecution_unfinished id env2 svc1 _ (lookup_insert_eq _ _ _))
          as (reply & s' & b & E & Est & Hnc & Hgen & Hph & Hfin' & Hyes & Hno & Hmsg)
    end.
    { cbn [orchestrator set_progress set_status set_orchestrator]. congruence. }
    cbn [orchestrator set_progress set_status set_orchestrator] in Hph, Hfin', Hyes, Hmsg.
    rewrite E. cbn [sessions bus]. rewrite insert_insert_eq.
    rewrite Hmsg by congruence.
    assert (status s' = Failed) as Hf.
    { destruct (r_success reply) eqn:Hr; [|by apply Hno].
      destruct (Hyes eq_refl). congruence. }
    eexists _, s', b. split; [reflexivity|]. simpl.
    split_and!; try done; [congruence|].
    intros res' st' [= <- <-] _. by rewrite Hph, Hfin'.
  - eexists _, _, _. split; [reflexivity|]. simpl. split_and!; try done.
    intros res' st' [= <- <-] ?. congruence.
Qed.

(** Whatever the planner and the agents answer, [processUserPrompt] on an
    existing session ends with an unsuccessful reply and the session
    ['failed']. When the orchestrator's own run succeeded, the artifact is
    stored in the orchestrator, but the call of [continueExecution] that
    follows finds the phase ['completion'] and reports 'No continuation
    available for current phase'; the reply carries no data. *)
Theorem processUserPrompt_never_succeeds id userPrompt env env2 svc s :
  sessions svc !! id = Some s →
  ∃ reply svc',
    processUserPrompt id userPrompt env env2 svc = (Ok reply, svc') ∧
    r_success reply = false ∧ r_status reply = Failed ∧ r_data reply = None ∧
    flutterProjectGenerated reply = false ∧
    status <$> sessions svc' !! id = Some Failed ∧
    (∀ res st', processMessage (stack env) (build_app userPrompt (planner env)) (agents env)
                  (with_history (bus svc) (orchestrator s)) = (res, st') →
                success res = true →
                r_error reply = Some "No continuation available for current phase" ∧
                ∃ s', sessions svc' !! id = Some s' ∧
                      Orchestrator.currentPhase (orchestrator s') = completion ∧
                      is_Some (finalResult (orchestrator s'))).
Proof.
  intros Hs.
  destruct (processUserPrompt_fails id userPrompt env env2 svc s Hs)
    as (reply & s' & b & E & ? & ? & ? & ? & Hf & _ & Hmsg).
  eexists reply, _. split; [exact E|]. simpl. rewrite lookup_insert_eq. simpl.
  split_and!; try done; [by rewrite Hf|].
  intros res st' Hrun Hok. destruct (Hmsg res st' Hrun Hok) as (? & ? & ?).
  split; [done|]. by exists s'.
Qed.

(** ** No session is ever completed *)

Lemma unfinished_insert svc id s b :
  unfinished svc → status s ≠ Completed →
  Orchestrator.currentPhase (orchestrator s) ≠ integration →
  unfinished {| sessions := <[id := s]> (sessions svc); bus := b |}.
Proof.
  intros Hu ? ? k s'. simpl. intros [[<- <-]|[_ Hk]]%lookup_insert_Some; [done|].
  by eapply Hu.
Qed.

Lemma step_unfinished svc c : unfinished svc → unfinished (step svc c).
Proof.
  intros Hu. destruct c as [id prompt env|id prompt env env2|id env|id]; simpl.
  - by apply unfinished_insert.
  - unfold step. destruct (sessions svc !! id) as [s|] eqn:Hs.
    + destruct (processUserPrompt_fails id prompt env env2 svc s Hs)
        as (reply & s' & b & -> & _ & _ & _ & _ & Hf & Hph & _).
      simpl. apply unfinished_insert; [done|congruence|done].
    + unfold processUserPrompt. by rewrite Hs.
  - destruct (sessions svc !! id) as [s|] eqn:Hs.
    + destruct (Hu id s Hs) as [_ Hph].
      destruct (continueExecution_unfinished id env svc s Hs Hph)
        as (reply & s' & b & -> & _ & Hnc & _ & Hph' & _).
      simpl. apply unfinished_insert; [done|done|congruence].
    + unfold continueExecution. by rewrite Hs.
  - intros k s. unfold cleanupSession. simpl. intros [_ Hk]%lookup_delete_Some.
    by eapply Hu.
Qed.

Lemma run_unfinished calls svc : unfinished svc → unfinished (run calls svc).
Proof.
  revert svc. induction calls as [|c calls IH]; intros svc Hu; [done|].
  simpl. apply IH. by apply step_unfinished.
Qed.

Lemma initial_unfinished : unfinished initial.
Proof. intros k s Hk. simpl in Hk. by rewrite lookup_empty in Hk. Qed.

(** When the calls of the service run one after the other, no session ever
    becomes ['completed'] and no reply ever reports generated project files:
    [continueExecution] can reach that branch only from the orchestrator phase
    ['integration'], in which no orchestrator comes to rest. *)
Theorem no_session_is_ever_completed calls :
  (∀ id s, sessions (run calls initial) !! id = Some s → status s ≠ Completed) ∧
  (∀ id env reply svc',
     continueExecution id env (run calls initial) = (Ok reply, svc') →
     r_status reply ≠ Completed ∧ flutterProjectGenerated reply = false) ∧
  (∀ id userPrompt env env2 reply svc',
     processUserPrompt id userPrompt env env2 (run calls initial) = (Ok reply, svc') →
     r_status reply ≠ Completed ∧ flutterProjectGenerated reply = false).
Proof.
  pose proof (run_unfinished calls initial initial_unfinished) as Hu.
  split_and!.
  - intros id s Hs. by destruct (Hu id s Hs).
  - intros id env reply svc'.
    destruct (sessions (run calls initial) !! id) as [s|] eqn:Hs.
    + destruct (Hu id s Hs) as [_ Hph].
      destruct (continueExecution_unfinished id env _ s Hs Hph)
        as (reply' & s' & b & -> & Est & Hnc & Hgen & _).
      intros [= <- _]. split; [congruence|done].
    + unfold continueExecution. by rewrite Hs.
  - intros id prompt env env2 reply svc'.
    destruct (sessions (run calls initial) !! id) as [s|] eqn:Hs.
    + destruct (processUserPrompt_fails id prompt env env2 _ s Hs)
        as (reply' & s' & b & -> & _ & Hst & _ & Hgen & _).
      intros [= <- _]. split; [congruence|done].
    + unfold processUserPrompt. by rewrite Hs.
Qed.

(** ** The statistics *)

Lemma count_by_status (l : list MultiAgentSession) :
  length l
  = length (filter active l) + length (filter (λ s, status s = Completed) l)
    + length (filter (λ s, status s = Failed) l) ∧
  length (filter active l)
  = length (filter (λ s, status s = Initializing) l)
    + length (filter (λ s, status s = Planning) l)
    + length (filter (λ s, status s = Executing) l)
    + length (filter (λ s, status s = Integrating) l).
Proof.
  induction l as [|s l [IH1 IH2]]; [done|].
  destruct (status s) eqn:E;
    repeat match goal with
           | |- context [filter ?P (s :: l)] =>
               first [ rewrite (filter_cons_True P)
                         by (unfold active; rewrite E; first [done | by split])
                     | rewrite (filter_cons_False P)
                         by (unfold active; rewrite E; first [done | by intros [? ?]]) ]
           end;
    simpl; lia.
Qed.

(** The figures of [getSessionStats] add up: every session is counted as
    active, completed or failed, the active ones are those in one of the four
    other states, and [getActiveSessions] returns as many sessions as are
    counted active. *)
Theorem session_stats_add_up svc :
  total (getSessionStats svc)
  = n_active (getSessionStats svc) + n_completed (getSessionStats svc)
    + n_failed (getSessionStats svc) ∧
  n_active (getSessionStats svc)
  = byStatus (getSessionStats svc) Initializing + byStatus (getSessionStats svc) Planning
    + byStatus (getSessionStats svc) Executing + byStatus (getSessionStats svc) Integrating ∧
  n_completed (getSessionStats svc) = byStatus (getSessionStats svc) Completed ∧
  n_failed (getSessionStats svc) = byStatus (getSessionStats svc) Failed ∧
  n_active (getSessionStats svc) = length (getActiveSessions svc).
Proof.
  destruct (count_by_status (map_to_list (sessions svc)).*2) as [H1 H2].
  unfold getSessionStats, getActiveSessions. simpl. by split_and!.
Qed.

(** ** On the scenarios *)

(** The planner and every agent succeed, the orchestrator stores its artifact,
    and the reply is a failure. *)
Lemma processUserPrompt_never_succeeds_witness :
  ∃ reply svc',
    processUserPrompt "0" "a todo app" Scenarios.planned Scenarios.planned Scenarios.chatting
    = (Ok reply, svc') ∧
    r_success reply = false ∧ r_status reply = Failed ∧
    r_error reply = Some "No continuation available for current phase" ∧
    status <$> sessions svc' !! "0" = Some Failed ∧
    (finalResult ∘ orchestrator <$> sessions svc' !! "0")
    = Some (Some {| description := "a todo app"; a_design := Some "done";
                    a_code := Some "done"; a_tests := Some "done";
                    agentsUsed := ["design-agent"; "code-agent"; "testing-agent"];
                    Orchestrator.totalPlans := 3; successfulPlans := 3 |}).
Proof.
  destruct (processUserPrompt_never_succeeds "0" "a todo app" Scenarios.planned Scenarios.planned
              Scenarios.chatting
              (createSession "0" "a todo app" Scenarios.planned initial).1)
    as (reply & svc' & H & Hno & Hst & _ & _ & Hf & _); [vm_compute; reflexivity|].
  exists reply, svc'. split; [exact H|]. split; [exact Hno|]. split; [exact Hst|].
  split; [|split; [exact Hf|]]; vm_compute in H; injection H as <- <-; vm_compute; reflexivity.
Defined.

End MultiAgentServiceSpec.

Module MultiAgentRoutesSpec.
Import MultiAgentService MultiAgentRoutes MultiAgentServiceSpec.

(** The multi-agent version of POST /:sessionId/code never answers 200. It
    answers 400 for a prompt outside 5..2000 characters, 404 for an unknown
    session, and otherwise 400 with an unsuccessful reply of status
    ['failed']; the handler's catch (500) is never reached. *)
Theorem multi_agent_code_route_never_answers_200 sessionId prompt now env0 env env2 mgr svc :
  match (postCode sessionId prompt now env0 env env2 mgr svc).1.1 with
  | BadRequest => SessionRoutes.validPrompt prompt = false
  | NotFound _ => SessionManager.sessions mgr !! sessionId = None
  | Rejected reply => r_success reply = false ∧ r_status reply = Failed
  | Processed _ _ | ServerError _ => False
  end.
Proof.
  unfold postCode.
  destruct (SessionRoutes.validPrompt prompt) eqn:Hv; simpl; [|done].
  unfold SessionManager.getSession.
  destruct (SessionManager.sessions mgr !! sessionId) as [session|] eqn:Hs; [|done].
  set (svc1 := match getSession sessionId svc with Some _ => svc | None => _ end).
  assert (∃ s, sessions svc1 !! sessionId = Some s) as [s Hs1].
  { unfold svc1, getSession. destruct (sessions svc !! sessionId) as [s|] eqn:E; [eauto|].
    simpl. rewrite lookup_insert_eq. eauto. }
  destruct (processUserPrompt_fails sessionId prompt env env2 svc1 s Hs1)
    as (reply & s' & b & -> & Hno & Hst & _).
  by rewrite Hno.
Qed.

End MultiAgentRoutesSpec.
